(** * Shard block processor (process/block/shardblock.go)

    A shallow embedding of the shard block processor of elrond-go: the
    header/body correlation check, the meta-header finality evaluator, the
    cross-shard selector, the header tracking table with its completion
    signal, the processed-miniblocks ledger, and the drivers
    [ProcessBlock], [CommitBlock], [RestoreBlockIntoPools] and
    [CreateBlockHeader].

    Conventions.
    - Go's [uint32]/[uint64]/[int32] values are integers in [Z]; every
      conversion and every operation that can wrap is written out with
      [uint32], [uint64] or [int32].
    - A Go [[]byte] hash is only ever used as a map key through
      [string(hash)] or compared for equality, so hashes are strings.
    - A Go [error] is an [option Error], [None] being [nil].
    - Go maps are [gmap]s.  Where the source ranges over a map the model
      ranges over [map_to_list]; Go leaves that order unspecified.
    - Logging, metrics and fire-and-forget goroutines that only issue
      network requests are left out. *)

From Stdlib Require Import ZArith Lia.
From stdpp Require Import gmap strings list fin_maps pretty.
From stdpp Require Import sorting.

Local Open Scope Z_scope.

(** ** Machine integers *)

Definition uint32 (z : Z) : Z := z mod 2 ^ 32.
Definition uint64 (z : Z) : Z := z mod 2 ^ 64.

(** Conversion to a signed 32-bit integer (two's complement). *)
Definition int32 (z : Z) : Z :=
  let m := z mod 2 ^ 32 in
  if m <? 2 ^ 31 then m else m - 2 ^ 32.

(** ** Errors (process/errors.go) *)

Inductive Error : Type :=
| ErrNilHaveTimeHandler
| ErrNilBlockHeader
| ErrNilTxBlockBody
| ErrNilMetaBlockPool
| ErrNilMetaHeadersNoncesDataPool
| ErrNilDataPoolHolder
| ErrNilBlockChain
| ErrNilBlockBody
| ErrWrongTypeAssertion
| ErrBlockHashDoesNotMatch
| ErrHeaderBodyMismatch
| ErrTimeIsOut
| ErrAccountStateDirty
| ErrHeaderNotFinal
| ErrCrossShardMBWithoutConfirmationFromMeta
| ErrRootStateDoesNotMatch
| ErrCollaborator (msg : string).

Global Instance Error_eq_dec : EqDecision Error.
Proof. solve_decision. Defined.

(** ** Data model (data/block) *)

Abbreviation Hash := string (only parsing).

(** Go's nil or empty byte slice. *)
Definition noBytes : string := EmptyString.

Inductive BlockType : Type :=
| TxBlock
| SmartContractResultBlock
| RewardsBlock
| PeerBlock.

Global Instance BlockType_eq_dec : EqDecision BlockType.
Proof. solve_decision. Defined.

Module MiniBlock.
Record t : Type := mk {
  TxHashes : list Hash;
  ReceiverShardID : Z;
  SenderShardID : Z;
  Type_ : BlockType
}.
End MiniBlock.

Module MiniBlockHeader.
Record t : Type := mk {
  Hash : Hash;
  SenderShardID : Z;
  ReceiverShardID : Z;
  TxCount : Z;
  Type_ : BlockType
}.
End MiniBlockHeader.

Global Instance MiniBlockHeader_eq_dec : EqDecision MiniBlockHeader.t.
Proof. solve_decision. Defined.

(** [block.Body] is a slice of miniblocks. *)
Abbreviation Body := (list MiniBlock.t) (only parsing).

Module Header.
Record t : Type := mk {
  Nonce : Z;
  Round : Z;
  Epoch : Z;
  ShardId : Z;
  PrevHash : Hash;
  PrevRandSeed : Hash;
  RandSeed : Hash;
  RootHash : Hash;
  TxCount : Z;
  MiniBlockHeaders : list MiniBlockHeader.t;
  MetaBlockHashes : list Hash
}.
End Header.

Module ShardMiniBlockHeader.
Record t : Type := mk {
  Hash : Hash;
  ReceiverShardID : Z;
  SenderShardID : Z;
  TxCount : Z
}.
End ShardMiniBlockHeader.

Module ShardData.
Record t : Type := mk {
  ShardId : Z;
  HeaderHash : Hash;
  ShardMiniBlockHeaders : list ShardMiniBlockHeader.t
}.
End ShardData.

Module MetaBlock.
Record t : Type := mk {
  Nonce : Z;
  Round : Z;
  Epoch : Z;
  PrevHash : Hash;
  PrevRandSeed : Hash;
  RandSeed : Hash;
  ShardInfo : list ShardData.t
}.
End MetaBlock.

(** The metachain's shard identifier, [sharding.MetachainShardId]. *)
Definition MetachainShardId : Z := 4294967295.

(** A [data.HeaderHandler] interface value: nil, a shard header or a
    metablock. *)
Inductive HeaderHandler : Type :=
| HdrNil
| HdrShard (h : Header.t)
| HdrMeta (m : MetaBlock.t).

Global Instance ShardMiniBlockHeader_eq_dec : EqDecision ShardMiniBlockHeader.t.
Proof. solve_decision. Defined.

Global Instance ShardData_eq_dec : EqDecision ShardData.t.
Proof. solve_decision. Defined.

Global Instance MetaBlock_eq_dec : EqDecision MetaBlock.t.
Proof. solve_decision. Defined.

Global Instance Header_eq_dec : EqDecision Header.t.
Proof. solve_decision. Defined.

Global Instance HeaderHandler_eq_dec : EqDecision HeaderHandler.
Proof. solve_decision. Defined.

(** A [data.BodyHandler] interface value: nil, a shard [block.Body], or a
    body of another concrete type, on which the assertion
    [bodyHandler.(block.Body)] fails. *)
Inductive BodyHandler : Type :=
| BodyNil
| BodyShard (b : Body)
| BodyOther.

(** ** Header/body correlation *)

Section Correlation.

(** [sp.marshalizer.Marshal] on a miniblock and [sp.hasher.Compute]. *)
Variable Marshal : MiniBlock.t → Error + string.
Variable Compute : string → Hash.

(** The map built by the first loop of [checkHeaderBodyCorrelation]: a
    later header entry overwrites an earlier one with the same hash. *)
Definition mbHashesFromHdr (hdrs : list MiniBlockHeader.t)
  : gmap string MiniBlockHeader.t :=
  foldl (λ m h, <[MiniBlockHeader.Hash h := h]> m) ∅ hdrs.

(** The second loop of [checkHeaderBodyCorrelation]. *)
Fixpoint checkMiniBlocks (tbl : gmap string MiniBlockHeader.t)
         (body : Body) : option Error :=
  match body with
  | [] => None
  | miniBlock :: rest =>
      match Marshal miniBlock with
      | inl err => Some err
      | inr mbBytes =>
          let mbHash := Compute mbBytes in
          match tbl !! mbHash with
          | None => Some ErrHeaderBodyMismatch
          | Some mbHdr =>
              if negb (MiniBlockHeader.TxCount mbHdr =?
                       uint32 (Z.of_nat (length (MiniBlock.TxHashes miniBlock))))
              then Some ErrHeaderBodyMismatch
              else if negb (MiniBlockHeader.ReceiverShardID mbHdr =?
                            MiniBlock.ReceiverShardID miniBlock)
              then Some ErrHeaderBodyMismatch
              else if negb (MiniBlockHeader.SenderShardID mbHdr =?
                            MiniBlock.SenderShardID miniBlock)
              then Some ErrHeaderBodyMismatch
              else checkMiniBlocks tbl rest
          end
      end
  end.

Definition checkHeaderBodyCorrelation (hdr : Header.t) (body : Body)
  : option Error :=
  let tbl := mbHashesFromHdr (Header.MiniBlockHeaders hdr) in
  if negb (length (Header.MiniBlockHeaders hdr) =? length body)%nat
  then Some ErrHeaderBodyMismatch
  else checkMiniBlocks tbl body.

(** The header entry the claim expects at the position of [mb]. *)
Definition expectedMiniBlockHeader (mbBytes : string) (mb : MiniBlock.t)
  : MiniBlockHeader.t :=
  MiniBlockHeader.mk (Compute mbBytes)
    (MiniBlock.SenderShardID mb) (MiniBlock.ReceiverShardID mb)
    (uint32 (Z.of_nat (length (MiniBlock.TxHashes mb))))
    (MiniBlock.Type_ mb).

(** The correlation as the specification words it: same length and, index
    by index, the header entry is the one computed from the miniblock. *)
Definition correlatedPerIndex (hdr : Header.t) (body : Body) : Prop :=
  length (Header.MiniBlockHeaders hdr) = length body ∧
  ∀ (i : nat) (mb : MiniBlock.t), body !! i = Some mb →
    ∃ mbBytes, Marshal mb = inr mbBytes ∧
      Header.MiniBlockHeaders hdr !! i
        = Some (expectedMiniBlockHeader mbBytes mb).

(** What the check does establish for one miniblock: the last header
    entry carrying the miniblock's hash agrees with it on the transaction
    count and on both shard identifiers. *)
Definition matchedByHash (hdrs : list MiniBlockHeader.t)
           (mb : MiniBlock.t) : Prop :=
  ∃ mbBytes mbHdr,
    Marshal mb = inr mbBytes ∧
    last (filter (λ h, MiniBlockHeader.Hash h = Compute mbBytes) hdrs)
      = Some mbHdr ∧
    MiniBlockHeader.TxCount mbHdr
      = uint32 (Z.of_nat (length (MiniBlock.TxHashes mb))) ∧
    MiniBlockHeader.ReceiverShardID mbHdr = MiniBlock.ReceiverShardID mb ∧
    MiniBlockHeader.SenderShardID mbHdr = MiniBlock.SenderShardID mb.

End Correlation.

(** ** Interface values and their accessors *)

(** A [data.ChainHandler] interface value; the chain's contents belong to
    the collaborators' state. *)
Inductive ChainHandler : Type :=
| ChainNil
| Chain.

(** The accessors of [data.HeaderHandler].  Calling a method on a nil
    interface panics in Go; the processor guards every such call, and the
    accessors return zero values there. *)
Definition GetNonce (h : HeaderHandler) : Z :=
  match h with
  | HdrNil => 0
  | HdrShard s => Header.Nonce s
  | HdrMeta m => MetaBlock.Nonce m
  end.

Definition GetRound (h : HeaderHandler) : Z :=
  match h with
  | HdrNil => 0
  | HdrShard s => Header.Round s
  | HdrMeta m => MetaBlock.Round m
  end.

Definition GetEpoch (h : HeaderHandler) : Z :=
  match h with
  | HdrNil => 0
  | HdrShard s => Header.Epoch s
  | HdrMeta m => MetaBlock.Epoch m
  end.

Definition GetShardID (h : HeaderHandler) : Z :=
  match h with
  | HdrNil => 0
  | HdrShard s => Header.ShardId s
  | HdrMeta _ => MetachainShardId
  end.

Definition GetPrevHash (h : HeaderHandler) : Hash :=
  match h with
  | HdrNil => noBytes
  | HdrShard s => Header.PrevHash s
  | HdrMeta m => MetaBlock.PrevHash m
  end.

Definition GetPrevRandSeed (h : HeaderHandler) : Hash :=
  match h with
  | HdrNil => noBytes
  | HdrShard s => Header.PrevRandSeed s
  | HdrMeta m => MetaBlock.PrevRandSeed m
  end.

Definition GetRandSeed (h : HeaderHandler) : Hash :=
  match h with
  | HdrNil => noBytes
  | HdrShard s => Header.RandSeed s
  | HdrMeta m => MetaBlock.RandSeed m
  end.

Definition GetRootHash (h : HeaderHandler) : Hash :=
  match h with
  | HdrShard s => Header.RootHash s
  | _ => noBytes
  end.

(** [headerHandler == nil || headerHandler.IsInterfaceNil()] *)
Definition isNilHeader (h : HeaderHandler) : bool :=
  match h with HdrNil => true | _ => false end.

(** [bodyHandler == nil || bodyHandler.IsInterfaceNil()] *)
Definition isNilBody (b : BodyHandler) : bool :=
  match b with BodyNil => true | _ => false end.

(** ** The per-block header table and the processor's own state *)

Record hdrInfo : Type := mkHdrInfo {
  usedInBlock : bool;
  hdr : HeaderHandler
}.

Record hashAndHdr : Type := mkHashAndHdr {
  hh_hdr : HeaderHandler;
  hh_hash : Hash
}.

Record nonceAndHashInfo : Type := mkNonceAndHashInfo {
  nh_hash : Hash;
  nh_nonce : Z
}.

Record hdrForBlock : Type := mkHdrForBlock {
  missingHdrs : Z;
  missingFinalHdrs : Z;
  hdrHashAndInfo : gmap string hdrInfo
}.

(** [sort.Slice(xs, func(i, j) { return key(xs[i]) < key(xs[j]) })]:
    an insertion sort by ascending key.  Go does not say in which order
    elements with equal keys come out; here they keep their order. *)
Fixpoint insertByKey {A : Type} (key : A → Z) (x : A) (l : list A) : list A :=
  match l with
  | [] => [x]
  | y :: l' => if key y <=? key x then y :: insertByKey key x l' else x :: l
  end.

Definition sortByKey {A : Type} (key : A → Z) (l : list A) : list A :=
  foldl (λ acc x, insertByKey key x acc) [] l.

(** ** Collaborators

    Everything the processor reaches through an interface, through the
    embedded base processor, or through a helper of another package is a
    capability over one state [W], which the processor cannot inspect: the
    accounts, the notarized-headers slices, the pools, the store, the
    transaction coordinator, the chain, the clock.  A call is a function
    of [W] that returns its results and the next [W]. *)

Inductive StorageUnit : Type :=
| BlockHeaderUnit
| MiniBlockUnit
| MetaBlockUnit
| MetaHdrNonceHashDataUnit
| ShardHdrNonceHashDataUnit (shardId : Z).

Record Collaborators (W : Type) : Type := mkCollaborators {
  (** constants and coordinators *)
  MaxMiniBlocksInBlock : Z;
  SelfId : Z;
  NumberOfShards : Z;
  (** [sp.accounts] *)
  acc_JournalLen : W → Z;
  acc_Commit : W → option Error * W;
  (** methods of the embedded base processor *)
  checkForNils : ChainHandler → HeaderHandler → BodyHandler → option Error;
  checkBlockValidity :
    ChainHandler → HeaderHandler → BodyHandler → W → option Error;
  isHdrConstructionValid : HeaderHandler → HeaderHandler → option Error;
  getLastNotarizedHdr : Z → W → Error + HeaderHandler;
  removeLastNotarized : W → W;
  saveLastNotarizedHeader : Z → list HeaderHandler → W → option Error * W;
  removeNotarizedHdrsBehindPreviousFinal : Z → W → W;
  RevertAccountState : W → W;
  getRootHash : W → Hash;
  verifyStateRoot : Hash → W → bool;
  (** marshalizer, hasher, converter *)
  MarshalMiniBlock : MiniBlock.t → Error + string;
  MarshalHeader : HeaderHandler → Error + string;
  UnmarshalMetaBlock : string → Error + MetaBlock.t;
  Compute : string → Hash;
  CalculateHashMiniBlock : MiniBlock.t → Error + Hash;
  CalculateHashHeader : HeaderHandler → Error + Hash;
  ToByteSlice : Z → string;
  (** [sp.store] *)
  store_Get : StorageUnit → string → W → Error + string;
  store_Put : StorageUnit → string → string → W → option Error * W;
  store_Remove : StorageUnit → string → W → option Error * W;
  (** [sp.dataPool] and the pool helpers of package [process] *)
  hasMetaBlocksPool : W → bool;
  hasHeadersNoncesPool : W → bool;
  metaBlocks_Keys : W → list Hash;
  metaBlocks_Peek : Hash → W → option HeaderHandler;
  metaBlocks_Put : Hash → MetaBlock.t → W → W;
  metaBlocks_Remove : Hash → W → W;
  headersNonces_Merge : Z → Z → Hash → W → W;
  headersNonces_Remove : Z → Z → W → W;
  GetMetaHeaderFromPool : Hash → W → Error + MetaBlock.t;
  GetMetaHeaderFromPoolWithNonce : Z → W → Error + (MetaBlock.t * Hash);
  GetShardHeader : Hash → W → Error + Header.t;
  (** [sp.txCoordinator] *)
  txc_CreateBlockStarted : W → W;
  txc_RequestBlockTransactions : Body → W → W;
  txc_RequestMiniBlocks : MetaBlock.t → W → W;
  txc_IsDataPreparedForProcessing : (W → Z * W) → W → option Error * W;
  txc_ProcessBlockTransaction :
    Body → Z → (W → Z * W) → W → option Error * W;
  txc_VerifyCreatedBlockTransactions : Body → W → option Error * W;
  txc_CreateMbsAndProcessCrossShardTransactionsDstMe :
    MetaBlock.t → option (gset string) → Z → Z → Z → (W → bool * W) → W →
    (list MiniBlock.t * Z * bool) * W;
  txc_SaveBlockDataToStorage : Body → W → option Error * W;
  txc_RestoreBlockDataFromStorage : Body → W → (Z * option Error) * W;
  txc_RemoveBlockDataFromPool : Body → W → option Error * W;
  (** [sp.specialAddressHandler] *)
  sah_SetShardConsensusData : Hash → Z → Z → Z → W → option Error * W;
  sah_ClearMetaConsensusData : W → W;
  sah_SetMetaConsensusData : Hash → Z → Z → W → option Error * W;
  (** [sp.forkDetector] *)
  fd_AddHeader :
    Header.t → Hash → list HeaderHandler → list Hash → W → option Error * W;
  fd_GetHighestFinalBlockNonce : W → Z;
  (** the chain handler passed to [CommitBlock] *)
  chain_SetCurrentBlockBody : Body → W → option Error * W;
  chain_SetCurrentBlockHeader : Header.t → W → option Error * W;
  chain_SetCurrentBlockHeaderHash : Hash → W → W;
  (** [sp.blockSizeThrottler] *)
  bst_Add : Z → Z → W → W;
  bst_Succeed : Z → W → W;
  (** methods of the block data types *)
  meta_GetMiniBlockHeadersWithDst : MetaBlock.t → Z → gmap string Z;
  hdr_GetMiniBlockHeadersWithDst : Header.t → Z → gmap string Z;
  hdr_MapMiniBlockHashesToShards : Header.t → gmap string Z;
  hdr_ItemsInBody : Header.t → Z;
  hdr_ItemsInHeader : Header.t → Z;
  (** The pool notifications that run while the driver waits for meta
      headers: [deliveriesWhileWaiting d w] lists the metablock hashes
      whose [receivedMetaBlock] callback runs before the wait of duration
      [d] is over.  The callbacks run on other goroutines and take the
      table's lock one at a time. *)
  deliveriesWhileWaiting : Z → W → list Hash * W
}.

Arguments MaxMiniBlocksInBlock {W} _.
Arguments SelfId {W} _.
Arguments NumberOfShards {W} _.
Arguments acc_JournalLen {W} _ _.
Arguments acc_Commit {W} _ _.
Arguments checkForNils {W} _ _ _ _.
Arguments checkBlockValidity {W} _ _ _ _ _.
Arguments isHdrConstructionValid {W} _ _ _.
Arguments getLastNotarizedHdr {W} _ _ _.
Arguments removeLastNotarized {W} _ _.
Arguments saveLastNotarizedHeader {W} _ _ _ _.
Arguments removeNotarizedHdrsBehindPreviousFinal {W} _ _ _.
Arguments RevertAccountState {W} _ _.
Arguments getRootHash {W} _ _.
Arguments verifyStateRoot {W} _ _ _.
Arguments MarshalMiniBlock {W} _ _.
Arguments MarshalHeader {W} _ _.
Arguments UnmarshalMetaBlock {W} _ _.
Arguments Compute {W} _ _.
Arguments CalculateHashMiniBlock {W} _ _.
Arguments CalculateHashHeader {W} _ _.
Arguments ToByteSlice {W} _ _.
Arguments store_Get {W} _ _ _ _.
Arguments store_Put {W} _ _ _ _ _.
Arguments store_Remove {W} _ _ _ _.
Arguments hasMetaBlocksPool {W} _ _.
Arguments hasHeadersNoncesPool {W} _ _.
Arguments metaBlocks_Keys {W} _ _.
Arguments metaBlocks_Peek {W} _ _ _.
Arguments metaBlocks_Put {W} _ _ _ _.
Arguments metaBlocks_Remove {W} _ _ _.
Arguments headersNonces_Merge {W} _ _ _ _ _.
Arguments headersNonces_Remove {W} _ _ _ _.
Arguments GetMetaHeaderFromPool {W} _ _ _.
Arguments GetMetaHeaderFromPoolWithNonce {W} _ _ _.
Arguments GetShardHeader {W} _ _ _.
Arguments txc_CreateBlockStarted {W} _ _.
Arguments txc_RequestBlockTransactions {W} _ _ _.
Arguments txc_RequestMiniBlocks {W} _ _ _.
Arguments txc_IsDataPreparedForProcessing {W} _ _ _.
Arguments txc_ProcessBlockTransaction {W} _ _ _ _ _.
Arguments txc_VerifyCreatedBlockTransactions {W} _ _ _.
Arguments txc_CreateMbsAndProcessCrossShardTransactionsDstMe {W} _ _ _ _ _ _ _ _.
Arguments txc_SaveBlockDataToStorage {W} _ _ _.
Arguments txc_RestoreBlockDataFromStorage {W} _ _ _.
Arguments txc_RemoveBlockDataFromPool {W} _ _ _.
Arguments sah_SetShardConsensusData {W} _ _ _ _ _ _.
Arguments sah_ClearMetaConsensusData {W} _ _.
Arguments sah_SetMetaConsensusData {W} _ _ _ _ _.
Arguments fd_AddHeader {W} _ _ _ _ _ _.
Arguments fd_GetHighestFinalBlockNonce {W} _ _.
Arguments chain_SetCurrentBlockBody {W} _ _ _.
Arguments chain_SetCurrentBlockHeader {W} _ _ _.
Arguments chain_SetCurrentBlockHeaderHash {W} _ _ _.
Arguments bst_Add {W} _ _ _ _.
Arguments bst_Succeed {W} _ _ _.
Arguments meta_GetMiniBlockHeadersWithDst {W} _ _ _.
Arguments hdr_GetMiniBlockHeadersWithDst {W} _ _ _.
Arguments hdr_MapMiniBlockHashesToShards {W} _ _.
Arguments hdr_ItemsInBody {W} _ _.
Arguments hdr_ItemsInHeader {W} _ _.
Arguments deliveriesWhileWaiting {W} _ _ _.

(** The processor's own fields (struct [shardProcessor]) next to the
    collaborators' state.  [chRcvAllMetaHdrs] counts the sends on the
    channel that no receive has taken yet. *)
Record shardProcessor (W : Type) : Type := mkShardProcessor {
  world : W;
  metaBlockFinality : Z;
  chRcvAllMetaHdrs : nat;
  hdrsForCurrBlock : hdrForBlock;
  currHighestMetaHdrNonce : Z;
  processedMiniBlocks : gmap string (gset string)
}.

Arguments mkShardProcessor {W} _ _ _ _ _ _.
Arguments world {W} _.
Arguments metaBlockFinality {W} _.
Arguments chRcvAllMetaHdrs {W} _.
Arguments hdrsForCurrBlock {W} _.
Arguments currHighestMetaHdrNonce {W} _.
Arguments processedMiniBlocks {W} _.

Definition setWorld {W} (w : W) (sp : shardProcessor W) : shardProcessor W :=
  mkShardProcessor w (metaBlockFinality sp) (chRcvAllMetaHdrs sp)
    (hdrsForCurrBlock sp) (currHighestMetaHdrNonce sp) (processedMiniBlocks sp).

Definition setChannel {W} (n : nat) (sp : shardProcessor W) : shardProcessor W :=
  mkShardProcessor (world sp) (metaBlockFinality sp) n
    (hdrsForCurrBlock sp) (currHighestMetaHdrNonce sp) (processedMiniBlocks sp).

Definition setHdrsForCurrBlock {W} (t : hdrForBlock) (sp : shardProcessor W)
  : shardProcessor W :=
  mkShardProcessor (world sp) (metaBlockFinality sp) (chRcvAllMetaHdrs sp)
    t (currHighestMetaHdrNonce sp) (processedMiniBlocks sp).

Definition setCurrHighestMetaHdrNonce {W} (n : Z) (sp : shardProcessor W)
  : shardProcessor W :=
  mkShardProcessor (world sp) (metaBlockFinality sp) (chRcvAllMetaHdrs sp)
    (hdrsForCurrBlock sp) n (processedMiniBlocks sp).

Definition setProcessedMiniBlocks {W} (l : gmap string (gset string))
           (sp : shardProcessor W) : shardProcessor W :=
  mkShardProcessor (world sp) (metaBlockFinality sp) (chRcvAllMetaHdrs sp)
    (hdrsForCurrBlock sp) (currHighestMetaHdrNonce sp) l.

(** Table updates used throughout. *)
Definition setMissingHdrs (n : Z) (t : hdrForBlock) : hdrForBlock :=
  mkHdrForBlock n (missingFinalHdrs t) (hdrHashAndInfo t).

Definition setMissingFinalHdrs (n : Z) (t : hdrForBlock) : hdrForBlock :=
  mkHdrForBlock (missingHdrs t) n (hdrHashAndInfo t).

Definition setHdrHashAndInfo (m : gmap string hdrInfo) (t : hdrForBlock)
  : hdrForBlock :=
  mkHdrForBlock (missingHdrs t) (missingFinalHdrs t) m.

(** A call on a collaborator, lifted to the processor's state. *)
Definition onWorld {W A} (f : W → A * W) (sp : shardProcessor W)
  : A * shardProcessor W :=
  let '(a, w) := f (world sp) in (a, setWorld w sp).

Definition doWorld {W} (f : W → W) (sp : shardProcessor W) : shardProcessor W :=
  setWorld (f (world sp)) sp.

(** ** The processor *)

Section Processor.

Context {W : Type} (env : Collaborators W).

(** *** Processed-miniblocks ledger *)

Definition addProcessedMiniBlock (metaBlockHash miniBlockHash : Hash)
           (sp : shardProcessor W) : shardProcessor W :=
  match processedMiniBlocks sp !! metaBlockHash with
  | None =>
      setProcessedMiniBlocks
        (<[metaBlockHash := {[miniBlockHash]}]> (processedMiniBlocks sp)) sp
  | Some miniBlocksProcessed =>
      setProcessedMiniBlocks
        (<[metaBlockHash := miniBlocksProcessed ∪ {[miniBlockHash]}]>
           (processedMiniBlocks sp)) sp
  end.

Definition removeProcessedMiniBlock (miniBlockHash : Hash)
           (sp : shardProcessor W) : shardProcessor W :=
  setProcessedMiniBlocks
    ((λ miniBlocksProcessed, miniBlocksProcessed ∖ {[miniBlockHash]})
       <$> processedMiniBlocks sp) sp.

Definition removeAllProcessedMiniBlocks (metaBlockHash : Hash)
           (sp : shardProcessor W) : shardProcessor W :=
  setProcessedMiniBlocks (delete metaBlockHash (processedMiniBlocks sp)) sp.

(** The result is [None] for Go's nil map, when the metablock has no
    entry. *)
Definition getProcessedMiniBlocksHashes (metaBlockHash : Hash)
           (sp : shardProcessor W) : option (gset string) :=
  processedMiniBlocks sp !! metaBlockHash.

Definition isMiniBlockProcessed (metaBlockHash miniBlockHash : Hash)
           (sp : shardProcessor W) : bool :=
  match processedMiniBlocks sp !! metaBlockHash with
  | None => false
  | Some miniBlocksProcessed => bool_decide (miniBlockHash ∈ miniBlocksProcessed)
  end.

(** *** Header table *)

Definition CreateBlockStarted (sp : shardProcessor W) : shardProcessor W :=
  let sp := doWorld (txc_CreateBlockStarted env) sp in
  setHdrsForCurrBlock (mkHdrForBlock 0 0 ∅) sp.

(** The range loop of [sortHdrsForCurrentBlock] over the table's
    entries. *)
Fixpoint collectHdrsForCurrentBlock (flag : bool)
         (entries : list (string * hdrInfo)) : Error + list MetaBlock.t :=
  match entries with
  | [] => inr []
  | (_, info) :: rest =>
      if negb (eqb (usedInBlock info) flag)
      then collectHdrsForCurrentBlock flag rest
      else match hdr info with
           | HdrMeta metaHdr =>
               match collectHdrsForCurrentBlock flag rest with
               | inl err => inl err
               | inr l => inr (metaHdr :: l)
               end
           | _ => inl ErrWrongTypeAssertion
           end
  end.

Definition sortHdrsForCurrentBlock (flag : bool) (sp : shardProcessor W)
  : Error + list MetaBlock.t :=
  match collectHdrsForCurrentBlock flag
          (map_to_list (hdrHashAndInfo (hdrsForCurrBlock sp))) with
  | inl err => inl err
  | inr hdrsForCurrentBlock =>
      inr (sortByKey MetaBlock.Nonce hdrsForCurrentBlock)
  end.

Definition sortHdrsHashesForCurrentBlock (flag : bool) (sp : shardProcessor W)
  : list Hash :=
  let hdrsForCurrentBlockInfo :=
    omap (λ e : string * hdrInfo,
            if negb (eqb (usedInBlock e.2) flag) then None
            else Some (mkNonceAndHashInfo e.1 (GetNonce (hdr e.2))))
         (map_to_list (hdrHashAndInfo (hdrsForCurrBlock sp))) in
  nh_hash <$> sortByKey nh_nonce hdrsForCurrentBlockInfo.

(** *** Finality evaluator *)

(** The loop of [isMetaHeaderFinal], from index [startPos] on. *)
Fixpoint isMetaHeaderFinalFrom (K : Z) (sortedHdrs : list hashAndHdr)
         (lastVerifiedHdr : HeaderHandler) (nextBlocksVerified : Z) : bool :=
  match sortedHdrs with
  | [] => K <=? nextBlocksVerified
  | x :: rest =>
      if K <=? nextBlocksVerified then true
      else
        let tmpHdr := hh_hdr x in
        if GetNonce tmpHdr =? uint64 (GetNonce lastVerifiedHdr + 1) then
          match isHdrConstructionValid env tmpHdr lastVerifiedHdr with
          | Some _ => isMetaHeaderFinalFrom K rest lastVerifiedHdr nextBlocksVerified
          | None => isMetaHeaderFinalFrom K rest tmpHdr (nextBlocksVerified + 1)
          end
        else isMetaHeaderFinalFrom K rest lastVerifiedHdr nextBlocksVerified
  end.

(** [sortedHdrs] is [None] for a nil slice. *)
Definition isMetaHeaderFinal (sp : shardProcessor W) (currHdr : HeaderHandler)
           (sortedHdrs : option (list hashAndHdr)) (startPos : nat) : bool :=
  if isNilHeader currHdr then false
  else match sortedHdrs with
       | None => false
       | Some sortedHdrs =>
           isMetaHeaderFinalFrom (metaBlockFinality sp)
             (drop startPos sortedHdrs) currHdr 0
       end.

(** The loop of [checkMetaHdrFinality]; it returns the last verified
    header and the number of verified successors. *)
Fixpoint checkMetaHdrFinalityLoop (K : Z) (finalMetaHdrs : list MetaBlock.t)
         (lastVerifiedHdr : HeaderHandler) (nextBlocksVerified : Z)
  : HeaderHandler * Z :=
  match finalMetaHdrs with
  | [] => (lastVerifiedHdr, nextBlocksVerified)
  | metaHdr :: rest =>
      if K <=? nextBlocksVerified then (lastVerifiedHdr, nextBlocksVerified)
      else if MetaBlock.Nonce metaHdr =? uint64 (GetNonce lastVerifiedHdr + 1) then
        match isHdrConstructionValid env (HdrMeta metaHdr) lastVerifiedHdr with
        | Some _ => checkMetaHdrFinalityLoop K rest lastVerifiedHdr nextBlocksVerified
        | None =>
            checkMetaHdrFinalityLoop K rest (HdrMeta metaHdr) (nextBlocksVerified + 1)
        end
      else checkMetaHdrFinalityLoop K rest lastVerifiedHdr nextBlocksVerified
  end.

(** [checkMetaHdrFinality] once [sortHdrsForCurrentBlock(false)] has
    returned [finalMetaHdrs]. *)
Definition checkMetaHdrFinalityOn (K : Z) (header : HeaderHandler)
           (finalMetaHdrs : list MetaBlock.t) : option Error :=
  let '(_, nextBlocksVerified) :=
    checkMetaHdrFinalityLoop K finalMetaHdrs header 0 in
  if nextBlocksVerified <? K then Some ErrHeaderNotFinal else None.

Definition checkMetaHdrFinality (sp : shardProcessor W) (header : HeaderHandler)
  : option Error :=
  if isNilHeader header then Some ErrNilBlockHeader
  else match sortHdrsForCurrentBlock false sp with
       | inl err => Some err
       | inr finalMetaHdrs =>
           checkMetaHdrFinalityOn (metaBlockFinality sp) header finalMetaHdrs
       end.

(** The loop of [checkMetaHeadersValidityAndFinality] over the used
    metablocks. *)
Fixpoint checkUsedMetaHdrs (usedMetaHdrs : list MetaBlock.t)
         (tmpNotedHdr : HeaderHandler) : Error + HeaderHandler :=
  match usedMetaHdrs with
  | [] => inr tmpNotedHdr
  | metaHdr :: rest =>
      match isHdrConstructionValid env (HdrMeta metaHdr) tmpNotedHdr with
      | Some err => inl err
      | None => checkUsedMetaHdrs rest (HdrMeta metaHdr)
      end
  end.

Definition checkMetaHeadersValidityAndFinality (sp : shardProcessor W)
  : option Error :=
  match getLastNotarizedHdr env MetachainShardId (world sp) with
  | inl err => Some err
  | inr tmpNotedHdr =>
      match sortHdrsForCurrentBlock true sp with
      | inl err => Some err
      | inr usedMetaHdrs =>
          if (length usedMetaHdrs =? 0)%nat then None
          else match checkUsedMetaHdrs usedMetaHdrs tmpNotedHdr with
               | inl err => Some err
               | inr tmpNotedHdr => checkMetaHdrFinality sp tmpNotedHdr
               end
      end
  end.

(** *** Cross-shard selector *)

Definition getOrderedMetaBlocks (round : Z) (sp : shardProcessor W)
  : Error + list hashAndHdr :=
  if negb (hasMetaBlocksPool env (world sp)) then inl ErrNilMetaBlockPool
  else
    match getLastNotarizedHdr env MetachainShardId (world sp) with
    | inl err => inl err
    | inr lastHdr =>
        let orderedMetaBlocks :=
          omap (λ key,
                  match metaBlocks_Peek env key (world sp) with
                  | Some (HdrMeta hdr) =>
                      if round <? MetaBlock.Round hdr then None
                      else if MetaBlock.Round hdr <=? GetRound lastHdr then None
                      else if MetaBlock.Nonce hdr <=? GetNonce lastHdr then None
                      else Some (mkHashAndHdr (HdrMeta hdr) key)
                  | _ => None
                  end)
               (metaBlocks_Keys env (world sp)) in
        inr (sortByKey (λ x, GetNonce (hh_hdr x)) orderedMetaBlocks)
    end.

Definition getMaxMiniBlocksSpaceRemained
           (maxItemsInBlock itemsAddedInBlock miniBlocksAddedInBlock : Z) : Z :=
  let mbSpaceRemainedInBlock :=
    int32 (int32 maxItemsInBlock - int32 itemsAddedInBlock) in
  let mbSpaceRemainedInCache :=
    int32 (int32 (MaxMiniBlocksInBlock env) - int32 miniBlocksAddedInBlock) in
  Z.min mbSpaceRemainedInBlock mbSpaceRemainedInCache.

(** The local variables of [createAndProcessCrossMiniBlocksDstMe]
    together with the processor. *)
Record selectorState : Type := mkSelectorState {
  sel_miniBlocks : list MiniBlock.t;
  sel_txsAdded : Z;
  sel_hdrsAdded : Z;
  sel_lastMetaHdr : HeaderHandler;
  sel_sp : shardProcessor W
}.

Definition sel_table (st : selectorState) : gmap string hdrInfo :=
  hdrHashAndInfo (hdrsForCurrBlock (sel_sp st)).

(** [uint32(len(sp.hdrsForCurrBlock.hdrHashAndInfo) + len(miniBlocks))] *)
Definition itemsAddedInHeader (st : selectorState) : Z :=
  uint32 (Z.of_nat (size (sel_table st)) + Z.of_nat (length (sel_miniBlocks st))).

(** [sp.hdrsForCurrBlock.hdrHashAndInfo[hash] = &hdrInfo{hdr, usedInBlock: true}]
    followed by [hdrsAdded++]. *)
Definition markUsed (hash : Hash) (hdr : MetaBlock.t) (st : selectorState)
  : selectorState :=
  mkSelectorState (sel_miniBlocks st) (sel_txsAdded st)
    (uint32 (sel_hdrsAdded st + 1)) (sel_lastMetaHdr st)
    (setHdrsForCurrBlock
       (setHdrHashAndInfo
          (<[hash := mkHdrInfo true (HdrMeta hdr)]> (sel_table st))
          (hdrsForCurrBlock (sel_sp st)))
       (sel_sp st)).

Definition setLastMetaHdr (h : HeaderHandler) (st : selectorState)
  : selectorState :=
  mkSelectorState (sel_miniBlocks st) (sel_txsAdded st) (sel_hdrsAdded st)
    h (sel_sp st).

(** The three checks at the top of an iteration.  The result says whether
    the iteration goes on to look at its candidate; [haveTime] has been
    called once. *)
Definition selectorMayStart (maxItemsInBlock : Z) (haveTime : W → bool * W)
           (st : selectorState) : bool * selectorState :=
  let '(t, sp1) := onWorld haveTime (sel_sp st) in
  let st1 := mkSelectorState (sel_miniBlocks st) (sel_txsAdded st)
               (sel_hdrsAdded st) (sel_lastMetaHdr st) sp1 in
  if negb t then (false, st1)
  else if MaxMiniBlocksInBlock env <=? Z.of_nat (length (sel_miniBlocks st1))
  then (false, st1)
  else if maxItemsInBlock <=? itemsAddedInHeader st1 then (false, st1)
  else (true, st1).

(** The rest of an iteration, for candidate [x] at index [i].  The boolean
    is [false] when the loop is left with [break]. *)
Definition selectorStep (maxItemsInBlock round : Z) (haveTime : W → bool * W)
           (orderedMetaBlocks : list hashAndHdr) (i : nat) (x : hashAndHdr)
           (st : selectorState) : bool * selectorState :=
  match hh_hdr x with
  | HdrMeta hdr =>
      match isHdrConstructionValid env (HdrMeta hdr) (sel_lastMetaHdr st) with
      | Some _ => (true, st)
      | None =>
          if negb (isMetaHeaderFinal (sel_sp st) (HdrMeta hdr)
                     (Some orderedMetaBlocks) (i + 1))
          then (true, st)
          else if (size (meta_GetMiniBlockHeadersWithDst env hdr (SelfId env))
                   =? 0)%nat
          then (true, setLastMetaHdr (HdrMeta hdr) (markUsed (hh_hash x) hdr st))
          else
            let itemsAddedInBody := sel_txsAdded st in
            if maxItemsInBlock <=? itemsAddedInBody then (true, st)
            else
              let maxTxSpaceRemained :=
                int32 (int32 maxItemsInBlock - int32 itemsAddedInBody) in
              let maxMbSpaceRemained :=
                getMaxMiniBlocksSpaceRemained maxItemsInBlock
                  (uint32 (itemsAddedInHeader st + 1))
                  (uint32 (Z.of_nat (length (sel_miniBlocks st)))) in
              if (0 <? maxTxSpaceRemained) && (0 <? maxMbSpaceRemained) then
                let processedMiniBlocksHashes :=
                  getProcessedMiniBlocksHashes (hh_hash x) (sel_sp st) in
                let '((currMBProcessed, currTxsAdded, hdrProcessFinished), sp1) :=
                  onWorld
                    (txc_CreateMbsAndProcessCrossShardTransactionsDstMe env
                       hdr processedMiniBlocksHashes
                       (uint32 maxTxSpaceRemained) (uint32 maxMbSpaceRemained)
                       round haveTime)
                    (sel_sp st) in
                let st1 :=
                  mkSelectorState (sel_miniBlocks st ++ currMBProcessed)
                    (uint32 (sel_txsAdded st + currTxsAdded))
                    (sel_hdrsAdded st) (sel_lastMetaHdr st) sp1 in
                let st2 :=
                  if 0 <? currTxsAdded then markUsed (hh_hash x) hdr st1
                  else st1 in
                if negb hdrProcessFinished then (false, st2)
                else (true, setLastMetaHdr (HdrMeta hdr) st2)
              else (true, st)
      end
  | _ => (true, st)
  end.

(** The loop of [createAndProcessCrossMiniBlocksDstMe], at index [i] with
    the candidates [rest] still to visit. *)
Fixpoint selectorLoop (maxItemsInBlock round : Z) (haveTime : W → bool * W)
         (orderedMetaBlocks : list hashAndHdr) (i : nat)
         (rest : list hashAndHdr) (st : selectorState) : selectorState :=
  match rest with
  | [] => st
  | x :: rest' =>
      let '(go, st1) := selectorMayStart maxItemsInBlock haveTime st in
      if negb go then st1
      else
        let '(cont, st2) :=
          selectorStep maxItemsInBlock round haveTime orderedMetaBlocks i x st1 in
        if cont
        then selectorLoop maxItemsInBlock round haveTime orderedMetaBlocks
               (S i) rest' st2
        else st2
  end.

Definition createAndProcessCrossMiniBlocksDstMe
           (noShards maxItemsInBlock round : Z) (haveTime : W → bool * W)
           (sp : shardProcessor W)
  : (Error + list MiniBlock.t * Z * Z) * shardProcessor W :=
  match getOrderedMetaBlocks round sp with
  | inl err => (inl err, sp)
  | inr orderedMetaBlocks =>
      match getLastNotarizedHdr env MetachainShardId (world sp) with
      | inl err => (inl err, sp)
      | inr lastMetaHdr =>
          let st :=
            selectorLoop maxItemsInBlock round haveTime orderedMetaBlocks 0
              orderedMetaBlocks (mkSelectorState [] 0 0 lastMetaHdr sp) in
          (inr (sel_miniBlocks st, sel_txsAdded st, sel_hdrsAdded st),
           sel_sp st)
      end
  end.

(** *** Requesting meta headers and receiving them *)

Definition insertHdrInfo (hash : Hash) (info : hdrInfo) (sp : shardProcessor W)
  : shardProcessor W :=
  setHdrsForCurrBlock
    (setHdrHashAndInfo
       (<[hash := info]> (hdrHashAndInfo (hdrsForCurrBlock sp)))
       (hdrsForCurrBlock sp))
    sp.

(** The body of the loop of [requestFinalMissingHeaders], over the nonces
    it visits. *)
Fixpoint requestFinalMissingHeadersLoop (nonces : list Z)
         (requestedBlockHeaders : Z) (sp : shardProcessor W)
  : Z * shardProcessor W :=
  match nonces with
  | [] => (requestedBlockHeaders, sp)
  | i :: rest =>
      if currHighestMetaHdrNonce sp =? 0
      then requestFinalMissingHeadersLoop rest requestedBlockHeaders sp
      else
        match GetMetaHeaderFromPoolWithNonce env i (world sp) with
        | inl _ =>
            requestFinalMissingHeadersLoop rest
              (uint32 (requestedBlockHeaders + 1)) sp
        | inr (metaBlock, metaBlockHash) =>
            requestFinalMissingHeadersLoop rest requestedBlockHeaders
              (insertHdrInfo metaBlockHash
                 (mkHdrInfo false (HdrMeta metaBlock)) sp)
        end
  end.

(** The nonces from [currHighestMetaHdrNonce + 1] up to
    [currHighestMetaHdrNonce + uint64(metaBlockFinality)], both computed in
    [uint64].  (If the upper bound is [2^64 - 1] Go's loop never ends; the
    model visits the nonces up to the bound once.) *)
Definition finalNoncesToRequest (sp : shardProcessor W) : list Z :=
  let first := uint64 (currHighestMetaHdrNonce sp + 1) in
  let bound := uint64 (currHighestMetaHdrNonce sp + uint64 (metaBlockFinality sp)) in
  seqZ first (bound - first + 1).

Definition requestFinalMissingHeaders (sp : shardProcessor W)
  : Z * shardProcessor W :=
  requestFinalMissingHeadersLoop (finalNoncesToRequest sp) 0 sp.

Fixpoint computeMissingAndExistingLoop (hashes : list Hash)
         (missingHeadersHashes : list Hash) (sp : shardProcessor W)
  : list Hash * shardProcessor W :=
  match hashes with
  | [] => (missingHeadersHashes, sp)
  | hash :: rest =>
      match GetMetaHeaderFromPool env hash (world sp) with
      | inl _ =>
          computeMissingAndExistingLoop rest (missingHeadersHashes ++ [hash])
            (setHdrsForCurrBlock
               (setMissingHdrs
                  (uint32 (missingHdrs (hdrsForCurrBlock sp) + 1))
                  (hdrsForCurrBlock sp))
               sp)
      | inr hdr =>
          let sp1 := insertHdrInfo hash (mkHdrInfo true (HdrMeta hdr)) sp in
          let sp2 :=
            if currHighestMetaHdrNonce sp1 <? MetaBlock.Nonce hdr
            then setCurrHighestMetaHdrNonce (MetaBlock.Nonce hdr) sp1
            else sp1 in
          computeMissingAndExistingLoop rest missingHeadersHashes sp2
      end
  end.

Definition computeMissingAndExistingMetaHeaders (header : Header.t)
           (sp : shardProcessor W) : list Hash * shardProcessor W :=
  computeMissingAndExistingLoop (Header.MetaBlockHashes header) []
    (setCurrHighestMetaHdrNonce 0 sp).

(** The second critical section of [requestMetaHeaders]. *)
Definition requestMetaHeadersLocked (missingHeadersHashes : list Hash)
           (sp : shardProcessor W) : (Z * Z) * shardProcessor W :=
  let sp1 :=
    foldl (λ sp hash, insertHdrInfo hash (mkHdrInfo true HdrNil) sp)
          sp missingHeadersHashes in
  let sp2 :=
    if missingHdrs (hdrsForCurrBlock sp1) =? 0 then
      let '(n, sp') := requestFinalMissingHeaders sp1 in
      setHdrsForCurrBlock (setMissingFinalHdrs n (hdrsForCurrBlock sp')) sp'
    else sp1 in
  ((missingHdrs (hdrsForCurrBlock sp2),
    missingFinalHdrs (hdrsForCurrBlock sp2)), sp2).

(** [process.EmptyChannel(sp.chRcvAllMetaHdrs)] takes every pending
    send. *)
Definition requestMetaHeaders (header : Header.t) (sp : shardProcessor W)
  : (Z * Z) * shardProcessor W :=
  let sp := setChannel 0 sp in
  if (length (Header.MetaBlockHashes header) =? 0)%nat then ((0, 0), sp)
  else
    let '(missingHeadersHashes, sp1) :=
      computeMissingAndExistingMetaHeaders header sp in
    requestMetaHeadersLocked missingHeadersHashes sp1.

(** The critical section of [receivedMetaBlock] and the send that follows
    it. *)
Definition receivedMetaBlockLocked (metaBlockHash : Hash)
           (metaBlock : MetaBlock.t) (sp : shardProcessor W)
  : shardProcessor W :=
  if (0 <? missingHdrs (hdrsForCurrBlock sp))
     || (0 <? missingFinalHdrs (hdrsForCurrBlock sp))
  then
    let sp1 :=
      match hdrHashAndInfo (hdrsForCurrBlock sp) !! metaBlockHash with
      | Some hdrInfoForHash =>
          if isNilHeader (hdr hdrInfoForHash) then
            let t := hdrsForCurrBlock sp in
            let t1 :=
              setMissingHdrs (uint32 (missingHdrs t - 1))
                (setHdrHashAndInfo
                   (<[metaBlockHash :=
                        mkHdrInfo (usedInBlock hdrInfoForHash) (HdrMeta metaBlock)]>
                      (hdrHashAndInfo t))
                   t) in
            let sp' := setHdrsForCurrBlock t1 sp in
            if currHighestMetaHdrNonce sp' <? MetaBlock.Nonce metaBlock
            then setCurrHighestMetaHdrNonce (MetaBlock.Nonce metaBlock) sp'
            else sp'
          else sp
      | None => sp
      end in
    let sp2 :=
      if missingHdrs (hdrsForCurrBlock sp1) =? 0 then
        let '(n, sp') := requestFinalMissingHeaders sp1 in
        setHdrsForCurrBlock (setMissingFinalHdrs n (hdrsForCurrBlock sp')) sp'
      else sp1 in
    let allMissingNeededHdrsReceived :=
      (missingHdrs (hdrsForCurrBlock sp2) =? 0)
      && (missingFinalHdrs (hdrsForCurrBlock sp2) =? 0) in
    if allMissingNeededHdrsReceived
    then setChannel (S (chRcvAllMetaHdrs sp2)) sp2
    else sp2
  else sp.

Definition receivedMetaBlock (metaBlockHash : Hash) (sp : shardProcessor W)
  : shardProcessor W :=
  if negb (hasMetaBlocksPool env (world sp)) then sp
  else
    match metaBlocks_Peek env metaBlockHash (world sp) with
    | Some (HdrMeta metaBlock) =>
        let sp1 := receivedMetaBlockLocked metaBlockHash metaBlock sp in
        match getLastNotarizedHdr env MetachainShardId (world sp1) with
        | inl _ => sp1
        | inr lastNotarizedHdr =>
            if MetaBlock.Nonce metaBlock <=? GetNonce lastNotarizedHdr then sp1
            else if MetaBlock.Round metaBlock <=? GetRound lastNotarizedHdr
            then sp1
            else doWorld (txc_RequestMiniBlocks env metaBlock) sp1
        end
    | _ => sp
    end.

(** [waitForMetaHdrHashes]: the notifications that arrive in time run, and
    the wait ends well if one of them has sent on the channel.  (When a
    send is pending and the timer has fired too, Go's [select] takes either
    case; the model takes the send.) *)
Definition waitForMetaHdrHashes (waitTime : Z) (sp : shardProcessor W)
  : option Error * shardProcessor W :=
  let '(hashes, sp1) := onWorld (deliveriesWhileWaiting env waitTime) sp in
  let sp2 := foldl (λ sp hash, receivedMetaBlock hash sp) sp1 hashes in
  match chRcvAllMetaHdrs sp2 with
  | O => (Some ErrTimeIsOut, sp2)
  | S n => (None, setChannel n sp2)
  end.

(** *** Validation of an incoming block *)

Fixpoint setMetaConsensusDataLoop (finalizedMetaBlocks : list HeaderHandler)
         (sp : shardProcessor W) : option Error * shardProcessor W :=
  match finalizedMetaBlocks with
  | [] => (None, sp)
  | metaBlock :: rest =>
      let round := GetRound metaBlock in
      let epoch := GetEpoch metaBlock in
      let '(err, sp1) :=
        onWorld (sah_SetMetaConsensusData env (GetPrevRandSeed metaBlock)
                   round epoch) sp in
      match err with
      | Some err => (Some err, sp1)
      | None => setMetaConsensusDataLoop rest sp1
      end
  end.

Definition setMetaConsensusData (finalizedMetaBlocks : list HeaderHandler)
           (sp : shardProcessor W) : option Error * shardProcessor W :=
  setMetaConsensusDataLoop finalizedMetaBlocks
    (doWorld (sah_ClearMetaConsensusData env) sp).

(** Every cross miniblock hash of the used metablocks of the right round
    and nonce, mapped to the hash of its metablock. *)
Definition getAllMiniBlockDstMeFromMeta (round : Z) (sp : shardProcessor W)
  : Error + gmap string string :=
  match getLastNotarizedHdr env MetachainShardId (world sp) with
  | inl err => inl err
  | inr lastHdr =>
      inr (foldl
             (λ (miniBlockMetaHashes : gmap string string)
                (e : string * hdrInfo),
                if negb (usedInBlock e.2) then miniBlockMetaHashes
                else match hdr e.2 with
                     | HdrMeta hdr =>
                         if round <? MetaBlock.Round hdr then miniBlockMetaHashes
                         else if MetaBlock.Round hdr <=? GetRound lastHdr
                         then miniBlockMetaHashes
                         else if MetaBlock.Nonce hdr <=? GetNonce lastHdr
                         then miniBlockMetaHashes
                         else
                           ((λ _ : Z, e.1)
                              <$> meta_GetMiniBlockHeadersWithDst env hdr (SelfId env))
                           ∪ miniBlockMetaHashes
                     | _ => miniBlockMetaHashes
                     end)
             ∅ (map_to_list (hdrHashAndInfo (hdrsForCurrBlock sp))))
  end.

Definition verifyCrossShardMiniBlockDstMe (hdr : Header.t)
           (sp : shardProcessor W) : option Error :=
  match getAllMiniBlockDstMeFromMeta (Header.Round hdr) sp with
  | inl err => Some err
  | inr miniBlockMetaHashes =>
      let crossMiniBlockHashes :=
        hdr_GetMiniBlockHeadersWithDst env hdr (SelfId env) in
      if forallb (λ e : string * Z,
                    match miniBlockMetaHashes !! e.1 with
                    | Some _ => true
                    | None => false
                    end)
                 (map_to_list crossMiniBlockHashes)
      then None
      else Some ErrCrossShardMBWithoutConfirmationFromMeta
  end.

(** One metablock of the loop of
    [getProcessedMetaBlocksFromMiniBlockHashes]. *)
Definition processedStep (sp : shardProcessor W)
           (acc : list HeaderHandler * gmap string bool * gmap nat string)
           (metaBlockHash : Hash) (metaBlock : MetaBlock.t)
  : list HeaderHandler * gmap string bool * gmap nat string :=
  let '(processedMetaHdrs, processedCrossMiniBlocksHashes, miniBlockHashes) := acc in
  let crossMiniBlockHashes :=
    meta_GetMiniBlockHeadersWithDst env metaBlock (SelfId env) in
  let processed1 : gmap string bool :=
    map_imap (λ hash (_ : Z), Some (isMiniBlockProcessed metaBlockHash hash sp))
             crossMiniBlockHashes
    ∪ processedCrossMiniBlocksHashes in
  let '(processed2, miniBlockHashes2) :=
    foldl (λ (a : gmap string bool * gmap nat string) (e : nat * string),
             match crossMiniBlockHashes !! e.2 with
             | None => a
             | Some _ => (<[e.2 := true]> a.1, delete e.1 a.2)
             end)
          (processed1, miniBlockHashes) (map_to_list miniBlockHashes) in
  let processedAll :=
    forallb (λ e : string * Z, default false (processed2 !! e.1))
            (map_to_list crossMiniBlockHashes) in
  (if processedAll then processedMetaHdrs ++ [HdrMeta metaBlock]
   else processedMetaHdrs,
   processed2, miniBlockHashes2).

Fixpoint processedLoop (sp : shardProcessor W)
         (entries : list (string * hdrInfo))
         (acc : list HeaderHandler * gmap string bool * gmap nat string)
  : Error + list HeaderHandler * gmap string bool * gmap nat string :=
  match entries with
  | [] => inr acc
  | (metaBlockHash, info) :: rest =>
      if negb (usedInBlock info) then processedLoop sp rest acc
      else match hdr info with
           | HdrMeta metaBlock =>
               processedLoop sp rest (processedStep sp acc metaBlockHash metaBlock)
           | _ => inl ErrWrongTypeAssertion
           end
  end.

Definition getProcessedMetaBlocksFromMiniBlockHashes
           (miniBlockHashes : gmap nat string) (sp : shardProcessor W)
  : Error + list HeaderHandler * gmap string bool :=
  match processedLoop sp (map_to_list (hdrHashAndInfo (hdrsForCurrBlock sp)))
          ([], ∅, miniBlockHashes) with
  | inl err => inl err
  | inr (processedMetaHdrs, processedCrossMiniBlocksHashes, _) =>
      inr (sortByKey GetNonce processedMetaHdrs, processedCrossMiniBlocksHashes)
  end.

(** The cross miniblocks of a body, keyed by their index. *)
Fixpoint crossMiniBlockHashesOf (i : nat) (usedMiniBlocks : list MiniBlock.t)
  : gmap nat string :=
  match usedMiniBlocks with
  | [] => ∅
  | mb :: rest =>
      let tail := crossMiniBlockHashesOf (S i) rest in
      if MiniBlock.SenderShardID mb =? SelfId env then tail
      else match CalculateHashMiniBlock env mb with
           | inl _ => tail
           | inr miniBlockHash => <[i := miniBlockHash]> tail
           end
  end.

Definition getProcessedMetaBlocksFromMiniBlocks
           (usedMiniBlocks : list MiniBlock.t) (sp : shardProcessor W)
  : Error + list HeaderHandler :=
  let nrMiniBlocksUsed := length usedMiniBlocks in
  let nrMetaBlocksUsed := size (hdrHashAndInfo (hdrsForCurrBlock sp)) in
  if (nrMiniBlocksUsed =? 0)%nat || (nrMetaBlocksUsed =? 0)%nat then inr []
  else
    match getProcessedMetaBlocksFromMiniBlockHashes
            (crossMiniBlockHashesOf 0 usedMiniBlocks) sp with
    | inl err => inl err
    | inr (processedMetaBlocks, _) => inr processedMetaBlocks
    end.

(** [ProcessBlock], lines 157-209: validity, type assertions, correlation,
    consensus data, reset of the cycle and the requests. *)
Definition ProcessBlock_prepare (chainHandler : ChainHandler)
           (headerHandler : HeaderHandler) (bodyHandler : BodyHandler)
           (sp : shardProcessor W)
  : (Error + Header.t * Body * Z * Z) * shardProcessor W :=
  match checkBlockValidity env chainHandler headerHandler bodyHandler (world sp) with
  | Some err => (inl err, sp)
  | None =>
      match headerHandler with
      | HdrShard header =>
          match bodyHandler with
          | BodyShard body =>
              match checkHeaderBodyCorrelation (MarshalMiniBlock env)
                      (Compute env) header body with
              | Some err => (inl err, sp)
              | None =>
                  let '(err, sp1) :=
                    onWorld (sah_SetShardConsensusData env
                               (GetPrevRandSeed headerHandler)
                               (GetRound headerHandler)
                               (GetEpoch headerHandler)
                               (GetShardID headerHandler)) sp in
                  match err with
                  | Some err => (inl err, sp1)
                  | None =>
                      let sp2 := CreateBlockStarted sp1 in
                      let sp3 := doWorld (txc_RequestBlockTransactions env body) sp2 in
                      let '((requestedMetaHdrs, requestedFinalMetaHdrs), sp4) :=
                        requestMetaHeaders header sp3 in
                      (inr (header, body, requestedMetaHdrs, requestedFinalMetaHdrs),
                       sp4)
                  end
              end
          | _ => (inl ErrWrongTypeAssertion, sp)
          end
      | _ => (inl ErrWrongTypeAssertion, sp)
      end
  end.

(** [ProcessBlock], lines 215-237: wait for the transactions and for the
    missing meta headers. *)
Definition ProcessBlock_await (haveTime : W → Z * W)
           (requestedMetaHdrs requestedFinalMetaHdrs : Z)
           (sp : shardProcessor W) : option Error * shardProcessor W :=
  let '(err, sp1) := onWorld (txc_IsDataPreparedForProcessing env haveTime) sp in
  match err with
  | Some err => (Some err, sp1)
  | None =>
      if (0 <? requestedMetaHdrs) || (0 <? requestedFinalMetaHdrs) then
        let '(waitTime, sp2) := onWorld haveTime sp1 in
        let '(err, sp3) := waitForMetaHdrHashes waitTime sp2 in
        let sp4 :=
          setHdrsForCurrBlock
            (setMissingFinalHdrs 0 (setMissingHdrs 0 (hdrsForCurrBlock sp3)))
            sp3 in
        (err, sp4)
      else (None, sp1)
  end.

(** [ProcessBlock], lines 239-255: the checks that read the accounts and
    the header table. *)
Definition ProcessBlock_verify (header : Header.t) (sp : shardProcessor W)
  : option Error :=
  if negb (acc_JournalLen env (world sp) =? 0) then Some ErrAccountStateDirty
  else match checkMetaHeadersValidityAndFinality sp with
       | Some err => Some err
       | None => verifyCrossShardMiniBlockDstMe header sp
       end.

(** [ProcessBlock], lines 263-288: the part that runs under the deferred
    revert. *)
Definition ProcessBlock_apply (header : Header.t) (body : Body)
           (haveTime : W → Z * W) (sp : shardProcessor W)
  : option Error * shardProcessor W :=
  match getProcessedMetaBlocksFromMiniBlocks body sp with
  | inl err => (Some err, sp)
  | inr processedMetaHdrs =>
      let '(err, sp1) := setMetaConsensusData processedMetaHdrs sp in
      match err with
      | Some err => (Some err, sp1)
      | None =>
          let '(err, sp2) :=
            onWorld (txc_ProcessBlockTransaction env body (Header.Round header)
                       haveTime) sp1 in
          match err with
          | Some err => (Some err, sp2)
          | None =>
              if negb (verifyStateRoot env (Header.RootHash header) (world sp2))
              then (Some ErrRootStateDoesNotMatch, sp2)
              else onWorld (txc_VerifyCreatedBlockTransactions env body) sp2
          end
      end
  end.

(** The deferred function installed at line 257. *)
Definition revertOnError (r : option Error * shardProcessor W)
  : option Error * shardProcessor W :=
  match r with
  | (Some err, sp) => (Some err, doWorld (RevertAccountState env) sp)
  | (None, sp) => (None, sp)
  end.

(** [ProcessBlock] after the check of the remaining time at line 211. *)
Definition ProcessBlock_afterTimeCheck (header : Header.t) (body : Body)
           (requestedMetaHdrs requestedFinalMetaHdrs : Z)
           (haveTime : W → Z * W) (sp : shardProcessor W)
  : option Error * shardProcessor W :=
  match ProcessBlock_await haveTime requestedMetaHdrs
          requestedFinalMetaHdrs sp with
  | (Some err, sp1) => (Some err, sp1)
  | (None, sp1) =>
      match ProcessBlock_verify header sp1 with
      | Some err => (Some err, sp1)
      | None => revertOnError (ProcessBlock_apply header body haveTime sp1)
      end
  end.

(** [haveTime] is [None] for a nil function. *)
Definition ProcessBlock (chainHandler : ChainHandler)
           (headerHandler : HeaderHandler) (bodyHandler : BodyHandler)
           (haveTime : option (W → Z * W)) (sp : shardProcessor W)
  : option Error * shardProcessor W :=
  match haveTime with
  | None => (Some ErrNilHaveTimeHandler, sp)
  | Some haveTime =>
      match ProcessBlock_prepare chainHandler headerHandler bodyHandler sp with
      | (inl err, sp1) => (Some err, sp1)
      | (inr (header, body, requestedMetaHdrs, requestedFinalMetaHdrs), sp1) =>
          let '(remaining, sp2) := onWorld haveTime sp1 in
          if remaining <? 0 then (Some ErrTimeIsOut, sp2)
          else ProcessBlock_afterTimeCheck header body requestedMetaHdrs
                 requestedFinalMetaHdrs haveTime sp2
      end
  end.

(** *** Commit *)

(** The second loop of [getProcessedMetaBlocksFromHeader]: every cross
    miniblock of a used metablock that the block has processed enters the
    ledger. *)
Fixpoint recordProcessedMiniBlocks
         (processedCrossMiniBlocksHashes : gmap string bool)
         (entries : list (string * hdrInfo)) (sp : shardProcessor W)
  : option Error * shardProcessor W :=
  match entries with
  | [] => (None, sp)
  | (metaBlockHash, info) :: rest =>
      if negb (usedInBlock info)
      then recordProcessedMiniBlocks processedCrossMiniBlocksHashes rest sp
      else match hdr info with
           | HdrMeta metaBlock =>
               let crossMiniBlockHashes :=
                 meta_GetMiniBlockHeadersWithDst env metaBlock (SelfId env) in
               let sp1 :=
                 foldl (λ sp (e : string * Z),
                          if default false (processedCrossMiniBlocksHashes !! e.1)
                          then addProcessedMiniBlock metaBlockHash e.1 sp
                          else sp)
                       sp (map_to_list crossMiniBlockHashes) in
               recordProcessedMiniBlocks processedCrossMiniBlocksHashes rest sp1
           | _ => (Some ErrWrongTypeAssertion, sp)
           end
  end.

(** The header is a [*block.Header] that [CommitBlock] has obtained by a
    type assertion; the check for a nil pointer has no counterpart here. *)
Definition getProcessedMetaBlocksFromHeader (header : Header.t)
           (sp : shardProcessor W)
  : (Error + list HeaderHandler) * shardProcessor W :=
  let miniBlockHashes : gmap nat string :=
    list_to_map (imap (λ i h, (i, MiniBlockHeader.Hash h))
                      (Header.MiniBlockHeaders header)) in
  match getProcessedMetaBlocksFromMiniBlockHashes miniBlockHashes sp with
  | inl err => (inl err, sp)
  | inr (processedMetaBlocks, processedCrossMiniBlocksHashes) =>
      match recordProcessedMiniBlocks processedCrossMiniBlocksHashes
              (map_to_list (hdrHashAndInfo (hdrsForCurrBlock sp))) sp with
      | (Some err, sp1) => (inl err, sp1)
      | (None, sp1) => (inr processedMetaBlocks, sp1)
      end
  end.

(** The loop of [getHighestHdrForShardFromMetachain] over the shard info
    of a metablock; [errFound] keeps the last error. *)
Fixpoint ownShardHeaders (shardId : Z) (shardInfo : list ShardData.t)
         (w : W) (ownShIdHdr : list HeaderHandler) (errFound : option Error)
  : Error + list HeaderHandler :=
  match shardInfo with
  | [] =>
      match errFound with
      | Some err => inl err
      | None => inr ownShIdHdr
      end
  | info :: rest =>
      if negb (ShardData.ShardId info =? shardId)
      then ownShardHeaders shardId rest w ownShIdHdr errFound
      else match GetShardHeader env (ShardData.HeaderHash info) w with
           | inl err => ownShardHeaders shardId rest w ownShIdHdr (Some err)
           | inr ownHdr =>
               ownShardHeaders shardId rest w (ownShIdHdr ++ [HdrShard ownHdr])
                 errFound
           end
  end.

Definition getHighestHdrForShardFromMetachain (shardId : Z)
           (hdr : MetaBlock.t) (sp : shardProcessor W)
  : Error + list HeaderHandler :=
  ownShardHeaders shardId (MetaBlock.ShardInfo hdr) (world sp) [] None.

Fixpoint ownShardHeadersOfAll (processedHdrs : list HeaderHandler)
         (sp : shardProcessor W) (ownShIdHdrs : list HeaderHandler)
  : Error + list HeaderHandler :=
  match processedHdrs with
  | [] => inr ownShIdHdrs
  | HdrMeta hdr :: rest =>
      match getHighestHdrForShardFromMetachain (SelfId env) hdr sp with
      | inl err => inl err
      | inr hdrs => ownShardHeadersOfAll rest sp (ownShIdHdrs ++ hdrs)
      end
  | _ :: _ => inl ErrWrongTypeAssertion
  end.

(** [&block.Header{}] *)
Definition emptyHeader : Header.t :=
  Header.mk 0 0 0 0 noBytes noBytes noBytes noBytes 0 [] [].

Definition getHighestHdrForOwnShardFromMetachain
           (processedHdrs : list HeaderHandler) (sp : shardProcessor W)
  : Error + list HeaderHandler * list Hash :=
  match ownShardHeadersOfAll (sortByKey GetNonce processedHdrs) sp [] with
  | inl err => inl err
  | inr ownShIdHdrs =>
      let ownShIdHdrs :=
        if (length ownShIdHdrs =? 0)%nat then [HdrShard emptyHeader]
        else ownShIdHdrs in
      let ownShIdHdrs := sortByKey GetNonce ownShIdHdrs in
      inr (ownShIdHdrs,
           (λ h, match CalculateHashHeader env h with
                 | inl _ => noBytes
                 | inr hash => hash
                 end) <$> ownShIdHdrs)
  end.

(** The loop of [removeProcessedMetaBlocksFromPool]. *)
Fixpoint removeProcessedMetaBlocksLoop (lastNotarizedMetaHdr : HeaderHandler)
         (processedMetaHdrs : list HeaderHandler) (sp : shardProcessor W)
  : shardProcessor W :=
  match processedMetaHdrs with
  | [] => sp
  | hdr :: rest =>
      if GetNonce lastNotarizedMetaHdr <? GetNonce hdr
      then removeProcessedMetaBlocksLoop lastNotarizedMetaHdr rest sp
      else
        match MarshalHeader env hdr with
        | inl _ => removeProcessedMetaBlocksLoop lastNotarizedMetaHdr rest sp
        | inr buff =>
            let headerHash := Compute env buff in
            let nonceToByteSlice := ToByteSlice env (GetNonce hdr) in
            let '(err, sp1) :=
              onWorld (store_Put env MetaHdrNonceHashDataUnit nonceToByteSlice
                         headerHash) sp in
            match err with
            | Some _ => removeProcessedMetaBlocksLoop lastNotarizedMetaHdr rest sp1
            | None =>
                let '(err, sp2) :=
                  onWorld (store_Put env MetaBlockUnit headerHash buff) sp1 in
                match err with
                | Some _ =>
                    removeProcessedMetaBlocksLoop lastNotarizedMetaHdr rest sp2
                | None =>
                    let sp3 := doWorld (metaBlocks_Remove env headerHash) sp2 in
                    let sp4 :=
                      doWorld (headersNonces_Remove env (GetNonce hdr)
                                 MetachainShardId) sp3 in
                    let sp5 := removeAllProcessedMiniBlocks headerHash sp4 in
                    removeProcessedMetaBlocksLoop lastNotarizedMetaHdr rest sp5
                end
            end
        end
  end.

Definition removeProcessedMetaBlocksFromPool
           (processedMetaHdrs : list HeaderHandler) (sp : shardProcessor W)
  : option Error * shardProcessor W :=
  match getLastNotarizedHdr env MetachainShardId (world sp) with
  | inl err => (Some err, sp)
  | inr lastNotarizedMetaHdr =>
      (None, removeProcessedMetaBlocksLoop lastNotarizedMetaHdr
               processedMetaHdrs sp)
  end.

(** The loop of [CommitBlock] that stores the miniblocks. *)
Fixpoint storeMiniBlocks (body : Body) (sp : shardProcessor W)
  : option Error * shardProcessor W :=
  match body with
  | [] => (None, sp)
  | mb :: rest =>
      match MarshalMiniBlock env mb with
      | inl err => (Some err, sp)
      | inr buff =>
          let miniBlockHash := Compute env buff in
          let '(_, sp1) :=
            onWorld (store_Put env MiniBlockUnit miniBlockHash buff) sp in
          storeMiniBlocks rest sp1
      end
  end.

(** [CommitBlock], from the commit of the accounts to the end. *)
Definition CommitBlock_finish (header : Header.t) (body : Body)
           (headerHash : Hash) (processedMetaHdrs : list HeaderHandler)
           (finalHeaders : list HeaderHandler) (finalHeadersHashes : list Hash)
           (sp : shardProcessor W) : option Error * shardProcessor W :=
  let '(err, sp1) := onWorld (acc_Commit env) sp in
  match err with
  | Some err => (Some err, sp1)
  | None =>
      let '(_, sp2) := onWorld (txc_RemoveBlockDataFromPool env body) sp1 in
      let '(_, sp3) := removeProcessedMetaBlocksFromPool processedMetaHdrs sp2 in
      let '(_, sp4) :=
        onWorld (fd_AddHeader env header headerHash finalHeaders
                   finalHeadersHashes) sp3 in
      let highestFinalBlockNonce := fd_GetHighestFinalBlockNonce env (world sp4) in
      let hdrsToAttestPreviousFinal :=
        uint32 (uint32 (uint64 (Header.Nonce header - highestFinalBlockNonce)) + 1) in
      let sp5 :=
        doWorld (removeNotarizedHdrsBehindPreviousFinal env
                   hdrsToAttestPreviousFinal) sp4 in
      let '(err, sp6) := onWorld (chain_SetCurrentBlockBody env body) sp5 in
      match err with
      | Some err => (Some err, sp6)
      | None =>
          let '(err, sp7) := onWorld (chain_SetCurrentBlockHeader env header) sp6 in
          match err with
          | Some err => (Some err, sp7)
          | None =>
              let sp8 := doWorld (chain_SetCurrentBlockHeaderHash env headerHash) sp7 in
              (None, doWorld (bst_Succeed env (Header.Round header)) sp8)
          end
      end
  end.

(** [CommitBlock] without its deferred function. *)
Definition CommitBlock_body (chainHandler : ChainHandler)
           (headerHandler : HeaderHandler) (bodyHandler : BodyHandler)
           (sp : shardProcessor W) : option Error * shardProcessor W :=
  match checkForNils env chainHandler headerHandler bodyHandler with
  | Some err => (Some err, sp)
  | None =>
  match checkBlockValidity env chainHandler headerHandler bodyHandler (world sp) with
  | Some err => (Some err, sp)
  | None =>
  match headerHandler with
  | HdrShard header =>
  match MarshalHeader env headerHandler with
  | inl err => (Some err, sp)
  | inr buff =>
      let headerHash := Compute env buff in
      let nonceToByteSlice := ToByteSlice env (Header.Nonce header) in
      let hdrNonceHashDataUnit := ShardHdrNonceHashDataUnit (Header.ShardId header) in
      let '(_, sp1) :=
        onWorld (store_Put env hdrNonceHashDataUnit nonceToByteSlice headerHash) sp in
      let '(_, sp2) := onWorld (store_Put env BlockHeaderUnit headerHash buff) sp1 in
      if negb (hasHeadersNoncesPool env (world sp2))
      then (Some ErrNilDataPoolHolder, sp2)
      else
        let sp3 :=
          doWorld (headersNonces_Merge env (GetNonce headerHandler)
                     (GetShardID headerHandler) headerHash) sp2 in
        match bodyHandler with
        | BodyShard body =>
            let '(err, sp4) := onWorld (txc_SaveBlockDataToStorage env body) sp3 in
            match err with
            | Some err => (Some err, sp4)
            | None =>
            match storeMiniBlocks body sp4 with
            | (Some err, sp5) => (Some err, sp5)
            | (None, sp5) =>
            match getProcessedMetaBlocksFromHeader header sp5 with
            | (inl err, sp6) => (Some err, sp6)
            | (inr processedMetaHdrs, sp6) =>
            match getHighestHdrForOwnShardFromMetachain processedMetaHdrs sp6 with
            | inl err => (Some err, sp6)
            | inr (finalHeaders, finalHeadersHashes) =>
                (* the callee has sorted the caller's slice in place *)
                let processedMetaHdrs := sortByKey GetNonce processedMetaHdrs in
                let '(err, sp7) :=
                  onWorld (saveLastNotarizedHeader env MetachainShardId
                             processedMetaHdrs) sp6 in
                match err with
                | Some err => (Some err, sp7)
                | None =>
                    match getLastNotarizedHdr env MetachainShardId (world sp7) with
                    | inl err => (Some err, sp7)
                    | inr _ =>
                        CommitBlock_finish header body headerHash
                          processedMetaHdrs finalHeaders finalHeadersHashes sp7
                    end
                end
            end end end end
        | _ => (Some ErrWrongTypeAssertion, sp3)
        end
  end
  | _ => (Some ErrWrongTypeAssertion, sp)
  end end end.

Definition CommitBlock (chainHandler : ChainHandler)
           (headerHandler : HeaderHandler) (bodyHandler : BodyHandler)
           (sp : shardProcessor W) : option Error * shardProcessor W :=
  revertOnError (CommitBlock_body chainHandler headerHandler bodyHandler sp).

(** *** Restore *)

(** One metablock of the first loop of [restoreMetaBlockIntoPool]. *)
Definition restoreMetaBlock (metaBlockHash : Hash) (sp : shardProcessor W)
  : shardProcessor W :=
  match store_Get env MetaBlockUnit metaBlockHash (world sp) with
  | inl _ => sp
  | inr buff =>
      match UnmarshalMetaBlock env buff with
      | inl _ => sp
      | inr metaBlock =>
          let processedMiniBlocks :=
            meta_GetMiniBlockHeadersWithDst env metaBlock (SelfId env) in
          let sp1 :=
            foldl (λ sp (e : string * Z), addProcessedMiniBlock metaBlockHash e.1 sp)
                  sp (map_to_list processedMiniBlocks) in
          let sp2 := doWorld (metaBlocks_Put env metaBlockHash metaBlock) sp1 in
          let sp3 :=
            doWorld (headersNonces_Merge env (MetaBlock.Nonce metaBlock)
                       (GetShardID (HdrMeta metaBlock)) metaBlockHash) sp2 in
          let '(_, sp4) := onWorld (store_Remove env MetaBlockUnit metaBlockHash) sp3 in
          let nonceToByteSlice := ToByteSlice env (MetaBlock.Nonce metaBlock) in
          let '(_, sp5) :=
            onWorld (store_Remove env MetaHdrNonceHashDataUnit nonceToByteSlice) sp4 in
          sp5
      end
  end.

Definition restoreMetaBlockIntoPool (miniBlockHashes : gmap string Z)
           (metaBlockHashes : list Hash) (sp : shardProcessor W)
  : option Error * shardProcessor W :=
  if negb (hasMetaBlocksPool env (world sp)) then (Some ErrNilMetaBlockPool, sp)
  else if negb (hasHeadersNoncesPool env (world sp))
  then (Some ErrNilMetaHeadersNoncesDataPool, sp)
  else
    let sp1 := foldl (λ sp hash, restoreMetaBlock hash sp) sp metaBlockHashes in
    let sp2 :=
      foldl (λ sp (e : string * Z), removeProcessedMiniBlock e.1 sp)
            sp1 (map_to_list miniBlockHashes) in
    (None, sp2).

Definition RestoreBlockIntoPools (headerHandler : HeaderHandler)
           (bodyHandler : BodyHandler) (sp : shardProcessor W)
  : option Error * shardProcessor W :=
  let sp := doWorld (removeLastNotarized env) sp in
  if isNilHeader headerHandler then (Some ErrNilBlockHeader, sp)
  else if isNilBody bodyHandler then (Some ErrNilTxBlockBody, sp)
  else
    match bodyHandler with
    | BodyShard body =>
        match headerHandler with
        | HdrShard header =>
            let '((restoredTxNr, err), sp1) :=
              onWorld (txc_RestoreBlockDataFromStorage env body) sp in
            match err with
            | Some err => (Some err, sp1)
            | None =>
                let miniBlockHashes := hdr_MapMiniBlockHashesToShards env header in
                restoreMetaBlockIntoPool miniBlockHashes
                  (Header.MetaBlockHashes header) sp1
            end
        | _ => (Some ErrWrongTypeAssertion, sp)
        end
    | _ => (Some ErrWrongTypeAssertion, sp)
    end.

(** *** Header creation *)

(** The loop of [CreateBlockHeader] over the body; it returns the
    miniblock headers and the total transaction count. *)
Fixpoint createMiniBlockHeaders (body : Body) (totalTxCount : Z)
  : Error + list MiniBlockHeader.t * Z :=
  match body with
  | [] => inr ([], totalTxCount)
  | mb :: rest =>
      let txCount := Z.of_nat (length (MiniBlock.TxHashes mb)) in
      let totalTxCount := totalTxCount + txCount in
      match CalculateHashMiniBlock env mb with
      | inl err => inl err
      | inr miniBlockHash =>
          match createMiniBlockHeaders rest totalTxCount with
          | inl err => inl err
          | inr (miniBlockHeaders, total) =>
              inr (MiniBlockHeader.mk miniBlockHash
                     (MiniBlock.SenderShardID mb) (MiniBlock.ReceiverShardID mb)
                     (uint32 txCount) (MiniBlock.Type_ mb)
                   :: miniBlockHeaders, total)
          end
      end
  end.

Definition CreateBlockHeader (bodyHandler : BodyHandler) (round : Z)
           (haveTime : W → bool * W) (sp : shardProcessor W)
  : (HeaderHandler * option Error) * shardProcessor W :=
  let header :=
    Header.mk 0 0 0 (SelfId env) noBytes noBytes noBytes
      (getRootHash env (world sp)) 0 [] [] in
  if isNilBody bodyHandler then ((HdrShard header, None), sp)
  else
    match bodyHandler with
    | BodyShard body =>
        match createMiniBlockHeaders body 0 with
        | inl err => ((HdrNil, Some err), sp)
        | inr (miniBlockHeaders, totalTxCount) =>
            let header :=
              Header.mk 0 0 0 (SelfId env) noBytes noBytes noBytes
                (getRootHash env (world sp))
                (uint32 totalTxCount) miniBlockHeaders
                (sortHdrsHashesForCurrentBlock true sp) in
            let sp1 :=
              doWorld (bst_Add env round
                         (uint32 (Z.max (int32 (hdr_ItemsInBody env header))
                                        (int32 (hdr_ItemsInHeader env header)))))
                      sp in
            ((HdrShard header, None), sp1)
        end
    | _ => ((HdrNil, Some ErrWrongTypeAssertion), sp)
    end.

End Processor.

(** ** A reference environment

    A small, concrete implementation of every collaborator, on which the
    processor can be run.  The accounts keep the journal of pending
    mutations, the pools and the store are finite maps, and the
    transaction coordinator executes one transaction per miniblock hash. *)

Record RefWorld : Type := mkRefWorld {
  rw_committedRoot : Hash;
  rw_journal : list Hash;
  rw_notarized : list HeaderHandler;
  rw_metaBlocks : gmap string MetaBlock.t;
  rw_headersNonces : gmap (Z * Z) string;
  rw_store : gmap string string;
  rw_arrivals : list Hash
}.

Definition rw_setJournal (j : list Hash) (w : RefWorld) : RefWorld :=
  mkRefWorld (rw_committedRoot w) j (rw_notarized w) (rw_metaBlocks w)
    (rw_headersNonces w) (rw_store w) (rw_arrivals w).

Definition rw_setNotarized (n : list HeaderHandler) (w : RefWorld) : RefWorld :=
  mkRefWorld (rw_committedRoot w) (rw_journal w) n (rw_metaBlocks w)
    (rw_headersNonces w) (rw_store w) (rw_arrivals w).

Definition rw_setMetaBlocks (p : gmap string MetaBlock.t) (w : RefWorld)
  : RefWorld :=
  mkRefWorld (rw_committedRoot w) (rw_journal w) (rw_notarized w) p
    (rw_headersNonces w) (rw_store w) (rw_arrivals w).

Definition rw_setHeadersNonces (p : gmap (Z * Z) string) (w : RefWorld)
  : RefWorld :=
  mkRefWorld (rw_committedRoot w) (rw_journal w) (rw_notarized w)
    (rw_metaBlocks w) p (rw_store w) (rw_arrivals w).

Definition rw_setStore (s : gmap string string) (w : RefWorld) : RefWorld :=
  mkRefWorld (rw_committedRoot w) (rw_journal w) (rw_notarized w)
    (rw_metaBlocks w) (rw_headersNonces w) s (rw_arrivals w).

Definition rw_setArrivals (a : list Hash) (w : RefWorld) : RefWorld :=
  mkRefWorld (rw_committedRoot w) (rw_journal w) (rw_notarized w)
    (rw_metaBlocks w) (rw_headersNonces w) (rw_store w) a.

(** The accounts adapter: the root hash is the one of the last pending
    mutation; [Commit] and [RevertToSnapshot(0)] both empty the journal. *)
Definition rw_rootHash (w : RefWorld) : Hash :=
  default (rw_committedRoot w) (last (rw_journal w)).

Definition rw_commit (w : RefWorld) : option Error * RefWorld :=
  (None,
   mkRefWorld (rw_rootHash w) [] (rw_notarized w) (rw_metaBlocks w)
     (rw_headersNonces w) (rw_store w) (rw_arrivals w)).

(** Modelled from the spec: [RevertAccountState] of the base processor,
    which is not among the sources; "the only sanctioned rollback path",
    it reverts the accounts to the empty journal. *)
Definition rw_RevertAccountState (w : RefWorld) : RefWorld :=
  rw_setJournal [] w.

(** The marshalizer writes a miniblock as its transaction hashes and a
    header as its kind and nonce; the hasher is the identity. *)
Definition rw_marshalMiniBlock (mb : MiniBlock.t) : Error + string :=
  inr (String.concat "," (MiniBlock.TxHashes mb)).

Definition rw_marshalHeader (h : HeaderHandler) : Error + string :=
  match h with
  | HdrNil => inl (ErrCollaborator "nil object")
  | HdrShard s => inr ("shard" +:+ pretty (Header.Nonce s))
  | HdrMeta m => inr ("meta" +:+ pretty (MetaBlock.Nonce m))
  end.

Definition rw_calculateHashHeader (h : HeaderHandler) : Error + Hash :=
  rw_marshalHeader h.

(** Modelled from the spec: [isHdrConstructionValid] of the base
    processor, which is not among the sources.  Construction validity is
    [prevHash == previousVerified.hash], [prevRandSeed ==
    previousVerified.randSeed], [round > previousVerified.round] and
    [nonce > previousVerified.nonce]. *)
Definition rw_isHdrConstructionValid (currHdr prevHdr : HeaderHandler)
  : option Error :=
  if isNilHeader prevHdr || isNilHeader currHdr then Some ErrNilBlockHeader
  else
    match rw_calculateHashHeader prevHdr with
    | inl err => Some err
    | inr prevHeaderHash =>
        if negb (GetRound prevHdr <? GetRound currHdr)
        then Some (ErrCollaborator "lower round in block")
        else if negb (GetNonce prevHdr <? GetNonce currHdr)
        then Some (ErrCollaborator "wrong nonce in block")
        else if negb (String.eqb (GetPrevRandSeed currHdr) (GetRandSeed prevHdr))
        then Some (ErrCollaborator "rand seed does not match")
        else if negb (String.eqb (GetPrevHash currHdr) prevHeaderHash)
        then Some ErrBlockHashDoesNotMatch
        else None
    end.

(** Modelled from the spec: the notarized-headers slice of the base
    processor and its methods, which are not among the sources.  The tail
    is the latest notarized header; the restorer "drops the last notarized
    tuple", the committer appends the processed metablocks and trims. *)
Definition rw_getLastNotarizedHdr (shardId : Z) (w : RefWorld)
  : Error + HeaderHandler :=
  if negb (shardId =? MetachainShardId)
  then inl (ErrCollaborator "no notarized header for shard")
  else match last (rw_notarized w) with
       | None => inl (ErrCollaborator "notarized slice is empty")
       | Some h => inr h
       end.

Definition rw_removeLastNotarized (w : RefWorld) : RefWorld :=
  rw_setNotarized (removelast (rw_notarized w)) w.

Definition rw_saveLastNotarizedHeader (shardId : Z)
           (processedHdrs : list HeaderHandler) (w : RefWorld)
  : option Error * RefWorld :=
  (None, rw_setNotarized (rw_notarized w ++ processedHdrs) w).

Definition rw_removeNotarizedHdrsBehindPreviousFinal (n : Z) (w : RefWorld)
  : RefWorld :=
  rw_setNotarized
    (drop (length (rw_notarized w) - Z.to_nat n) (rw_notarized w)) w.

Definition rw_checkForNils (c : ChainHandler) (h : HeaderHandler)
           (b : BodyHandler) : option Error :=
  match c with
  | ChainNil => Some ErrNilBlockChain
  | Chain =>
      if isNilHeader h then Some ErrNilBlockHeader
      else if isNilBody b then Some ErrNilBlockBody
      else None
  end.

(** Storage keys carry the name of their unit. *)
Definition rw_unitName (u : StorageUnit) : string :=
  match u with
  | BlockHeaderUnit => "hdr/"
  | MiniBlockUnit => "mb/"
  | MetaBlockUnit => "meta/"
  | MetaHdrNonceHashDataUnit => "metanonce/"
  | ShardHdrNonceHashDataUnit s => "shardnonce" +:+ pretty s +:+ "/"
  end.

Definition rw_storeGet (u : StorageUnit) (k : string) (w : RefWorld)
  : Error + string :=
  match rw_store w !! (rw_unitName u +:+ k) with
  | None => inl (ErrCollaborator "key not found")
  | Some v => inr v
  end.

Definition rw_storePut (u : StorageUnit) (k v : string) (w : RefWorld)
  : option Error * RefWorld :=
  (None, rw_setStore (<[rw_unitName u +:+ k := v]> (rw_store w)) w).

Definition rw_storeRemove (u : StorageUnit) (k : string) (w : RefWorld)
  : option Error * RefWorld :=
  (None, rw_setStore (delete (rw_unitName u +:+ k) (rw_store w)) w).

(** Modelled from the spec: [GetMiniBlockHeadersWithDst] of [MetaBlock]
    and of [Header], [MapMiniBlockHashesToShards], [ItemsInBody] and
    [ItemsInHeader], methods of package data/block, which is not among the
    sources.  A cross-shard miniblock for shard [destId] is "one whose
    [receiverShard == self] and [senderShard ≠ self]". *)
Definition rw_metaMiniBlockHeadersWithDst (m : MetaBlock.t) (destId : Z)
  : gmap string Z :=
  list_to_map
    (omap (λ h, if (ShardMiniBlockHeader.ReceiverShardID h =? destId)
                   && negb (ShardMiniBlockHeader.SenderShardID h =? destId)
                then Some (ShardMiniBlockHeader.Hash h,
                           ShardMiniBlockHeader.SenderShardID h)
                else None)
          (mbind ShardData.ShardMiniBlockHeaders (MetaBlock.ShardInfo m))).

Definition rw_hdrMiniBlockHeadersWithDst (h : Header.t) (destId : Z)
  : gmap string Z :=
  list_to_map
    (omap (λ h, if (MiniBlockHeader.ReceiverShardID h =? destId)
                   && negb (MiniBlockHeader.SenderShardID h =? destId)
                then Some (MiniBlockHeader.Hash h, MiniBlockHeader.SenderShardID h)
                else None)
          (Header.MiniBlockHeaders h)).

Definition rw_mapMiniBlockHashesToShards (h : Header.t) : gmap string Z :=
  list_to_map
    ((λ h, (MiniBlockHeader.Hash h, MiniBlockHeader.SenderShardID h))
       <$> Header.MiniBlockHeaders h).

(** The metablocks the reference marshalizer can decode. *)
Definition rw_unmarshalMetaBlock (known : list MetaBlock.t) (buff : string)
  : Error + MetaBlock.t :=
  match list_find (λ m, rw_marshalHeader (HdrMeta m) = inr buff) known with
  | Some (_, m) => inr m
  | None => inl (ErrCollaborator "cannot unmarshal")
  end.

Definition rw_selfId : Z := 1.

(** The transaction coordinator: applying a body leaves one pending
    mutation per miniblock. *)
Definition rw_rootAfter (mb : MiniBlock.t) : Hash :=
  "root/" +:+ String.concat "," (MiniBlock.TxHashes mb).

Definition rw_processBlockTransaction (body : Body) (round : Z)
           (haveTime : RefWorld → Z * RefWorld) (w : RefWorld)
  : option Error * RefWorld :=
  (None, rw_setJournal (rw_journal w ++ (rw_rootAfter <$> body)) w).

(** Building cross-shard miniblocks: one miniblock with one transaction
    for each miniblock header of the metablock that is not processed yet,
    as many as the two budgets allow. *)
Definition rw_createMbsDstMe (hdr : MetaBlock.t)
           (processedMiniBlocksHashes : option (gset string))
           (maxTxSpaceRemained maxMbSpaceRemained round : Z)
           (haveTime : RefWorld → bool * RefWorld) (w : RefWorld)
  : (list MiniBlock.t * Z * bool) * RefWorld :=
  let candidates :=
    filter (λ e : string * Z, e.1 ∉ default ∅ processedMiniBlocksHashes)
           (map_to_list (rw_metaMiniBlockHeadersWithDst hdr rw_selfId)) in
  let taken :=
    take (Z.to_nat (Z.min maxTxSpaceRemained maxMbSpaceRemained)) candidates in
  let miniBlocks :=
    (λ e : string * Z, MiniBlock.mk [e.1] rw_selfId e.2 TxBlock) <$> taken in
  ((miniBlocks, Z.of_nat (length taken),
    (length taken =? length candidates)%nat),
   rw_setJournal (rw_journal w ++ (rw_rootAfter <$> miniBlocks)) w).

Definition rw_getMetaHeaderFromPool (hash : Hash) (w : RefWorld)
  : Error + MetaBlock.t :=
  match rw_metaBlocks w !! hash with
  | None => inl (ErrCollaborator "missing header")
  | Some m => inr m
  end.

Definition rw_getMetaHeaderFromPoolWithNonce (nonce : Z) (w : RefWorld)
  : Error + (MetaBlock.t * Hash) :=
  match rw_headersNonces w !! (nonce, MetachainShardId) with
  | None => inl (ErrCollaborator "missing header")
  | Some hash =>
      match rw_metaBlocks w !! hash with
      | None => inl (ErrCollaborator "missing header")
      | Some m => inr (m, hash)
      end
  end.

(** The notifications that arrive during a wait: all the pending ones if
    there is time left, none otherwise. *)
Definition rw_deliveriesWhileWaiting (d : Z) (w : RefWorld)
  : list Hash * RefWorld :=
  if 0 <? d then (rw_arrivals w, rw_setArrivals [] w) else ([], w).

Definition refEnv (maxMiniBlocksInBlock : Z) (known : list MetaBlock.t)
  : Collaborators RefWorld :=
  {| MaxMiniBlocksInBlock := maxMiniBlocksInBlock;
     SelfId := rw_selfId;
     NumberOfShards := 2;
     acc_JournalLen := λ w, Z.of_nat (length (rw_journal w));
     acc_Commit := rw_commit;
     checkForNils := rw_checkForNils;
     checkBlockValidity := λ c h b _, rw_checkForNils c h b;
     isHdrConstructionValid := rw_isHdrConstructionValid;
     getLastNotarizedHdr := rw_getLastNotarizedHdr;
     removeLastNotarized := rw_removeLastNotarized;
     saveLastNotarizedHeader := rw_saveLastNotarizedHeader;
     removeNotarizedHdrsBehindPreviousFinal :=
       rw_removeNotarizedHdrsBehindPreviousFinal;
     RevertAccountState := rw_RevertAccountState;
     getRootHash := rw_rootHash;
     verifyStateRoot := λ rootHash w, String.eqb (rw_rootHash w) rootHash;
     MarshalMiniBlock := rw_marshalMiniBlock;
     MarshalHeader := rw_marshalHeader;
     UnmarshalMetaBlock := rw_unmarshalMetaBlock known;
     Compute := λ s, s;
     CalculateHashMiniBlock := rw_marshalMiniBlock;
     CalculateHashHeader := rw_calculateHashHeader;
     ToByteSlice := λ n, pretty n;
     store_Get := rw_storeGet;
     store_Put := rw_storePut;
     store_Remove := rw_storeRemove;
     hasMetaBlocksPool := λ _, true;
     hasHeadersNoncesPool := λ _, true;
     metaBlocks_Keys := λ w, (map_to_list (rw_metaBlocks w)).*1;
     metaBlocks_Peek := λ hash w, HdrMeta <$> rw_metaBlocks w !! hash;
     metaBlocks_Put := λ hash m w,
       rw_setMetaBlocks (<[hash := m]> (rw_metaBlocks w)) w;
     metaBlocks_Remove := λ hash w,
       rw_setMetaBlocks (delete hash (rw_metaBlocks w)) w;
     headersNonces_Merge := λ nonce shardId hash w,
       rw_setHeadersNonces (<[(nonce, shardId) := hash]> (rw_headersNonces w)) w;
     headersNonces_Remove := λ nonce shardId w,
       rw_setHeadersNonces (delete (nonce, shardId) (rw_headersNonces w)) w;
     GetMetaHeaderFromPool := rw_getMetaHeaderFromPool;
     GetMetaHeaderFromPoolWithNonce := rw_getMetaHeaderFromPoolWithNonce;
     GetShardHeader := λ _ _, inl (ErrCollaborator "missing header");
     txc_CreateBlockStarted := λ w, w;
     txc_RequestBlockTransactions := λ _ w, w;
     txc_RequestMiniBlocks := λ _ w, w;
     txc_IsDataPreparedForProcessing := λ _ w, (None, w);
     txc_ProcessBlockTransaction := rw_processBlockTransaction;
     txc_VerifyCreatedBlockTransactions := λ _ w, (None, w);
     txc_CreateMbsAndProcessCrossShardTransactionsDstMe := rw_createMbsDstMe;
     txc_SaveBlockDataToStorage := λ _ w, (None, w);
     txc_RestoreBlockDataFromStorage := λ _ w, ((0, None), w);
     txc_RemoveBlockDataFromPool := λ _ w, (None, w);
     sah_SetShardConsensusData := λ _ _ _ _ w, (None, w);
     sah_ClearMetaConsensusData := λ w, w;
     sah_SetMetaConsensusData := λ _ _ _ w, (None, w);
     fd_AddHeader := λ _ _ _ _ w, (None, w);
     fd_GetHighestFinalBlockNonce := λ _, 0;
     chain_SetCurrentBlockBody := λ _ w, (None, w);
     chain_SetCurrentBlockHeader := λ _ w, (None, w);
     chain_SetCurrentBlockHeaderHash := λ _ w, w;
     bst_Add := λ _ _ w, w;
     bst_Succeed := λ _ w, w;
     meta_GetMiniBlockHeadersWithDst := rw_metaMiniBlockHeadersWithDst;
     hdr_GetMiniBlockHeadersWithDst := rw_hdrMiniBlockHeadersWithDst;
     hdr_MapMiniBlockHashesToShards := rw_mapMiniBlockHashesToShards;
     hdr_ItemsInBody := Header.TxCount;
     hdr_ItemsInHeader := λ h,
       Z.of_nat (length (Header.MiniBlockHeaders h)
                 + length (Header.MetaBlockHashes h));
     deliveriesWhileWaiting := rw_deliveriesWhileWaiting |}.

(** ** One cycle as a sequence of atomic events

    Between two calls of [CreateBlockStarted] the driver and the pool's
    notification goroutines interleave; every access to the header table
    is under its mutex, so a run is a sequence of critical sections. *)

(** What other goroutines do: change the collaborators' state (the network
    fills the pools, time passes) or run [receivedMetaBlock]. *)
Inductive PoolEvent (W : Type) : Type :=
| EvWorld (f : W → W)
| EvReceivedMetaBlock (metaBlockHash : Hash).

Arguments EvWorld {W} _.
Arguments EvReceivedMetaBlock {W} _.

(** The same, and what the driver does to the table after
    [requestMetaHeaders]: the reset of the two counters in [ProcessBlock]
    and the selector's loop. *)
Inductive CycleEvent (W : Type) : Type :=
| EvPool (e : PoolEvent W)
| EvResetMissing
| EvSelector (noShards maxItemsInBlock round : Z) (haveTime : W → bool * W).

Arguments EvPool {W} _.
Arguments EvResetMissing {W}.
Arguments EvSelector {W} _ _ _ _.

Section Cycle.

Context {W : Type} (env : Collaborators W).

Definition runPoolEvent (e : PoolEvent W) (sp : shardProcessor W)
  : shardProcessor W :=
  match e with
  | EvWorld f => doWorld f sp
  | EvReceivedMetaBlock hash => receivedMetaBlock env hash sp
  end.

Definition resetMissing (sp : shardProcessor W) : shardProcessor W :=
  setHdrsForCurrBlock
    (setMissingFinalHdrs 0 (setMissingHdrs 0 (hdrsForCurrBlock sp))) sp.

Definition runCycleEvent (e : CycleEvent W) (sp : shardProcessor W)
  : shardProcessor W :=
  match e with
  | EvPool e => runPoolEvent e sp
  | EvResetMissing => resetMissing sp
  | EvSelector noShards maxItemsInBlock round haveTime =>
      (createAndProcessCrossMiniBlocksDstMe env noShards maxItemsInBlock round
         haveTime sp).2
  end.

Definition runPoolEvents (evs : list (PoolEvent W)) (sp : shardProcessor W)
  : shardProcessor W :=
  foldl (λ sp e, runPoolEvent e sp) sp evs.

Definition runCycleEvents (evs : list (CycleEvent W)) (sp : shardProcessor W)
  : shardProcessor W :=
  foldl (λ sp e, runCycleEvent e sp) sp evs.

(** The number of sends on [chRcvAllMetaHdrs] during a run: what each
    event adds to the pending sends. *)
Fixpoint sendsOfCycleEvents (evs : list (CycleEvent W)) (sp : shardProcessor W)
  : nat :=
  match evs with
  | [] => 0
  | e :: rest =>
      (chRcvAllMetaHdrs (runCycleEvent e sp) - chRcvAllMetaHdrs sp
       + sendsOfCycleEvents rest (runCycleEvent e sp))%nat
  end.

Definition sendsOfPoolEvents (evs : list (PoolEvent W)) (sp : shardProcessor W)
  : nat :=
  sendsOfCycleEvents (EvPool <$> evs) sp.

(** Both counters of missing headers are zero. *)
Definition nothingMissing (sp : shardProcessor W) : Prop :=
  missingHdrs (hdrsForCurrBlock sp) = 0 ∧
  missingFinalHdrs (hdrsForCurrBlock sp) = 0.

End Cycle.

(** ** The finality rule in the specification's words *)

Section FinalityRule.

Context {W : Type} (env : Collaborators W).

(** Construction validity of [h] against the last verified header:
    [prevHash == hash(lastVerified)], [prevRandSeed == lastVerified.randSeed],
    [round > lastVerified.round] and [nonce > lastVerified.nonce]. *)
Definition constructionValid (h lastVerified : HeaderHandler) : Prop :=
  CalculateHashHeader env lastVerified = inr (GetPrevHash h) ∧
  GetPrevRandSeed h = GetRandSeed lastVerified ∧
  GetRound lastVerified < GetRound h ∧
  GetNonce lastVerified < GetNonce h.

Global Instance constructionValid_dec h lastVerified :
  Decision (constructionValid h lastVerified).
Proof. unfold constructionValid. apply _. Defined.

(** Scanning the successors in order and advancing the last verified
    header, the number of those with the next nonce that pass construction
    validity. *)
Fixpoint countVerifiedSuccessors (lastVerified : HeaderHandler)
         (successors : list HeaderHandler) : Z :=
  match successors with
  | [] => 0
  | h :: rest =>
      if bool_decide (GetNonce h = GetNonce lastVerified + 1
                      ∧ constructionValid h lastVerified)
      then 1 + countVerifiedSuccessors h rest
      else countVerifiedSuccessors lastVerified rest
  end.

Definition finalPerRule (K : Z) (H : HeaderHandler)
           (successors : list HeaderHandler) : Prop :=
  K ≤ countVerifiedSuccessors H successors.

(** The base processor's validity check implements construction validity
    on headers that are not nil. *)
Definition implementsConstructionValidity : Prop :=
  ∀ h lastVerified,
    h ≠ HdrNil → lastVerified ≠ HdrNil →
    (isHdrConstructionValid env h lastVerified = None
     ↔ constructionValid h lastVerified).

(** A nonce that fits its [uint64] field. *)
Definition nonceInRange (h : HeaderHandler) : Prop :=
  0 ≤ GetNonce h < 2 ^ 64.

(** A header that is not nil and whose nonce fits its field. *)
Definition properHeader (h : HeaderHandler) : Prop :=
  h ≠ HdrNil ∧ nonceInRange h.

End FinalityRule.

(** ** A reference scenario

    The last notarized metablock has nonce 9.  Metablock 10 carries two
    miniblocks from shard 0 to the self shard 1, metablock 11 is built on
    it.  The shard block of nonce 5 contains both miniblocks and
    references metablock 10. *)

Definition refM9 : MetaBlock.t := MetaBlock.mk 9 9 0 "meta8" "r8" "r9" [].

Definition refM10 : MetaBlock.t :=
  MetaBlock.mk 10 10 0 "meta9" "r9" "r10"
    [ ShardData.mk 0 "shard0/7"
        [ ShardMiniBlockHeader.mk "mb1" 1 0 1;
          ShardMiniBlockHeader.mk "mb2" 1 0 1 ] ].

Definition refM11 : MetaBlock.t := MetaBlock.mk 11 11 0 "meta10" "r10" "r11" [].

Definition refMb1 : MiniBlock.t := MiniBlock.mk ["mb1"] 1 0 TxBlock.
Definition refMb2 : MiniBlock.t := MiniBlock.mk ["mb2"] 1 0 TxBlock.

Definition refBody : Body := [refMb1; refMb2].

Definition refHeader : Header.t :=
  Header.mk 5 11 0 1 "shard4" "s4" "s5" "root/mb2" 2
    [ MiniBlockHeader.mk "mb1" 0 1 1 TxBlock;
      MiniBlockHeader.mk "mb2" 0 1 1 TxBlock ]
    [ "meta10" ].

(** The same block with its miniblock headers swapped and of another
    type. *)
Definition refSwappedHeader : Header.t :=
  Header.mk 5 11 0 1 "shard4" "s4" "s5" "root/mb2" 2
    [ MiniBlockHeader.mk "mb2" 0 1 1 RewardsBlock;
      MiniBlockHeader.mk "mb1" 0 1 1 RewardsBlock ]
    [ "meta10" ].

(** The same block with a root hash the accounts will not reach. *)
Definition refWrongRootHeader : Header.t :=
  Header.mk 5 11 0 1 "shard4" "s4" "s5" "root/other" 2
    [ MiniBlockHeader.mk "mb1" 0 1 1 TxBlock;
      MiniBlockHeader.mk "mb2" 0 1 1 TxBlock ]
    [ "meta10" ].

Definition refCollaborators : Collaborators RefWorld :=
  refEnv 100 [refM9; refM10; refM11].

Definition refWorld : RefWorld :=
  mkRefWorld "root0" [] [HdrMeta refM9]
    (<["meta10" := refM10]> (<["meta11" := refM11]> ∅))
    (<[(10, MetachainShardId) := "meta10"]>
       (<[(11, MetachainShardId) := "meta11"]> ∅))
    ∅ [].

Definition refProcessor : shardProcessor RefWorld :=
  mkShardProcessor refWorld 1 0 (mkHdrForBlock 0 0 ∅) 0 ∅.

(** A [haveTime] that always reports the same remaining duration. *)
Definition remainingAlways {W : Type} (d : Z) : W → Z * W := λ w, (d, w).

(** A [haveTime] of the builder that always says yes. *)
Definition timeAlways {W : Type} : W → bool * W := λ w, (true, w).

(** The block of the scenario validated, then committed, then restored. *)
Definition refProcessed : shardProcessor RefWorld :=
  (ProcessBlock refCollaborators Chain (HdrShard refHeader) (BodyShard refBody)
     (Some (remainingAlways 0)) refProcessor).2.

Definition refCommitted : shardProcessor RefWorld :=
  (CommitBlock refCollaborators Chain (HdrShard refHeader) (BodyShard refBody)
     refProcessed).2.

Definition refRestored : shardProcessor RefWorld :=
  (RestoreBlockIntoPools refCollaborators (HdrShard refHeader)
     (BodyShard refBody) refCommitted).2.

(** The selector's locals at the start of its loop, and the candidates it
    finds in the pool. *)
Definition refSelectorStart : selectorState :=
  mkSelectorState [] 0 0 (HdrMeta refM9) refProcessor.

Definition refOrdered : list hashAndHdr :=
  [ mkHashAndHdr (HdrMeta refM10) "meta10";
    mkHashAndHdr (HdrMeta refM11) "meta11" ].

(** The scenario with metablock 10 still on its way: the pool holds
    metablock 11 only. *)
Definition refWorldMissing : RefWorld :=
  mkRefWorld "root0" [] [HdrMeta refM9]
    (<["meta11" := refM11]> ∅)
    (<[(11, MetachainShardId) := "meta11"]> ∅)
    ∅ [].

Definition refProcessorMissing : shardProcessor RefWorld :=
  mkShardProcessor refWorldMissing 1 0 (mkHdrForBlock 0 0 ∅) 0 ∅.

(** The network puts metablock 10 into the pool; its notification runs,
    then the one of metablock 11; the driver resets the counters; a late
    notification for metablock 10 runs. *)
Definition refArrivals : list (CycleEvent RefWorld) :=
  [ EvPool (EvWorld (λ w,
      headersNonces_Merge refCollaborators 10 MetachainShardId "meta10"
        (metaBlocks_Put refCollaborators "meta10" refM10 w)));
    EvPool (EvReceivedMetaBlock "meta10");
    EvPool (EvReceivedMetaBlock "meta11");
    EvResetMissing;
    EvPool (EvReceivedMetaBlock "meta10") ].

(** ** Predicates used in the statements *)

Section Predicates.

Context {W : Type} (env : Collaborators W).

(** The ledger holds, under every metablock the block references, the
    cross-shard miniblocks of the block. *)
Definition ledgerHoldsBlock (header : Header.t) (sp : shardProcessor W) : Prop :=
  ∀ metaBlockHash miniBlockHash,
    metaBlockHash ∈ Header.MetaBlockHashes header →
    is_Some (hdr_GetMiniBlockHeadersWithDst env header (SelfId env)
             !! miniBlockHash) →
    isMiniBlockProcessed metaBlockHash miniBlockHash sp = true.

(** Two states with the same counters of missing headers and the same
    pending sends. *)
Definition sameSignalState (sp sp' : shardProcessor W) : Prop :=
  missingHdrs (hdrsForCurrBlock sp') = missingHdrs (hdrsForCurrBlock sp)
  ∧ missingFinalHdrs (hdrsForCurrBlock sp')
    = missingFinalHdrs (hdrsForCurrBlock sp)
  ∧ chRcvAllMetaHdrs sp' = chRcvAllMetaHdrs sp.

(** No entry of the table waits for its header. *)
Definition tableAllPresent (sp : shardProcessor W) : Prop :=
  ∀ k info, hdrHashAndInfo (hdrsForCurrBlock sp) !! k = Some info →
            isNilHeader (hdr info) = false.

(** No final header is missing and no entry waits for its header: a
    notification then changes nothing the signal depends on. *)
Definition quiet (sp : shardProcessor W) : Prop :=
  missingFinalHdrs (hdrsForCurrBlock sp) = 0 ∧ tableAllPresent sp.

End Predicates.

(** ** Building a block body and broadcasting

    [CreateBlockBody], [createMiniBlocks] and [MarshalizedDataToBroadcast]
    return two errors of package [process] that the rest of the processor
    never returns; [ErrProcess] carries the others. *)

Inductive BuildError : Type :=
| ErrNilTransactionPool
| ErrNilMiniBlocks
| ErrProcess (err : Error).

(** What the builder and the broadcaster reach beside [Collaborators]:
    the transactions pool, the block size throttler, and the transaction
    coordinator's and the marshalizer's methods on whole bodies. *)
Record BuilderCollaborators (W : Type) : Type := mkBuilderCollaborators {
  hasTransactionsPool : W → bool;
  bst_ComputeMaxItems : W → W;
  bst_MaxItemsToAdd : W → Z;
  txc_CreateMbsAndProcessTransactionsFromMe :
    Z → Z → Z → (W → bool * W) → W → list MiniBlock.t * W;
  txc_CreateMarshalizedData :
    Body → W → gmap Z Body * gmap string (list string);
  MarshalBody : Body → Error + string
}.

Arguments hasTransactionsPool {W} _ _.
Arguments bst_ComputeMaxItems {W} _ _.
Arguments bst_MaxItemsToAdd {W} _ _.
Arguments txc_CreateMbsAndProcessTransactionsFromMe {W} _ _ _ _ _ _.
Arguments txc_CreateMarshalizedData {W} _ _ _.
Arguments MarshalBody {W} _ _.

Section Builder.

Context {W : Type} (env : Collaborators W) (benv : BuilderCollaborators W).

(** An error of the selector and an error of
    [getProcessedMetaBlocksFromMiniBlocks] are logged only; the selector
    has then returned no miniblock. *)
Definition createMiniBlocks (noShards maxItemsInBlock round : Z)
           (haveTime : W → bool * W) (sp : shardProcessor W)
  : (BuildError + Body) * shardProcessor W :=
  if negb (acc_JournalLen env (world sp) =? 0)
  then (inl (ErrProcess ErrAccountStateDirty), sp)
  else
    let '(t, sp1) := onWorld haveTime sp in
    if negb t then (inl (ErrProcess ErrTimeIsOut), sp1)
    else if negb (hasTransactionsPool benv (world sp1))
    then (inl ErrNilTransactionPool, sp1)
    else
      let '(r, sp2) :=
        createAndProcessCrossMiniBlocksDstMe env noShards maxItemsInBlock round
          haveTime sp1 in
      let '(destMeMiniBlocks, txs, hdrs) :=
        match r with
        | inl _ => ([], 0, 0)
        | inr x => x
        end in
      let processedMetaHdrs :=
        match getProcessedMetaBlocksFromMiniBlocks env destMeMiniBlocks sp2 with
        | inl _ => []
        | inr l => l
        end in
      let '(err, sp3) := setMetaConsensusData env processedMetaHdrs sp2 in
      match err with
      | Some err => (inl (ErrProcess err), sp3)
      | None =>
          let miniBlocks := destMeMiniBlocks in
          let maxTxSpaceRemained :=
            int32 (int32 maxItemsInBlock - int32 txs) in
          let maxMbSpaceRemained :=
            getMaxMiniBlocksSpaceRemained env maxItemsInBlock
              (uint32 (uint32 (Z.of_nat (length destMeMiniBlocks)) + hdrs))
              (uint32 (Z.of_nat (length miniBlocks))) in
          if (0 <? maxTxSpaceRemained) && (0 <? maxMbSpaceRemained) then
            let '(mbFromMe, sp4) :=
              onWorld (txc_CreateMbsAndProcessTransactionsFromMe benv
                         (uint32 maxTxSpaceRemained) (uint32 maxMbSpaceRemained)
                         round haveTime) sp3 in
            (inr (miniBlocks ++ mbFromMe), sp4)
          else (inr miniBlocks, sp3)
      end.

(** The result is [BodyNil] together with the error, or the body. *)
Definition CreateBlockBody (round : Z) (haveTime : W → bool * W)
           (sp : shardProcessor W)
  : (BodyHandler * option BuildError) * shardProcessor W :=
  let sp := CreateBlockStarted env sp in
  let sp := doWorld (bst_ComputeMaxItems benv) sp in
  match createMiniBlocks (NumberOfShards env)
          (bst_MaxItemsToAdd benv (world sp)) round haveTime sp with
  | (inl err, sp') => ((BodyNil, Some err), sp')
  | (inr miniBlocks, sp') => ((BodyShard miniBlocks, None), sp')
  end.

(** A shard whose body cannot be marshalled is left out of the result. *)
Definition MarshalizedDataToBroadcast (header : HeaderHandler)
           (bodyHandler : BodyHandler) (sp : shardProcessor W)
  : BuildError + gmap Z string * gmap string (list string) :=
  if isNilBody bodyHandler then inl ErrNilMiniBlocks
  else
    match bodyHandler with
    | BodyShard body =>
        let '(bodies, mrsTxs) := txc_CreateMarshalizedData benv body (world sp) in
        let mrsData :=
          foldl (λ (mrsData : gmap Z string) (e : Z * Body),
                   match MarshalBody benv e.2 with
                   | inl _ => mrsData
                   | inr buff => <[e.1 := buff]> mrsData
                   end)
                ∅ (map_to_list bodies) in
        inr (mrsData, mrsTxs)
    | _ => inl (ErrProcess ErrWrongTypeAssertion)
    end.

End Builder.

Section BuilderPredicates.

Context {W : Type}.

(** Every entry of the table is a metablock that is present and marked as
    used. *)
Definition tableAllUsed (sp : shardProcessor W) : Prop :=
  ∀ hash info, hdrHashAndInfo (hdrsForCurrBlock sp) !! hash = Some info →
               ∃ m, info = mkHdrInfo true (HdrMeta m).

End BuilderPredicates.

(** ** More predicates used in the statements *)

(** The nonce of the header the table holds under [hash]. *)
Definition nonceOfHash {W} (sp : shardProcessor W) (hash : Hash) : Z :=
  match hdrHashAndInfo (hdrsForCurrBlock sp) !! hash with
  | Some info => GetNonce (hdr info)
  | None => 0
  end.

(** The header the [i]-th used metablock is checked against by
    [checkMetaHeadersValidityAndFinality]: the last notarized header for
    the first one, its predecessor in the list for the others. *)
Definition checkedAgainst (lastNotarized : HeaderHandler)
           (usedMetaHdrs : list MetaBlock.t) (i : nat) : HeaderHandler :=
  match i with
  | O => lastNotarized
  | S j => from_option HdrMeta lastNotarized (usedMetaHdrs !! j)
  end.

(** The three tests [getOrderedMetaBlocks] and
    [getAllMiniBlockDstMeFromMeta] make on a metablock: its round is not
    above [round], and its round and nonce are above those of the last
    notarized header. *)
Definition inWindow (round : Z) (lastHdr : HeaderHandler) (m : MetaBlock.t)
  : Prop :=
  MetaBlock.Round m ≤ round
  ∧ GetRound lastHdr < MetaBlock.Round m
  ∧ GetNonce lastHdr < MetaBlock.Nonce m.

Section MorePredicates.

Context {W : Type} (env : Collaborators W).

(** [process.GetMetaHeaderFromPool] fails on [hash]. *)
Definition poolLacks (w : W) (hash : Hash) : bool :=
  match GetMetaHeaderFromPool env hash w with
  | inl _ => true
  | inr _ => false
  end.

(** Two states with the same processed-miniblocks ledger and the same
    finality parameter. *)
Definition sameLedger (sp sp' : shardProcessor W) : Prop :=
  processedMiniBlocks sp' = processedMiniBlocks sp
  ∧ metaBlockFinality sp' = metaBlockFinality sp.

End MorePredicates.

Section HashingContract.

Context {W : Type} (env : Collaborators W).

(** [core.CalculateHash], which is not among the sources, marshals its
    argument and hashes the bytes with the same marshalizer and hasher the
    correlation check uses. *)
Definition calculateHashIsMarshalThenCompute : Prop :=
  ∀ mb, CalculateHashMiniBlock env mb
        = match MarshalMiniBlock env mb with
          | inl err => inl err
          | inr mbBytes => inr (Compute env mbBytes)
          end.

(** No two different miniblocks of the body have the same hash. *)
Definition collisionFree (body : Body) : Prop :=
  ∀ mb1 mb2 b1 b2,
    mb1 ∈ body → mb2 ∈ body →
    MarshalMiniBlock env mb1 = inr b1 → MarshalMiniBlock env mb2 = inr b2 →
    Compute env b1 = Compute env b2 → mb1 = mb2.

End HashingContract.

Section FramePredicates.

Context {W : Type}.

(** Only the collaborators' state differs between the two states. *)
Definition onlyWorldDiffers (sp sp' : shardProcessor W) : Prop :=
  sp' = setWorld (world sp') sp.

(** Two states with the same header table and counters, the same pending
    sends, the same highest nonce and the same finality parameter. *)
Definition sameTable (sp sp' : shardProcessor W) : Prop :=
  hdrsForCurrBlock sp' = hdrsForCurrBlock sp
  ∧ chRcvAllMetaHdrs sp' = chRcvAllMetaHdrs sp
  ∧ currHighestMetaHdrNonce sp' = currHighestMetaHdrNonce sp
  ∧ metaBlockFinality sp' = metaBlockFinality sp.

End FramePredicates.

Section ProcessedPredicates.

Context {W : Type} (env : Collaborators W).

(** The ledger lists the miniblock under a used metablock of the table. *)
Definition alreadyProcessed (sp : shardProcessor W) (miniBlockHash : Hash)
  : Prop :=
  ∃ metaBlockHash metaBlock,
    hdrHashAndInfo (hdrsForCurrBlock sp) !! metaBlockHash
    = Some (mkHdrInfo true (HdrMeta metaBlock))
    ∧ isMiniBlockProcessed metaBlockHash miniBlockHash sp = true.

(** What makes [getProcessedMetaBlocksFromMiniBlockHashes] mark a
    miniblock hash as processed: it is one of the hashes it was given, or
    the ledger lists it already. *)
Definition countsAsProcessed (miniBlockHashes : gmap nat string)
           (sp : shardProcessor W) (miniBlockHash : Hash) : Prop :=
  (∃ i, miniBlockHashes !! i = Some miniBlockHash)
  ∨ alreadyProcessed sp miniBlockHash.

(** The invariant of the loop of
    [getProcessedMetaBlocksFromMiniBlockHashes] on its three variables. *)
Definition processedInvariant (miniBlockHashes : gmap nat string)
           (sp : shardProcessor W)
           (acc : list HeaderHandler * gmap string bool * gmap nat string)
  : Prop :=
  (∀ b, acc.1.2 !! b = Some true → countsAsProcessed miniBlockHashes sp b)
  ∧ (∀ i b, acc.2 !! i = Some b → miniBlockHashes !! i = Some b)
  ∧ (∀ h, h ∈ acc.1.1 →
          ∃ metaBlockHash metaBlock,
            h = HdrMeta metaBlock
            ∧ hdrHashAndInfo (hdrsForCurrBlock sp) !! metaBlockHash
              = Some (mkHdrInfo true (HdrMeta metaBlock))
            ∧ ∀ b, is_Some (meta_GetMiniBlockHeadersWithDst env metaBlock
                              (SelfId env) !! b) →
                   countsAsProcessed miniBlockHashes sp b).

End ProcessedPredicates.

(** ** More of the reference scenario *)

(** The scenario with metablock 10 on its way, after the requests: the
    table waits for metablock 10, which has just entered the pool. *)
Definition refAwaiting : shardProcessor RefWorld :=
  doWorld (λ w,
             headersNonces_Merge refCollaborators 10 MetachainShardId "meta10"
               (metaBlocks_Put refCollaborators "meta10" refM10 w))
    (requestMetaHeaders refCollaborators refHeader
       (CreateBlockStarted refCollaborators refProcessorMissing)).2.

(** The header [CreateBlockHeader] builds for the body of the scenario. *)
Definition refCreatedHeader : Header.t :=
  Header.mk 0 0 0 1 noBytes noBytes noBytes "root0" 2
    [ MiniBlockHeader.mk "mb1" 0 1 1 TxBlock;
      MiniBlockHeader.mk "mb2" 0 1 1 TxBlock ]
    [].

(** A reference builder: the coordinator has no transaction of the self
    shard to add, a body is split by receiver shard, and a body is
    marshalled as its miniblocks. *)
Definition refBuilder : BuilderCollaborators RefWorld :=
  {| hasTransactionsPool := λ _, true;
     bst_ComputeMaxItems := λ w, w;
     bst_MaxItemsToAdd := λ _, 1000;
     txc_CreateMbsAndProcessTransactionsFromMe := λ _ _ _ _ w, ([], w);
     txc_CreateMarshalizedData := λ body _,
       (list_to_map ((λ mb, (MiniBlock.ReceiverShardID mb, [mb])) <$> body), ∅);
     MarshalBody := λ body,
       inr (String.concat ";"
              ((λ mb, String.concat "," (MiniBlock.TxHashes mb)) <$> body)) |}.

(** ** The pools, the store and the notarized slice as data

    [CommitBlock] and [RestoreBlockIntoPools] move metablocks between the
    metablock pool and the store, index them by nonce in the headers-nonces
    pool, and push and pop the notarized slice.  The pool is read with
    [metaBlocks_Peek] and the store with [store_Get]; the headers-nonces
    pool and the notarized slice of the metachain have no query among the
    capabilities, so a view gives their contents. *)

Record DataView (W : Type) : Type := mkDataView {
  notarizedHdrs : W → list HeaderHandler;
  headersNonces : W → gmap (Z * Z) Hash
}.

Arguments mkDataView {W} _ _.
Arguments notarizedHdrs {W} _ _.
Arguments headersNonces {W} _ _.

Section DataContract.

Context {W : Type} (env : Collaborators W) (view : DataView W).

Definition samePool (w w' : W) : Prop :=
  ∀ hash, metaBlocks_Peek env hash w' = metaBlocks_Peek env hash w.

Definition sameMetaBlockUnit (w w' : W) : Prop :=
  ∀ key, store_Get env MetaBlockUnit key w' = store_Get env MetaBlockUnit key w.

Definition sameNonces (w w' : W) : Prop :=
  headersNonces view w' = headersNonces view w.

Definition sameNotarized (w w' : W) : Prop :=
  notarizedHdrs view w' = notarizedHdrs view w.

(** The metablock pool, the metablock unit of the store and the
    headers-nonces pool are the same in both states. *)
Definition samePools (w w' : W) : Prop :=
  samePool w w' ∧ sameMetaBlockUnit w w' ∧ sameNonces w w'.

Definition sameData (w w' : W) : Prop :=
  samePools w w' ∧ sameNotarized w w'.

(** What the processor relies on from the collaborators that are not among
    the sources.  The pools and the store behave as maps: a [Put], [Merge]
    or [Remove] changes the key it names and no other; a [Put] into the
    store that reports an error leaves its key as it was.
    [removeLastNotarized] "drops the last notarized tuple"; the other two
    methods on the notarized slice touch nothing else.  The accounts, the
    transaction coordinator, the fork detector, the chain handler and the
    throttler leave the metablock pool, the headers-nonces pool, the
    metablock unit of the store and the notarized slice alone. *)
Record dataContract : Prop := mkDataContract {
  dc_acc_Commit : ∀ w, sameData w (acc_Commit env w).2;
  dc_txc_SaveBlockDataToStorage :
    ∀ body w, sameData w (txc_SaveBlockDataToStorage env body w).2;
  dc_txc_RestoreBlockDataFromStorage :
    ∀ body w, sameData w (txc_RestoreBlockDataFromStorage env body w).2;
  dc_txc_RemoveBlockDataFromPool :
    ∀ body w, sameData w (txc_RemoveBlockDataFromPool env body w).2;
  dc_fd_AddHeader :
    ∀ header hash finalHeaders finalHeadersHashes w,
      sameData w (fd_AddHeader env header hash finalHeaders
                    finalHeadersHashes w).2;
  dc_chain_SetCurrentBlockBody :
    ∀ body w, sameData w (chain_SetCurrentBlockBody env body w).2;
  dc_chain_SetCurrentBlockHeader :
    ∀ header w, sameData w (chain_SetCurrentBlockHeader env header w).2;
  dc_chain_SetCurrentBlockHeaderHash :
    ∀ hash w, sameData w (chain_SetCurrentBlockHeaderHash env hash w);
  dc_bst_Succeed : ∀ round w, sameData w (bst_Succeed env round w);
  dc_saveLastNotarizedHeader :
    ∀ shardId hdrs w,
      samePools w (saveLastNotarizedHeader env shardId hdrs w).2;
  dc_removeNotarizedHdrsBehindPreviousFinal :
    ∀ n w, samePools w (removeNotarizedHdrsBehindPreviousFinal env n w);
  dc_removeLastNotarized :
    ∀ w, samePools w (removeLastNotarized env w)
         ∧ notarizedHdrs view (removeLastNotarized env w)
           = removelast (notarizedHdrs view w);
  dc_store_Put :
    ∀ unit key value w,
      samePool w (store_Put env unit key value w).2
      ∧ sameNonces w (store_Put env unit key value w).2
      ∧ sameNotarized w (store_Put env unit key value w).2
      ∧ (∀ key', unit ≠ MetaBlockUnit ∨ key' ≠ key →
                 store_Get env MetaBlockUnit key'
                   (store_Put env unit key value w).2
                 = store_Get env MetaBlockUnit key' w)
      ∧ (unit = MetaBlockUnit →
         store_Get env MetaBlockUnit key (store_Put env unit key value w).2
         = match (store_Put env unit key value w).1 with
           | None => inr value
           | Some _ => store_Get env MetaBlockUnit key w
           end);
  dc_store_Remove :
    ∀ unit key w,
      samePool w (store_Remove env unit key w).2
      ∧ sameNonces w (store_Remove env unit key w).2
      ∧ sameNotarized w (store_Remove env unit key w).2
      ∧ (∀ key', unit ≠ MetaBlockUnit ∨ key' ≠ key →
                 store_Get env MetaBlockUnit key' (store_Remove env unit key w).2
                 = store_Get env MetaBlockUnit key' w)
      ∧ (unit = MetaBlockUnit →
         ∃ err, store_Get env MetaBlockUnit key (store_Remove env unit key w).2
                = inl err);
  dc_metaBlocks_Put :
    ∀ hash metaBlock w,
      metaBlocks_Peek env hash (metaBlocks_Put env hash metaBlock w)
      = Some (HdrMeta metaBlock)
      ∧ (∀ hash', hash' ≠ hash →
                  metaBlocks_Peek env hash' (metaBlocks_Put env hash metaBlock w)
                  = metaBlocks_Peek env hash' w)
      ∧ sameMetaBlockUnit w (metaBlocks_Put env hash metaBlock w)
      ∧ sameNonces w (metaBlocks_Put env hash metaBlock w)
      ∧ sameNotarized w (metaBlocks_Put env hash metaBlock w);
  dc_metaBlocks_Remove :
    ∀ hash w,
      metaBlocks_Peek env hash (metaBlocks_Remove env hash w) = None
      ∧ (∀ hash', hash' ≠ hash →
                  metaBlocks_Peek env hash' (metaBlocks_Remove env hash w)
                  = metaBlocks_Peek env hash' w)
      ∧ sameMetaBlockUnit w (metaBlocks_Remove env hash w)
      ∧ sameNonces w (metaBlocks_Remove env hash w)
      ∧ sameNotarized w (metaBlocks_Remove env hash w);
  dc_headersNonces_Merge :
    ∀ nonce shardId hash w,
      headersNonces view (headersNonces_Merge env nonce shardId hash w)
      = <[(nonce, shardId) := hash]> (headersNonces view w)
      ∧ samePool w (headersNonces_Merge env nonce shardId hash w)
      ∧ sameMetaBlockUnit w (headersNonces_Merge env nonce shardId hash w)
      ∧ sameNotarized w (headersNonces_Merge env nonce shardId hash w);
  dc_headersNonces_Remove :
    ∀ nonce shardId w,
      headersNonces view (headersNonces_Remove env nonce shardId w)
      = delete (nonce, shardId) (headersNonces view w)
      ∧ samePool w (headersNonces_Remove env nonce shardId w)
      ∧ sameMetaBlockUnit w (headersNonces_Remove env nonce shardId w)
      ∧ sameNotarized w (headersNonces_Remove env nonce shardId w)
}.

(** The metablock that [restoreMetaBlockIntoPool] finds in the store under
    [hash], if any. *)
Definition storedMetaBlock (w : W) (hash : Hash) : option MetaBlock.t :=
  match store_Get env MetaBlockUnit hash w with
  | inl _ => None
  | inr buff =>
      match UnmarshalMetaBlock env buff with
      | inl _ => None
      | inr metaBlock => Some metaBlock
      end
  end.

(** [miniBlockHash] is a miniblock for the self shard of the metablock
    stored under [hash]. *)
Definition storedMiniBlock (w : W) (hash miniBlockHash : Hash) : bool :=
  match storedMetaBlock w hash with
  | None => false
  | Some metaBlock =>
      bool_decide (is_Some (meta_GetMiniBlockHeadersWithDst env metaBlock
                              (SelfId env) !! miniBlockHash))
  end.

(** The state in which a validated block is committed: every metablock
    that the header table marks as used is in the metablock pool under the
    table's key, which is the hash of its encoding, an encoding that the
    marshalizer decodes; the headers-nonces pool indexes it by its nonce;
    and the block's header references it. *)
Definition tracksPool (header : Header.t) (sp : shardProcessor W) : Prop :=
  ∀ hash metaBlock,
    hdrHashAndInfo (hdrsForCurrBlock sp) !! hash
    = Some (mkHdrInfo true (HdrMeta metaBlock)) →
    (∃ buff, MarshalHeader env (HdrMeta metaBlock) = inr buff
             ∧ Compute env buff = hash
             ∧ UnmarshalMetaBlock env buff = inr metaBlock)
    ∧ metaBlocks_Peek env hash (world sp) = Some (HdrMeta metaBlock)
    ∧ headersNonces view (world sp)
        !! (MetaBlock.Nonce metaBlock, MetachainShardId) = Some hash
    ∧ hash ∈ Header.MetaBlockHashes header.

(** None of the metablocks that the header references is in the store:
    the pool and the store are disjoint. *)
Definition notInStore (header : Header.t) (sp : shardProcessor W) : Prop :=
  ∀ hash, hash ∈ Header.MetaBlockHashes header →
          ∃ err, store_Get env MetaBlockUnit hash (world sp) = inl err.

(** What [CommitBlock] does to a metablock of [processed] that it has
    completed: the metablock is no longer in the pool, and its encoding is
    in the store under its hash. *)
Definition movedToStore (processed : list HeaderHandler) (w : W)
           (hash : Hash) : Prop :=
  ∃ hdr buff,
    hdr ∈ processed
    ∧ MarshalHeader env hdr = inr buff
    ∧ Compute env buff = hash
    ∧ metaBlocks_Peek env hash w = None
    ∧ store_Get env MetaBlockUnit hash w = inr buff.

(** The pool and the store hold under [hash] what they held in [w0]. *)
Definition untouched (w0 w : W) (hash : Hash) : Prop :=
  metaBlocks_Peek env hash w = metaBlocks_Peek env hash w0
  ∧ store_Get env MetaBlockUnit hash w = store_Get env MetaBlockUnit hash w0.

(** The data in the course of a commit that started in [w0]: every hash
    is untouched or moved to the store; the headers-nonces pool is [index],
    its contents once the block's own nonce was merged, less the nonces of
    the metablocks moved to the store. *)
Definition committedData (index : gmap (Z * Z) Hash)
           (processed : list HeaderHandler) (w0 w : W) : Prop :=
  (∀ hash, untouched w0 w hash ∨ movedToStore processed w hash)
  ∧ ∀ key, headersNonces view w !! key = index !! key
           ∨ (headersNonces view w !! key = None
              ∧ ∃ hdr buff,
                  hdr ∈ processed
                  ∧ MarshalHeader env hdr = inr buff
                  ∧ key = (GetNonce hdr, MetachainShardId)
                  ∧ movedToStore processed w (Compute env buff)).

End DataContract.

(** The view of the reference environment. *)
Definition refView : DataView RefWorld :=
  mkDataView rw_notarized rw_headersNonces.

(** The scenario after a longer history: the notarized slice holds the
    metablocks 4 to 9, one more than the committer keeps for the block of
    nonce 5. *)
Definition refOlderNotarized : list HeaderHandler :=
  (λ n, HdrMeta (MetaBlock.mk n n 0 noBytes noBytes noBytes []))
    <$> [4; 5; 6; 7; 8].

Definition refProcessorLong : shardProcessor RefWorld :=
  setWorld (rw_setNotarized (refOlderNotarized ++ [HdrMeta refM9]) refWorld)
    refProcessor.

Definition refProcessedLong : shardProcessor RefWorld :=
  (ProcessBlock refCollaborators Chain (HdrShard refHeader) (BodyShard refBody)
     (Some (remainingAlways 0)) refProcessorLong).2.

Definition refCommittedLong : shardProcessor RefWorld :=
  (CommitBlock refCollaborators Chain (HdrShard refHeader) (BodyShard refBody)
     refProcessedLong).2.

Definition refRestoredLong : shardProcessor RefWorld :=
  (RestoreBlockIntoPools refCollaborators (HdrShard refHeader)
     (BodyShard refBody) refCommittedLong).2.

(** The block of the scenario with a header that references no
    metablock. *)
Definition refUnreferencedHeader : Header.t :=
  Header.mk 5 11 0 1 "shard4" "s4" "s5" "root/mb2" 2
    [ MiniBlockHeader.mk "mb1" 0 1 1 TxBlock;
      MiniBlockHeader.mk "mb2" 0 1 1 TxBlock ]
    [].

(** An empty block that references metablock 9, in a state where the
    store holds that metablock and the pool does not. *)
Definition refStaleHeader : Header.t :=
  Header.mk 5 11 0 1 "shard4" "s4" "s5" "root0" 0 [] [ "meta9" ].

Definition refProcessorStale : shardProcessor RefWorld :=
  setWorld (rw_setStore (<["meta/meta9" := "meta9"]> ∅) refWorld) refProcessor.

(** * Properties *)

(** ** Header/body correlation *)

Section CorrelationFacts.

Variable Marshal : MiniBlock.t → Error + string.
Variable Compute : string → Hash.

Lemma foldl_insert_lookup (hdrs : list MiniBlockHeader.t)
      (m : gmap string MiniBlockHeader.t) (k : string) :
  foldl (λ m h, <[MiniBlockHeader.Hash h := h]> m) m hdrs !! k
  = match last (filter (λ h, MiniBlockHeader.Hash h = k) hdrs) with
    | Some h => Some h
    | None => m !! k
    end.
Proof.
  induction hdrs as [|h hdrs IH] using rev_ind; [done|].
  rewrite foldl_snoc, filter_app, filter_cons, filter_nil.
  destruct (decide (MiniBlockHeader.Hash h = k)) as [Heq|Hne].
  - rewrite last_snoc, Heq. apply lookup_insert_eq.
  - rewrite app_nil_r, lookup_insert_ne by done. apply IH.
Qed.

(** The table built from the header answers with the last entry that
    carries the hash. *)
Lemma mbHashesFromHdr_lookup (hdrs : list MiniBlockHeader.t) (k : string) :
  mbHashesFromHdr hdrs !! k
  = last (filter (λ h, MiniBlockHeader.Hash h = k) hdrs).
Proof.
  unfold mbHashesFromHdr. rewrite foldl_insert_lookup, lookup_empty.
  by destruct (last _).
Qed.

Lemma checkMiniBlocks_None (hdrs : list MiniBlockHeader.t)
      (body : list MiniBlock.t) :
  checkMiniBlocks Marshal Compute (mbHashesFromHdr hdrs) body = None
  ↔ Forall (matchedByHash Marshal Compute hdrs) body.
Proof.
  induction body as [|mb body IH]; simpl.
  - split; [constructor|done].
  - rewrite Forall_cons, <- IH. unfold matchedByHash.
    destruct (Marshal mb) as [err|mbBytes] eqn:HM.
    { split; [done|]. intros [(? & ? & ? & _) _]. done. }
    rewrite mbHashesFromHdr_lookup.
    destruct (last _) as [mbHdr|] eqn:Hlast.
    2:{ split; [done|]. intros [(b & h & Hb & Hl & _) _].
        injection Hb as <-. rewrite Hlast in Hl. done. }
    destruct (Z.eqb_spec (MiniBlockHeader.TxCount mbHdr)
                (uint32 (Z.of_nat (length (MiniBlock.TxHashes mb)))))
      as [Ht|Ht]; simpl.
    2:{ split; [done|]. intros [(b & h & Hb & Hl & Hc & _) _].
        injection Hb as <-. rewrite Hlast in Hl. injection Hl as <-. done. }
    destruct (Z.eqb_spec (MiniBlockHeader.ReceiverShardID mbHdr)
                (MiniBlock.ReceiverShardID mb)) as [Hr|Hr]; simpl.
    2:{ split; [done|]. intros [(b & h & Hb & Hl & _ & Hc & _) _].
        injection Hb as <-. rewrite Hlast in Hl. injection Hl as <-. done. }
    destruct (Z.eqb_spec (MiniBlockHeader.SenderShardID mbHdr)
                (MiniBlock.SenderShardID mb)) as [Hs|Hs]; simpl.
    2:{ split; [done|]. intros [(b & h & Hb & Hl & _ & _ & Hc) _].
        injection Hb as <-. rewrite Hlast in Hl. injection Hl as <-. done. }
    split; [|tauto]. intros Hrest. split; [|done].
    exists mbBytes, mbHdr. done.
Qed.

Lemma checkMiniBlocks_error (tbl : gmap string MiniBlockHeader.t)
      (body : list MiniBlock.t) (e : Error) :
  checkMiniBlocks Marshal Compute tbl body = Some e →
  Forall (λ mb, ∃ mbBytes, Marshal mb = inr mbBytes) body →
  e = ErrHeaderBodyMismatch.
Proof.
  induction body as [|mb body IH]; simpl; [done|].
  intros He Hall. apply Forall_cons in Hall as [[b Hb] Hall].
  rewrite Hb in He.
  destruct (tbl !! Compute b); [|congruence].
  repeat (destruct (negb _); [congruence|]).
  by apply IH.
Qed.

(** C1, as amended.  [checkHeaderBodyCorrelation] accepts a header and a
    body exactly when they have the same number of entries and every
    miniblock of the body is matched by hash: the last header entry that
    carries the miniblock's hash has the miniblock's transaction count (as
    a [uint32]) and its receiver and sender shards.  Neither the position
    of the entry nor its type is compared.  When every miniblock can be
    marshalled, a pair that is not accepted is rejected with
    [ErrHeaderBodyMismatch]. *)
Theorem checkHeaderBodyCorrelation_accepts_by_hash
        (hdr : Header.t) (body : list MiniBlock.t) :
  (checkHeaderBodyCorrelation Marshal Compute hdr body = None
   ↔ length (Header.MiniBlockHeaders hdr) = length body
     ∧ Forall (matchedByHash Marshal Compute (Header.MiniBlockHeaders hdr)) body)
  ∧ (∀ e, checkHeaderBodyCorrelation Marshal Compute hdr body = Some e →
          Forall (λ mb, ∃ mbBytes, Marshal mb = inr mbBytes) body →
          e = ErrHeaderBodyMismatch).
Proof.
  unfold checkHeaderBodyCorrelation. split.
  - destruct (Nat.eqb_spec (length (Header.MiniBlockHeaders hdr)) (length body))
      as [Hlen|Hlen]; simpl.
    + rewrite checkMiniBlocks_None. tauto.
    + split; [done|]. tauto.
  - intros e. destruct (negb _); [congruence|]. apply checkMiniBlocks_error.
Qed.

End CorrelationFacts.

(** The swapped header of the scenario is accepted although no entry is
    the one expected at its index: the claim C1 as stated fails. *)
Lemma checkHeaderBodyCorrelation_ignores_order_and_type :
  checkHeaderBodyCorrelation rw_marshalMiniBlock (λ s, s)
    refSwappedHeader refBody = None
  ∧ ¬ correlatedPerIndex rw_marshalMiniBlock (λ s, s) refSwappedHeader refBody.
Proof.
  split; [reflexivity|].
  intros [_ H]. destruct (H 0%nat refMb1 eq_refl) as (b & Hb & Hh).
  injection Hb as <-. discriminate Hh.
Qed.

(** The amended statement at the swapped header: it is accepted because
    every miniblock is matched by hash. *)
Lemma checkHeaderBodyCorrelation_accepts_by_hash_witness :
  checkHeaderBodyCorrelation rw_marshalMiniBlock (λ s, s)
    refSwappedHeader refBody = None.
Proof.
  apply (proj1 (checkHeaderBodyCorrelation_accepts_by_hash
                  rw_marshalMiniBlock (λ s, s) refSwappedHeader refBody)).
  split; [reflexivity|].
  repeat constructor.
  - exists "mb1", (MiniBlockHeader.mk "mb1" 0 1 1 RewardsBlock).
    repeat split; reflexivity.
  - exists "mb2", (MiniBlockHeader.mk "mb2" 0 1 1 RewardsBlock).
    repeat split; reflexivity.
Defined.

(** ** Finality evaluator *)

Section FinalityFacts.

Context {W : Type} (env : Collaborators W).
Hypothesis Hvalid : implementsConstructionValidity env.

Lemma countVerifiedSuccessors_nonneg (lastVerified : HeaderHandler)
      (successors : list HeaderHandler) :
  0 ≤ countVerifiedSuccessors env lastVerified successors.
Proof.
  revert lastVerified.
  induction successors as [|h rest IH]; intros lastVerified; simpl; [lia|].
  case_bool_decide; [specialize (IH h)|specialize (IH lastVerified)]; lia.
Qed.

(** The test of the code (next nonce in [uint64], then the validity check)
    selects the same successors as the rule. *)
Lemma next_nonce_test (h lastVerified : HeaderHandler) :
  h ≠ HdrNil → lastVerified ≠ HdrNil →
  nonceInRange h → nonceInRange lastVerified →
  (GetNonce h = uint64 (GetNonce lastVerified + 1)
   ∧ isHdrConstructionValid env h lastVerified = None)
  ↔ (GetNonce h = GetNonce lastVerified + 1 ∧ constructionValid env h lastVerified).
Proof.
  unfold nonceInRange, uint64. intros Hhn Hln Hh Hl.
  rewrite (Hvalid h lastVerified Hhn Hln).
  split; intros [Hn Hc]; (split; [|done]).
  - destruct (decide (GetNonce lastVerified + 1 < 2 ^ 64)) as [Hlt|Hge].
    + rewrite Z.mod_small in Hn by lia. done.
    + assert (GetNonce lastVerified + 1 = 2 ^ 64) as Heq by lia.
      rewrite Heq, Z.mod_same in Hn by lia.
      destruct Hc as (_ & _ & _ & Hc). lia.
  - rewrite Z.mod_small by lia. done.
Qed.

Lemma isMetaHeaderFinalFrom_rule (K : Z) (sortedHdrs : list hashAndHdr) :
  ∀ (lastVerifiedHdr : HeaderHandler) (nextBlocksVerified : Z),
    properHeader lastVerifiedHdr →
    Forall (λ x, properHeader (hh_hdr x)) sortedHdrs →
    isMetaHeaderFinalFrom env K sortedHdrs lastVerifiedHdr nextBlocksVerified = true
    ↔ K ≤ nextBlocksVerified
          + countVerifiedSuccessors env lastVerifiedHdr (hh_hdr <$> sortedHdrs).
Proof.
  induction sortedHdrs as [|x rest IH]; intros lastV n Hl Hall; csimpl.
  - rewrite Z.leb_le. lia.
  - apply Forall_cons in Hall as [Hx Hall].
    pose proof (next_nonce_test (hh_hdr x) lastV (proj1 Hx) (proj1 Hl)
                  (proj2 Hx) (proj2 Hl)) as Htest.
    pose proof (countVerifiedSuccessors_nonneg lastV (hh_hdr <$> rest)) as Hc0.
    pose proof (countVerifiedSuccessors_nonneg (hh_hdr x) (hh_hdr <$> rest)) as Hc1.
    destruct (Z.leb_spec K n) as [Hle|Hgt].
    { split; [|done]. intros _. case_bool_decide; lia. }
    destruct (Z.eqb_spec (GetNonce (hh_hdr x)) (uint64 (GetNonce lastV + 1)))
      as [Hn|Hn].
    + destruct (isHdrConstructionValid env (hh_hdr x) lastV) as [err|] eqn:Hv.
      * rewrite bool_decide_eq_false_2
          by (intros Hs; apply Htest in Hs as [_ ?]; done).
        by apply IH.
      * rewrite bool_decide_eq_true_2 by (apply Htest; done).
        rewrite IH by done. lia.
    + rewrite bool_decide_eq_false_2
        by (intros Hs; apply Htest in Hs as [? _]; done).
      by apply IH.
Qed.

Lemma checkMetaHdrFinalityLoop_rule (K : Z) (finalMetaHdrs : list MetaBlock.t) :
  ∀ (lastVerifiedHdr : HeaderHandler) (nextBlocksVerified : Z),
    properHeader lastVerifiedHdr →
    Forall (λ m, nonceInRange (HdrMeta m)) finalMetaHdrs →
    K ≤ (checkMetaHdrFinalityLoop env K finalMetaHdrs lastVerifiedHdr
           nextBlocksVerified).2
    ↔ K ≤ nextBlocksVerified
          + countVerifiedSuccessors env lastVerifiedHdr (HdrMeta <$> finalMetaHdrs).
Proof.
  induction finalMetaHdrs as [|m rest IH]; intros lastV n Hl Hall; csimpl.
  - lia.
  - apply Forall_cons in Hall as [Hx Hall].
    assert (properHeader (HdrMeta m)) as Hm by done.
    pose proof (next_nonce_test (HdrMeta m) lastV (proj1 Hm) (proj1 Hl)
                  Hx (proj2 Hl)) as Htest.
    pose proof (countVerifiedSuccessors_nonneg lastV (HdrMeta <$> rest)) as Hc0.
    pose proof (countVerifiedSuccessors_nonneg (HdrMeta m) (HdrMeta <$> rest)) as Hc1.
    destruct (Z.leb_spec K n) as [Hle|Hgt]; simpl.
    { split; [|done]. intros _. case_bool_decide; lia. }
    simpl in Htest.
    destruct (Z.eqb_spec (MetaBlock.Nonce m) (uint64 (GetNonce lastV + 1)))
      as [Hn|Hn].
    + destruct (isHdrConstructionValid env (HdrMeta m) lastV) as [err|] eqn:Hv.
      * rewrite bool_decide_eq_false_2
          by (intros Hs; apply Htest in Hs as [_ ?]; done).
        by apply IH.
      * rewrite bool_decide_eq_true_2 by (apply Htest; done).
        rewrite IH by done. lia.
    + rewrite bool_decide_eq_false_2
        by (intros Hs; apply Htest in Hs as [? _]; done).
      by apply IH.
Qed.

Lemma checkMetaHdrFinalityOn_rule (K : Z) (H : HeaderHandler)
      (finalMetaHdrs : list MetaBlock.t) :
  properHeader H →
  Forall (λ m, nonceInRange (HdrMeta m)) finalMetaHdrs →
  checkMetaHdrFinalityOn env K H finalMetaHdrs = None
  ↔ finalPerRule env K H (HdrMeta <$> finalMetaHdrs).
Proof.
  intros HH Hall. unfold checkMetaHdrFinalityOn, finalPerRule.
  pose proof (checkMetaHdrFinalityLoop_rule K finalMetaHdrs H 0 HH Hall) as Hr.
  destruct (checkMetaHdrFinalityLoop env K finalMetaHdrs H 0) as [lastV n].
  simpl in Hr. rewrite Z.add_0_l in Hr. rewrite <- Hr.
  destruct (Z.ltb_spec n K); split; (done || lia).
Qed.

(** C3.  Let the base processor's validity check implement construction
    validity, and let every nonce fit its [uint64] field.  For every
    non-nil candidate [H] and every list of non-nil successor headers,
    [isMetaHeaderFinal] declares [H] final if and only if the scan of the
    list from [startPos], advancing the last verified header, finds at
    least [metaBlockFinality] successors that have the next nonce and pass
    construction validity; [checkMetaHdrFinality] accepts [H] under the
    same condition on the unused headers of the table. *)
Theorem finality_evaluator_follows_rule (sp : shardProcessor W)
        (H : HeaderHandler) (sortedHdrs : list hashAndHdr) (startPos : nat)
        (finalMetaHdrs : list MetaBlock.t) :
  H ≠ HdrNil → nonceInRange H →
  Forall (λ x, hh_hdr x ≠ HdrNil ∧ nonceInRange (hh_hdr x)) sortedHdrs →
  sortHdrsForCurrentBlock false sp = inr finalMetaHdrs →
  Forall (λ m, nonceInRange (HdrMeta m)) finalMetaHdrs →
  (isMetaHeaderFinal env sp H (Some sortedHdrs) startPos = true
   ↔ finalPerRule env (metaBlockFinality sp) H
       (hh_hdr <$> drop startPos sortedHdrs))
  ∧ (checkMetaHdrFinality env sp H = None
     ↔ finalPerRule env (metaBlockFinality sp) H (HdrMeta <$> finalMetaHdrs)).
Proof.
  intros Hnil HH Hsorted Hsort Hfinal.
  assert (properHeader H) as Hproper by done.
  split.
  - unfold isMetaHeaderFinal, finalPerRule.
    destruct H; [done| |]; simpl;
      (rewrite isMetaHeaderFinalFrom_rule;
       [ rewrite Z.add_0_l; done
       | done
       | by apply Forall_drop ]).
  - unfold checkMetaHdrFinality. rewrite Hsort.
    destruct H; [done| |]; simpl; by apply checkMetaHdrFinalityOn_rule.
Qed.

End FinalityFacts.

(** The reference environment's validity check implements construction
    validity. *)
Lemma refCollaborators_validity n known :
  implementsConstructionValidity (refEnv n known).
Proof.
  intros h lastV Hh Hl. unfold constructionValid. simpl.
  unfold rw_isHdrConstructionValid.
  destruct lastV as [|ls|lm]; [done| |]; (destruct h as [|hs|hm]; [done| |]);
    simpl;
    repeat match goal with
      | |- context [ (?a <? ?b)%Z ] => destruct (Z.ltb_spec a b); simpl
      | |- context [ String.eqb ?a ?b ] => destruct (String.eqb_spec a b); simpl
      end;
    try (split; [done|]; intros (Hp & Hr & ? & ?); (lia || congruence));
    try (split; [intros _|done]; repeat split; (done || lia || congruence)).
Qed.

(** C3 at the scenario: metablock 10 is final, metablock 11 is built on
    it. *)
Lemma finality_evaluator_follows_rule_witness :
  (isMetaHeaderFinal refCollaborators refProcessed (HdrMeta refM10)
     (Some refOrdered) 1 = true
   ↔ finalPerRule refCollaborators 1 (HdrMeta refM10) [HdrMeta refM11])
  ∧ (checkMetaHdrFinality refCollaborators refProcessed (HdrMeta refM10) = None
     ↔ finalPerRule refCollaborators 1 (HdrMeta refM10) [HdrMeta refM11]).
Proof.
  apply (finality_evaluator_follows_rule refCollaborators
           (refCollaborators_validity _ _) refProcessed (HdrMeta refM10)
           refOrdered 1 [refM11]).
  - discriminate.
  - unfold nonceInRange. simpl. lia.
  - unfold nonceInRange. repeat constructor; simpl; (discriminate || lia).
  - vm_compute. reflexivity.
  - unfold nonceInRange. repeat constructor; simpl; lia.
Defined.

(** ** Validation, header creation and nil arguments *)

Section DriverFacts.

Context {W : Type} (env : Collaborators W).

(** C2.  Let [RevertAccountState] leave the accounts with an empty
    journal.  Whenever [ProcessBlock] has passed its checks (the block is
    prepared, the time check, the waits and the verifications succeeded),
    so that the error arises at or after the computation of the processed
    metablocks, and it returns a non-nil error, the journal of the accounts
    is empty on return. *)
Theorem ProcessBlock_rollback_safety
        (chainHandler : ChainHandler) (headerHandler : HeaderHandler)
        (bodyHandler : BodyHandler) (haveTime : W → Z * W)
        (sp sp1 sp2 sp3 sp' : shardProcessor W)
        (header : Header.t) (body : list MiniBlock.t)
        (requestedMetaHdrs requestedFinalMetaHdrs remaining : Z) (err : Error) :
  (∀ w, acc_JournalLen env (RevertAccountState env w) = 0) →
  ProcessBlock_prepare env chainHandler headerHandler bodyHandler sp
    = (inr (header, body, requestedMetaHdrs, requestedFinalMetaHdrs), sp1) →
  onWorld haveTime sp1 = (remaining, sp2) →
  0 ≤ remaining →
  ProcessBlock_await env haveTime requestedMetaHdrs requestedFinalMetaHdrs sp2
    = (None, sp3) →
  ProcessBlock_verify env header sp3 = None →
  ProcessBlock env chainHandler headerHandler bodyHandler (Some haveTime) sp
    = (Some err, sp') →
  acc_JournalLen env (world sp') = 0.
Proof.
  intros Hrevert Hprep Htime Hpos Hawait Hverify.
  unfold ProcessBlock. rewrite Hprep, Htime.
  destruct (Z.ltb_spec remaining 0) as [?|_]; [lia|].
  unfold ProcessBlock_afterTimeCheck. rewrite Hawait, Hverify.
  destruct (ProcessBlock_apply env header body haveTime sp3) as [[e|] sp4];
    simpl; [|done].
  intros [= _ <-]. apply Hrevert.
Qed.

(** C8, as amended.  At the check performed after requesting meta
    headers, [ProcessBlock] fails with [ErrTimeIsOut] when [haveTime()] is
    negative; when it is zero or positive the check passes and
    [ProcessBlock] goes on with the rest of the validation. *)
Theorem ProcessBlock_time_check
        (chainHandler : ChainHandler) (headerHandler : HeaderHandler)
        (bodyHandler : BodyHandler) (haveTime : W → Z * W)
        (sp sp1 sp2 : shardProcessor W)
        (header : Header.t) (body : list MiniBlock.t)
        (requestedMetaHdrs requestedFinalMetaHdrs remaining : Z) :
  ProcessBlock_prepare env chainHandler headerHandler bodyHandler sp
    = (inr (header, body, requestedMetaHdrs, requestedFinalMetaHdrs), sp1) →
  onWorld haveTime sp1 = (remaining, sp2) →
  (remaining < 0 →
   ProcessBlock env chainHandler headerHandler bodyHandler (Some haveTime) sp
     = (Some ErrTimeIsOut, sp2))
  ∧ (0 ≤ remaining →
     ProcessBlock env chainHandler headerHandler bodyHandler (Some haveTime) sp
       = ProcessBlock_afterTimeCheck env header body requestedMetaHdrs
           requestedFinalMetaHdrs haveTime sp2).
Proof.
  intros Hprep Htime. unfold ProcessBlock. rewrite Hprep, Htime.
  destruct (Z.ltb_spec remaining 0); split; (done || lia).
Qed.

(** C10.  [CreateBlockHeader] called with a nil body returns a non-nil
    shard header with no miniblock headers, a zero transaction count, the
    current root hash of the accounts and the self shard, together with a
    nil error, and leaves the processor as it was. *)
Theorem CreateBlockHeader_nil_body (round : Z) (haveTime : W → bool * W)
        (sp : shardProcessor W) :
  ∃ header : Header.t,
    CreateBlockHeader env BodyNil round haveTime sp = ((HdrShard header, None), sp)
    ∧ Header.MiniBlockHeaders header = []
    ∧ Header.TxCount header = 0
    ∧ Header.RootHash header = getRootHash env (world sp)
    ∧ Header.ShardId header = SelfId env.
Proof. eexists. repeat split. Qed.

(** [RestoreBlockIntoPools] drops the last notarized header before it
    looks at its arguments. *)
Lemma RestoreBlockIntoPools_nil_header (bodyHandler : BodyHandler)
      (sp : shardProcessor W) :
  RestoreBlockIntoPools env HdrNil bodyHandler sp
  = (Some ErrNilBlockHeader, doWorld (removeLastNotarized env) sp).
Proof. reflexivity. Qed.

(** [ProcessBlock] with a nil [haveTime] returns before touching
    anything. *)
Lemma ProcessBlock_nil_haveTime (chainHandler : ChainHandler)
      (headerHandler : HeaderHandler) (bodyHandler : BodyHandler)
      (sp : shardProcessor W) :
  ProcessBlock env chainHandler headerHandler bodyHandler None sp
  = (Some ErrNilHaveTimeHandler, sp).
Proof. reflexivity. Qed.

End DriverFacts.

(** C2 at the scenario: the block with the wrong root hash fails after
    its transactions were applied, and the journal is empty on return. *)
Lemma ProcessBlock_rollback_safety_witness :
  ProcessBlock refCollaborators Chain (HdrShard refWrongRootHeader)
    (BodyShard refBody) (Some (remainingAlways 5)) refProcessor
  = (Some ErrRootStateDoesNotMatch,
     (ProcessBlock refCollaborators Chain (HdrShard refWrongRootHeader)
        (BodyShard refBody) (Some (remainingAlways 5)) refProcessor).2)
  ∧ acc_JournalLen refCollaborators
      (world (ProcessBlock refCollaborators Chain (HdrShard refWrongRootHeader)
                (BodyShard refBody) (Some (remainingAlways 5)) refProcessor).2)
    = 0.
Proof.
  split; [vm_compute; reflexivity|].
  pose (sp1 := (ProcessBlock_prepare refCollaborators Chain
                  (HdrShard refWrongRootHeader) (BodyShard refBody)
                  refProcessor).2).
  apply (ProcessBlock_rollback_safety refCollaborators Chain
           (HdrShard refWrongRootHeader) (BodyShard refBody) (remainingAlways 5)
           refProcessor sp1 sp1 sp1 _ refWrongRootHeader refBody 0 0 5
           ErrRootStateDoesNotMatch).
  - intros w. reflexivity.
  - vm_compute. reflexivity.
  - vm_compute. reflexivity.
  - lia.
  - vm_compute. reflexivity.
  - vm_compute. reflexivity.
  - vm_compute. reflexivity.
Defined.

(** Before the deferred revert runs, the two miniblocks of that block have
    left two pending mutations in the journal. *)
Example ProcessBlock_apply_scenario :
  let prepared :=
    (ProcessBlock_prepare refCollaborators Chain (HdrShard refWrongRootHeader)
       (BodyShard refBody) refProcessor).2 in
  let applied :=
    ProcessBlock_apply refCollaborators refWrongRootHeader refBody
      (remainingAlways 5) prepared in
  applied.1 = Some ErrRootStateDoesNotMatch
  ∧ acc_JournalLen refCollaborators (world applied.2) = 2.
Proof. vm_compute. split; reflexivity. Qed.

(** The claim C8 as stated fails: in the scenario [haveTime()] returns
    zero at the check after the meta headers were requested, and
    [ProcessBlock] does not fail with [ErrTimeIsOut]; it accepts the
    block. *)
Lemma ProcessBlock_zero_time_passes :
  let prepared :=
    ProcessBlock_prepare refCollaborators Chain (HdrShard refHeader)
      (BodyShard refBody) refProcessor in
  prepared.1 = inr (refHeader, refBody, 0, 0)
  ∧ (onWorld (remainingAlways 0) prepared.2).1 = 0
  ∧ (ProcessBlock refCollaborators Chain (HdrShard refHeader) (BodyShard refBody)
       (Some (remainingAlways 0)) refProcessor).1 = None.
Proof. vm_compute. repeat split. Qed.

(** C8, as amended, at the scenario with a negative remaining time. *)
Lemma ProcessBlock_time_check_witness :
  (ProcessBlock refCollaborators Chain (HdrShard refHeader) (BodyShard refBody)
     (Some (remainingAlways (-1))) refProcessor).1 = Some ErrTimeIsOut.
Proof.
  pose (sp1 := (ProcessBlock_prepare refCollaborators Chain (HdrShard refHeader)
                  (BodyShard refBody) refProcessor).2).
  rewrite (proj1 (ProcessBlock_time_check refCollaborators Chain
                    (HdrShard refHeader) (BodyShard refBody)
                    (remainingAlways (-1)) refProcessor sp1 sp1
                    refHeader refBody 0 0 (-1)
                    ltac:(vm_compute; reflexivity)
                    ltac:(vm_compute; reflexivity))
                 ltac:(lia)).
  reflexivity.
Defined.

(** C7 on the code.  [ProcessBlock] with a nil [haveTime] leaves the
    processor untouched, but [RestoreBlockIntoPools] with a nil header
    returns [ErrNilBlockHeader] after it has dropped the last notarized
    header: in the scenario the committed processor has notarized
    metablocks 9 and 10, and only metablock 9 is left when the error is
    returned. *)
Theorem RestoreBlockIntoPools_nil_header_touches_notarized :
  ProcessBlock refCollaborators Chain (HdrShard refHeader) (BodyShard refBody)
    None refCommitted = (Some ErrNilHaveTimeHandler, refCommitted)
  ∧ (RestoreBlockIntoPools refCollaborators HdrNil (BodyShard refBody)
       refCommitted).1 = Some ErrNilBlockHeader
  ∧ rw_notarized (world refCommitted) = [HdrMeta refM9; HdrMeta refM10]
  ∧ rw_notarized
      (world (RestoreBlockIntoPools refCollaborators HdrNil (BodyShard refBody)
                refCommitted).2)
    = [HdrMeta refM9].
Proof. vm_compute. repeat split. Qed.

(** ** Cross-shard selector *)

Section SelectorFacts.

Context {W : Type} (env : Collaborators W).

(** C5.  At the top of every iteration of the selector's loop, after
    the call of [haveTime]: if [haveTime()] is false, or the miniblocks
    collected so far are at least [MaxMiniBlocksInBlock], or the header-side
    items (table entries plus collected miniblocks) are at least
    [maxItemsInBlock], the loop ends there and returns what it has, without
    looking at the candidate or at any later one; otherwise, and only then,
    the candidate is considered. *)
Theorem selector_stops_on_exhausted_budget
        (maxItemsInBlock round : Z) (haveTime : W → bool * W)
        (orderedMetaBlocks : list hashAndHdr) (i : nat)
        (x : hashAndHdr) (rest : list hashAndHdr) (st : selectorState)
        (t : bool) (w1 : W) :
  haveTime (world (sel_sp st)) = (t, w1) →
  let st1 :=
    mkSelectorState (sel_miniBlocks st) (sel_txsAdded st) (sel_hdrsAdded st)
      (sel_lastMetaHdr st) (setWorld w1 (sel_sp st)) in
  (t = false
   ∨ MaxMiniBlocksInBlock env ≤ Z.of_nat (length (sel_miniBlocks st))
   ∨ maxItemsInBlock ≤ itemsAddedInHeader st →
   selectorLoop env maxItemsInBlock round haveTime orderedMetaBlocks i
     (x :: rest) st = st1)
  ∧ (t = true
     ∧ Z.of_nat (length (sel_miniBlocks st)) < MaxMiniBlocksInBlock env
     ∧ itemsAddedInHeader st < maxItemsInBlock →
     selectorLoop env maxItemsInBlock round haveTime orderedMetaBlocks i
       (x :: rest) st
     = let '(cont, st2) :=
         selectorStep env maxItemsInBlock round haveTime orderedMetaBlocks i x st1 in
       if cont
       then selectorLoop env maxItemsInBlock round haveTime orderedMetaBlocks
              (S i) rest st2
       else st2).
Proof.
  intros Htime st1. simpl. unfold selectorMayStart, onWorld. rewrite Htime.
  fold st1.
  assert (itemsAddedInHeader st1 = itemsAddedInHeader st) as Hitems by reflexivity.
  rewrite Hitems.
  change (sel_miniBlocks st1) with (sel_miniBlocks st).
  split.
  - intros [-> | [Hmb | Hit]]; [done| |].
    + destruct t; simpl; [|done].
      destruct (Z.leb_spec (MaxMiniBlocksInBlock env)
                  (Z.of_nat (length (sel_miniBlocks st)))); [done|lia].
    + destruct t; simpl; [|done].
      destruct (Z.leb_spec (MaxMiniBlocksInBlock env)
                  (Z.of_nat (length (sel_miniBlocks st)))); [done|].
      destruct (Z.leb_spec maxItemsInBlock (itemsAddedInHeader st)); [done|lia].
  - intros (-> & Hmb & Hit). simpl.
    destruct (Z.leb_spec (MaxMiniBlocksInBlock env)
                (Z.of_nat (length (sel_miniBlocks st)))); [lia|].
    destruct (Z.leb_spec maxItemsInBlock (itemsAddedInHeader st)); [lia|].
    reflexivity.
Qed.

(** C6.  For a candidate metablock [m] that is construction-valid upon
    the last metablock and final: if [m] has no miniblock for the self
    shard, [m] is recorded in the table as used, the last metablock becomes
    [m] and the loop continues; otherwise, when the transaction coordinator
    is invoked for [m], the table after the iteration has [m] recorded as
    used if the coordinator reports [currTxsAdded > 0] and is unchanged if
    not, so that a candidate not yet in the table is recorded as used if and
    only if [currTxsAdded > 0]. *)
Theorem selector_marks_used_metablocks
        (maxItemsInBlock round : Z) (haveTime : W → bool * W)
        (orderedMetaBlocks : list hashAndHdr) (i : nat)
        (hash : Hash) (m : MetaBlock.t) (st : selectorState) :
  isHdrConstructionValid env (HdrMeta m) (sel_lastMetaHdr st) = None →
  isMetaHeaderFinal env (sel_sp st) (HdrMeta m) (Some orderedMetaBlocks) (i + 1)
    = true →
  let x := mkHashAndHdr (HdrMeta m) hash in
  let used := mkHdrInfo true (HdrMeta m) in
  let maxTxSpaceRemained :=
    int32 (int32 maxItemsInBlock - int32 (sel_txsAdded st)) in
  let maxMbSpaceRemained :=
    getMaxMiniBlocksSpaceRemained env maxItemsInBlock
      (uint32 (itemsAddedInHeader st + 1))
      (uint32 (Z.of_nat (length (sel_miniBlocks st)))) in
  (size (meta_GetMiniBlockHeadersWithDst env m (SelfId env)) = 0%nat →
   ∃ st',
     selectorStep env maxItemsInBlock round haveTime orderedMetaBlocks i x st
       = (true, st')
     ∧ sel_table st' = <[hash := used]> (sel_table st)
     ∧ sel_hdrsAdded st' = uint32 (sel_hdrsAdded st + 1)
     ∧ sel_lastMetaHdr st' = HdrMeta m)
  ∧ (size (meta_GetMiniBlockHeadersWithDst env m (SelfId env)) ≠ 0%nat →
     sel_txsAdded st < maxItemsInBlock →
     0 < maxTxSpaceRemained → 0 < maxMbSpaceRemained →
     ∀ currMBProcessed currTxsAdded hdrProcessFinished w',
       txc_CreateMbsAndProcessCrossShardTransactionsDstMe env m
         (getProcessedMiniBlocksHashes hash (sel_sp st))
         (uint32 maxTxSpaceRemained) (uint32 maxMbSpaceRemained) round haveTime
         (world (sel_sp st))
       = ((currMBProcessed, currTxsAdded, hdrProcessFinished), w') →
       ∃ st',
         selectorStep env maxItemsInBlock round haveTime orderedMetaBlocks i x st
           = (hdrProcessFinished, st')
         ∧ sel_table st'
           = (if 0 <? currTxsAdded then <[hash := used]> (sel_table st)
              else sel_table st)
         ∧ (sel_table st !! hash = None →
            (sel_table st' !! hash = Some used ↔ 0 < currTxsAdded))).
Proof.
  intros Hvalid Hfinal x used maxTx maxMb. split.
  - intros Hzero. unfold selectorStep. simpl. rewrite Hvalid, Hfinal. simpl.
    rewrite Hzero. simpl. eexists. repeat split.
  - intros Hsize Htxs Htx Hmb mbs n fin w' Hcall.
    unfold selectorStep. simpl. rewrite Hvalid, Hfinal. simpl.
    destruct (Nat.eqb_spec
                (size (meta_GetMiniBlockHeadersWithDst env m (SelfId env))) 0)
      as [?|_]; [done|].
    destruct (Z.leb_spec maxItemsInBlock (sel_txsAdded st)) as [?|_]; [lia|].
    fold maxTx maxMb.
    destruct (Z.ltb_spec 0 maxTx) as [_|?]; [|lia].
    destruct (Z.ltb_spec 0 maxMb) as [_|?]; [|lia].
    simpl. unfold onWorld. rewrite Hcall.
    destruct (Z.ltb_spec 0 n) as [Hn|Hn]; destruct fin; simpl;
      (eexists; split; [reflexivity|]; split; [reflexivity|]).
    all: intros Hfresh; unfold sel_table; simpl.
    1,2: rewrite lookup_insert_eq; split; [done|intros _; done].
    1,2: fold (sel_table st); rewrite Hfresh; split; [done|lia].
Qed.

End SelectorFacts.

(** The scenario runs as expected: the block is accepted and committed,
    and its restore succeeds. *)
Example ProcessBlock_scenario :
  (ProcessBlock refCollaborators Chain (HdrShard refHeader) (BodyShard refBody)
     (Some (remainingAlways 5)) refProcessor).1 = None
  ∧ (CommitBlock refCollaborators Chain (HdrShard refHeader) (BodyShard refBody)
       refProcessed).1 = None
  ∧ rw_notarized (world refCommitted) = [HdrMeta refM9; HdrMeta refM10]
  ∧ rw_metaBlocks (world refCommitted) !! "meta10" = None
  ∧ rw_metaBlocks (world refRestored) !! "meta10" = Some refM10
  ∧ rw_notarized (world refRestored) = [HdrMeta refM9].
Proof. vm_compute. repeat split. Qed.

(** The candidates the selector finds in the scenario. *)
Example getOrderedMetaBlocks_scenario :
  getOrderedMetaBlocks refCollaborators 11 refProcessor = inr refOrdered.
Proof. vm_compute. reflexivity. Qed.

(** C5 at the scenario with no room for any item. *)
Lemma selector_stops_on_exhausted_budget_witness :
  selectorLoop refCollaborators 0 11 timeAlways refOrdered 0 refOrdered
    refSelectorStart = refSelectorStart.
Proof.
  apply (proj1 (selector_stops_on_exhausted_budget refCollaborators 0 11
                  timeAlways refOrdered 0
                  (mkHashAndHdr (HdrMeta refM10) "meta10")
                  [mkHashAndHdr (HdrMeta refM11) "meta11"]
                  refSelectorStart true refWorld eq_refl)).
  right. right. vm_compute. discriminate.
Defined.

(** C6 at the scenario: the coordinator adds the two transactions of
    metablock 10, which is then recorded as used. *)
Lemma selector_marks_used_metablocks_witness :
  ∃ st',
    selectorStep refCollaborators 1000 11 timeAlways refOrdered 0
      (mkHashAndHdr (HdrMeta refM10) "meta10") refSelectorStart = (true, st')
    ∧ sel_table st' = <["meta10" := mkHdrInfo true (HdrMeta refM10)]> ∅.
Proof.
  destruct (proj2 (selector_marks_used_metablocks refCollaborators 1000 11
                     timeAlways refOrdered 0 "meta10" refM10 refSelectorStart
                     ltac:(vm_compute; reflexivity)
                     ltac:(vm_compute; reflexivity))
                  ltac:(vm_compute; discriminate)
                  ltac:(vm_compute; reflexivity)
                  ltac:(vm_compute; reflexivity)
                  ltac:(vm_compute; reflexivity)
                  [refMb1; refMb2] 2 true
                  (rw_setJournal ["root/mb1"; "root/mb2"] refWorld)
                  ltac:(vm_compute; reflexivity))
    as (st' & Hstep & Htable & _).
  exists st'. split; [exact Hstep|exact Htable].
Defined.

(** ** The completion signal *)

Section SignalFacts.

Context {W : Type} (env : Collaborators W).

Lemma sameSignalState_refl (sp : shardProcessor W) : sameSignalState sp sp.
Proof. done. Qed.

Lemma sameSignalState_trans (sp1 sp2 sp3 : shardProcessor W) :
  sameSignalState sp1 sp2 → sameSignalState sp2 sp3 → sameSignalState sp1 sp3.
Proof. unfold sameSignalState. intros (?&?&?) (?&?&?). repeat split; congruence. Qed.

Lemma insertHdrInfo_present hash info (sp : shardProcessor W) :
  isNilHeader (hdr info) = false → tableAllPresent sp →
  tableAllPresent (insertHdrInfo hash info sp).
Proof.
  intros Hinfo Hall k info'. unfold insertHdrInfo. simpl.
  destruct (decide (hash = k)) as [->|Hne].
  - rewrite lookup_insert_eq. by intros [= <-].
  - rewrite lookup_insert_ne by done. apply Hall.
Qed.

Lemma requestFinalMissingHeadersLoop_signal nonces :
  ∀ requested (sp : shardProcessor W),
    sameSignalState sp (requestFinalMissingHeadersLoop env nonces requested sp).2
    ∧ world (requestFinalMissingHeadersLoop env nonces requested sp).2 = world sp.
Proof.
  induction nonces as [|i rest IH]; intros requested sp; simpl; [done|].
  destruct (currHighestMetaHdrNonce sp =? 0); [apply IH|].
  destruct (GetMetaHeaderFromPoolWithNonce env i (world sp)) as [?|[mb h]];
    [apply IH|].
  destruct (IH requested (insertHdrInfo h (mkHdrInfo false (HdrMeta mb)) sp))
    as [Hs Hw].
  split; [|by rewrite Hw]. eapply sameSignalState_trans; [|exact Hs]. done.
Qed.

Lemma requestFinalMissingHeaders_signal (sp : shardProcessor W) :
  sameSignalState sp (requestFinalMissingHeaders env sp).2.
Proof. apply requestFinalMissingHeadersLoop_signal. Qed.

(** What one run of the critical section of [receivedMetaBlock] can do to
    the channel. *)
Lemma receivedMetaBlockLocked_cases hash m (sp : shardProcessor W) :
  let sp' := receivedMetaBlockLocked env hash m sp in
  (nothingMissing sp → sp' = sp)
  ∧ (chRcvAllMetaHdrs sp' = chRcvAllMetaHdrs sp
     ∨ (chRcvAllMetaHdrs sp' = S (chRcvAllMetaHdrs sp)
        ∧ ¬ nothingMissing sp ∧ nothingMissing sp')).
Proof.
  unfold receivedMetaBlockLocked, nothingMissing.
  destruct ((0 <? missingHdrs (hdrsForCurrBlock sp))
            || (0 <? missingFinalHdrs (hdrsForCurrBlock sp))) eqn:Hguard.
  2:{ simpl. split; [done|by left]. }
  apply orb_true_iff in Hguard.
  set (sp1 := match hdrHashAndInfo (hdrsForCurrBlock sp) !! hash with
              | Some _ => _ | None => _ end).
  assert (chRcvAllMetaHdrs sp1 = chRcvAllMetaHdrs sp) as Hch1.
  { unfold sp1. destruct (_ !! hash) as [info|]; [|done].
    destruct (isNilHeader (hdr info)); [|done].
    match goal with |- context [if ?b then _ else _] => destruct b end;
      reflexivity. }
  set (sp2 := if missingHdrs (hdrsForCurrBlock sp1) =? 0 then _ else sp1).
  assert (chRcvAllMetaHdrs sp2 = chRcvAllMetaHdrs sp) as Hch2.
  { unfold sp2. destruct (_ =? 0); [|done].
    pose proof (requestFinalMissingHeaders_signal sp1) as (_ & _ & Hc).
    destruct (requestFinalMissingHeaders env sp1) as [n sp'']. simpl in *.
    congruence. }
  simpl. split.
  { intros [H1 H2]. rewrite H1, H2 in Hguard. destruct Hguard; done. }
  destruct (Z.eqb_spec (missingHdrs (hdrsForCurrBlock sp2)) 0) as [Hm|Hm];
    [|left; done].
  destruct (Z.eqb_spec (missingFinalHdrs (hdrsForCurrBlock sp2)) 0) as [Hf|Hf];
    [|left; done].
  right. simpl. split; [by rewrite Hch2|]. split; [|done].
  intros [H1 H2]. rewrite H1, H2 in Hguard. destruct Hguard; done.
Qed.

Lemma receivedMetaBlock_cases hash (sp : shardProcessor W) :
  let sp' := receivedMetaBlock env hash sp in
  (nothingMissing sp →
   hdrsForCurrBlock sp' = hdrsForCurrBlock sp
   ∧ chRcvAllMetaHdrs sp' = chRcvAllMetaHdrs sp)
  ∧ (chRcvAllMetaHdrs sp' = chRcvAllMetaHdrs sp
     ∨ (chRcvAllMetaHdrs sp' = S (chRcvAllMetaHdrs sp)
        ∧ ¬ nothingMissing sp ∧ nothingMissing sp')).
Proof.
  unfold receivedMetaBlock.
  destruct (hasMetaBlocksPool env (world sp)); simpl; [|by split; [|left]].
  destruct (metaBlocks_Peek env hash (world sp)) as [[| |m]|];
    try (by split; [|left]).
  pose proof (receivedMetaBlockLocked_cases hash m sp) as [Hz Hc].
  simpl in Hz, Hc.
  set (sp1 := receivedMetaBlockLocked env hash m sp) in *.
  assert (∀ sp2, (sp2 = sp1 ∨ ∃ f, sp2 = doWorld f sp1) →
    (nothingMissing sp →
      hdrsForCurrBlock sp2 = hdrsForCurrBlock sp
      ∧ chRcvAllMetaHdrs sp2 = chRcvAllMetaHdrs sp)
    ∧ (chRcvAllMetaHdrs sp2 = chRcvAllMetaHdrs sp
       ∨ (chRcvAllMetaHdrs sp2 = S (chRcvAllMetaHdrs sp)
          ∧ ¬ nothingMissing sp ∧ nothingMissing sp2))) as Hgen.
  { intros sp2 [->|[f ->]]; (split; [intros Hn; by rewrite (Hz Hn)|]);
      exact Hc. }
  destruct (getLastNotarizedHdr env MetachainShardId (world sp1)) as [?|lastH];
    [apply Hgen; by left|].
  destruct (_ <=? _); [apply Hgen; by left|].
  destruct (_ <=? _); [apply Hgen; by left|].
  apply Hgen. right. eauto.
Qed.

(** The selector changes neither the counters nor the channel. *)
Lemma selectorStep_signal maxItems round haveTime ordered i x st :
  sameSignalState (sel_sp st)
    (sel_sp (selectorStep env maxItems round haveTime ordered i x st).2).
Proof.
  unfold selectorStep.
  destruct (hh_hdr x) as [| |m]; try done.
  destruct (isHdrConstructionValid env (HdrMeta m) (sel_lastMetaHdr st)); [done|].
  destruct (negb _); [done|].
  destruct (_ =? _)%nat; [done|].
  destruct (_ <=? _); [done|].
  destruct (_ && _); [|done].
  unfold onWorld.
  destruct (txc_CreateMbsAndProcessCrossShardTransactionsDstMe _ _ _ _ _ _ _ _)
    as [[[mbs n] fin] w'].
  destruct (0 <? n); destruct fin; done.
Qed.

Lemma selectorLoop_signal maxItems round haveTime ordered rest :
  ∀ i st,
    sameSignalState (sel_sp st)
      (sel_sp (selectorLoop env maxItems round haveTime ordered i rest st)).
Proof.
  induction rest as [|x rest IH]; intros i st; simpl; [done|].
  unfold selectorMayStart, onWorld.
  destruct (haveTime (world (sel_sp st))) as [t w1].
  destruct t; simpl; [|done].
  destruct (_ <=? _); [done|]. destruct (_ <=? _); [done|]. simpl.
  set (st1 := mkSelectorState _ _ _ _ _).
  pose proof (selectorStep_signal maxItems round haveTime ordered i x st1) as Hs.
  destruct (selectorStep env maxItems round haveTime ordered i x st1) as [cont st2].
  simpl in Hs. destruct cont; [|exact Hs].
  eapply sameSignalState_trans; [exact Hs|apply IH].
Qed.

Lemma createAndProcessCrossMiniBlocksDstMe_signal noShards maxItems round haveTime
      (sp : shardProcessor W) :
  sameSignalState sp
    (createAndProcessCrossMiniBlocksDstMe env noShards maxItems round haveTime sp).2.
Proof.
  unfold createAndProcessCrossMiniBlocksDstMe.
  destruct (getOrderedMetaBlocks env round sp); [done|].
  destruct (getLastNotarizedHdr env MetachainShardId (world sp)); [done|].
  simpl. apply (selectorLoop_signal _ _ _ _ _ 0%nat (mkSelectorState [] 0 0 _ sp)).
Qed.

Lemma runCycleEvent_cases (e : CycleEvent W) (sp : shardProcessor W) :
  let sp' := runCycleEvent env e sp in
  (nothingMissing sp →
   nothingMissing sp' ∧ chRcvAllMetaHdrs sp' = chRcvAllMetaHdrs sp)
  ∧ (chRcvAllMetaHdrs sp' = chRcvAllMetaHdrs sp
     ∨ (chRcvAllMetaHdrs sp' = S (chRcvAllMetaHdrs sp) ∧ nothingMissing sp')).
Proof.
  destruct e as [[f|hash]| |noShards maxItems round haveTime]; simpl.
  - split; [done|by left].
  - pose proof (receivedMetaBlock_cases hash sp) as [Hz Hc]. simpl in *.
    split.
    + intros Hn. destruct (Hz Hn) as [Ht Hch]. split; [|done].
      unfold nothingMissing. by rewrite Ht.
    + destruct Hc as [?|(?&_&?)]; [by left|by right].
  - split; [done|by left].
  - pose proof (createAndProcessCrossMiniBlocksDstMe_signal noShards maxItems
                  round haveTime sp) as (H1 & H2 & H3).
    split; [|by left]. unfold nothingMissing. rewrite H1, H2. done.
Qed.

Lemma sends_none_when_nothing_missing (evs : list (CycleEvent W)) :
  ∀ sp : shardProcessor W, nothingMissing sp →
        sendsOfCycleEvents env evs sp = 0%nat
        ∧ nothingMissing (runCycleEvents env evs sp).
Proof.
  induction evs as [|e evs IH]; intros sp Hn; simpl; [done|].
  destruct (runCycleEvent_cases e sp) as [Hz _].
  destruct (Hz Hn) as [Hn' Hch]. destruct (IH _ Hn') as [Hs Hr].
  split; [|exact Hr]. rewrite Hch, Hs. lia.
Qed.

Lemma sends_at_most_once (evs : list (CycleEvent W)) :
  ∀ sp : shardProcessor W, (sendsOfCycleEvents env evs sp ≤ 1)%nat.
Proof.
  induction evs as [|e evs IH]; intros sp; simpl; [lia|].
  destruct (runCycleEvent_cases e sp) as [_ [Hch|[Hch Hn]]].
  - rewrite Hch. specialize (IH (runCycleEvent env e sp)). lia.
  - destruct (sends_none_when_nothing_missing evs _ Hn) as [Hs _].
    rewrite Hch, Hs. lia.
Qed.

Lemma receivedMetaBlockLocked_quiet hash m (sp : shardProcessor W) :
  quiet sp → receivedMetaBlockLocked env hash m sp = sp.
Proof.
  intros [Hf Hall]. unfold receivedMetaBlockLocked. rewrite Hf. simpl.
  rewrite orb_false_r.
  destruct (Z.ltb_spec 0 (missingHdrs (hdrsForCurrBlock sp))) as [Hm|Hm]; [|done].
  assert ((missingHdrs (hdrsForCurrBlock sp) =? 0) = false) as Hne
    by (apply Z.eqb_neq; lia).
  destruct (hdrHashAndInfo (hdrsForCurrBlock sp) !! hash) as [info|] eqn:Hl.
  - rewrite (Hall _ _ Hl). rewrite Hne. by rewrite Hne.
  - rewrite Hne. by rewrite Hne.
Qed.

Lemma runPoolEvent_quiet (e : PoolEvent W) (sp : shardProcessor W) :
  quiet sp →
  quiet (runPoolEvent env e sp)
  ∧ chRcvAllMetaHdrs (runPoolEvent env e sp) = chRcvAllMetaHdrs sp.
Proof.
  intros Hq. destruct e as [f|hash]; simpl; [done|].
  unfold receivedMetaBlock.
  destruct (hasMetaBlocksPool env (world sp)); simpl; [|done].
  destruct (metaBlocks_Peek env hash (world sp)) as [[| |m]|]; try done.
  rewrite (receivedMetaBlockLocked_quiet hash m sp Hq).
  destruct (getLastNotarizedHdr env MetachainShardId (world sp)); [done|].
  destruct (_ <=? _); [done|]. destruct (_ <=? _); done.
Qed.

Lemma pool_events_quiet (evs : list (PoolEvent W)) :
  ∀ sp : shardProcessor W, quiet sp →
        sendsOfPoolEvents env evs sp = 0%nat
        ∧ quiet (runPoolEvents env evs sp).
Proof.
  unfold sendsOfPoolEvents.
  induction evs as [|e evs IH]; intros sp Hq; csimpl; [done|].
  destruct (runPoolEvent_quiet e sp Hq) as [Hq' Hch].
  destruct (IH _ Hq') as [Hs Hr]. split; [|exact Hr].
  rewrite Hch, Hs. lia.
Qed.

Lemma computeMissingAndExistingLoop_quiet hashes :
  ∀ missing (sp : shardProcessor W), quiet sp →
    quiet (computeMissingAndExistingLoop env hashes missing sp).2.
Proof.
  induction hashes as [|h rest IH]; intros missing sp Hq; simpl; [done|].
  destruct (GetMetaHeaderFromPool env h (world sp)) as [?|m].
  - apply IH. destruct Hq as [Hf Hall]. split; [done|]. exact Hall.
  - apply IH. destruct Hq as [Hf Hall].
    assert (quiet (insertHdrInfo h (mkHdrInfo true (HdrMeta m)) sp)) as Hq1.
    { split; [done|]. by apply insertHdrInfo_present. }
    destruct (_ <? _); [|done]. destruct Hq1 as [? Hall1]. split; [done|].
    exact Hall1.
Qed.


End SignalFacts.

(** In the scenario with metablock 10 on its way the signal is sent, and
    only once. *)
Example refArrivals_send_once :
  sendsOfCycleEvents refCollaborators refArrivals
    (requestMetaHeaders refCollaborators refHeader
       (CreateBlockStarted refCollaborators refProcessorMissing)).2 = 1%nat.
Proof. vm_compute. reflexivity. Qed.


(** ** Restore after commit *)


(** * Further properties *)

(** ** The processed-miniblocks ledger *)

Lemma bool_eq_iff (a b : bool) : (a = true ↔ b = true) → a = b.
Proof. destruct a, b; intuition congruence. Qed.

Ltac bool_to_prop :=
  apply bool_eq_iff;
  rewrite ?orb_true_iff, ?andb_true_iff, ?negb_true_iff,
    ?bool_decide_eq_true, ?bool_decide_eq_false,
    ?elem_of_union, ?elem_of_difference, ?elem_of_singleton.

Section LedgerFacts.

Context {W : Type}.

(** X1.  After [addProcessedMiniBlock m b], [isMiniBlockProcessed] answers
    true for the pair of [m] and [b], and as before for every other pair. *)
Theorem addProcessedMiniBlock_lookup (m b m' b' : string)
        (sp : shardProcessor W) :
  isMiniBlockProcessed m' b' (addProcessedMiniBlock m b sp)
  = isMiniBlockProcessed m' b' sp || bool_decide (m' = m ∧ b' = b).
Proof.
  unfold isMiniBlockProcessed, addProcessedMiniBlock.
  destruct (processedMiniBlocks sp !! m) as [s|] eqn:Hm; simpl;
    (destruct (decide (m' = m)) as [->|Hne];
     [rewrite lookup_insert_eq, ?Hm | rewrite lookup_insert_ne by done]).
  - bool_to_prop. tauto.
  - destruct (processedMiniBlocks sp !! m'); bool_to_prop; intuition congruence.
  - bool_to_prop. intuition congruence.
  - destruct (processedMiniBlocks sp !! m'); bool_to_prop; intuition congruence.
Qed.

(** X2.  [removeProcessedMiniBlock b] makes [b] unprocessed under every
    metablock, changes no other answer, and removes the entry of no
    metablock.  [removeAllProcessedMiniBlocks m] makes every miniblock
    unprocessed under [m], drops the entry of [m], and changes no answer
    under another metablock. *)
Theorem ledger_removals_lookup (b m m' b' : string) (sp : shardProcessor W) :
  isMiniBlockProcessed m' b' (removeProcessedMiniBlock b sp)
  = isMiniBlockProcessed m' b' sp && negb (bool_decide (b' = b))
  ∧ (is_Some (getProcessedMiniBlocksHashes m' (removeProcessedMiniBlock b sp))
     ↔ is_Some (getProcessedMiniBlocksHashes m' sp))
  ∧ isMiniBlockProcessed m' b' (removeAllProcessedMiniBlocks m sp)
    = (if decide (m' = m) then false else isMiniBlockProcessed m' b' sp)
  ∧ getProcessedMiniBlocksHashes m (removeAllProcessedMiniBlocks m sp) = None.
Proof.
  unfold isMiniBlockProcessed, removeProcessedMiniBlock,
    removeAllProcessedMiniBlocks, getProcessedMiniBlocksHashes; simpl.
  rewrite lookup_fmap. split_and!.
  - destruct (processedMiniBlocks sp !! m') as [s|]; simpl; [|done].
    bool_to_prop. tauto.
  - by rewrite fmap_is_Some.
  - destruct (decide (m' = m)) as [->|Hne].
    + by rewrite lookup_delete_eq.
    + by rewrite lookup_delete_ne.
  - apply lookup_delete_eq.
Qed.

End LedgerFacts.

(** ** Sorting the table *)

Section SortFacts.

Context {A : Type} (key : A → Z).

Lemma insertByKey_Permutation (x : A) (l : list A) :
  insertByKey key x l ≡ₚ x :: l.
Proof.
  induction l as [|y l IH]; simpl; [done|].
  destruct (key y <=? key x); [|done].
  rewrite IH. apply perm_swap.
Qed.

Lemma sortByKey_Permutation (l : list A) : sortByKey key l ≡ₚ l.
Proof.
  unfold sortByKey.
  assert (∀ acc, foldl (λ acc x, insertByKey key x acc) acc l ≡ₚ acc ++ l) as H.
  { induction l as [|x l IH]; intros acc; simpl.
    - by rewrite app_nil_r.
    - rewrite IH, insertByKey_Permutation. simpl. apply Permutation_middle. }
  apply (H []).
Qed.

Lemma insertByKey_sorted (x : A) (l : list A) :
  StronglySorted (λ a b, key a ≤ key b) l →
  StronglySorted (λ a b, key a ≤ key b) (insertByKey key x l).
Proof.
  induction 1 as [|y l Hs IH Hy]; simpl.
  - repeat constructor.
  - destruct (Z.leb_spec (key y) (key x)).
    + constructor; [done|].
      rewrite insertByKey_Permutation. by constructor.
    + constructor; [by constructor|].
      constructor; [lia|].
      eapply Forall_impl; [exact Hy|]. simpl. intros; lia.
Qed.

Lemma sortByKey_sorted (l : list A) :
  StronglySorted (λ a b, key a ≤ key b) (sortByKey key l).
Proof.
  unfold sortByKey.
  assert (∀ acc, StronglySorted (λ a b, key a ≤ key b) acc →
            StronglySorted (λ a b, key a ≤ key b)
              (foldl (λ acc x, insertByKey key x acc) acc l)) as H.
  { induction l as [|x l IH]; intros acc Hacc; simpl; [done|].
    apply IH. by apply insertByKey_sorted. }
  apply H. constructor.
Qed.

Lemma sortByKey_elem_of (x : A) (l : list A) : x ∈ sortByKey key l ↔ x ∈ l.
Proof. by rewrite sortByKey_Permutation. Qed.

End SortFacts.

Lemma StronglySorted_Forall_impl {A} (R R' : A → A → Prop) (P : A → Prop)
      (l : list A) :
  (∀ a b, P a → P b → R a b → R' a b) →
  Forall P l → StronglySorted R l → StronglySorted R' l.
Proof.
  intros HR HP Hs. induction Hs as [|x l Hs IH Hx]; [constructor|].
  apply Forall_cons in HP as [Px HP].
  constructor; [by apply IH|].
  rewrite Forall_forall in *. intros y Hy. apply HR; auto.
Qed.

Section TableSortFacts.

Context {W : Type}.

Lemma collectHdrsForCurrentBlock_inr (flag : bool)
      (entries : list (string * hdrInfo)) (l : list MetaBlock.t) :
  collectHdrsForCurrentBlock flag entries = inr l →
  ∀ m, m ∈ l ↔ ∃ k, (k, mkHdrInfo flag (HdrMeta m)) ∈ entries.
Proof.
  revert l. induction entries as [|[k [u h]] rest IH]; intros l; simpl.
  - intros [= <-] m. split; [by intros ?%elem_of_nil|].
    by intros [? ?%elem_of_nil].
  - destruct (eqb_spec u flag) as [->|Hne]; simpl.
    + destruct h as [| |m0]; try discriminate.
      destruct (collectHdrsForCurrentBlock flag rest) as [|l0]; [discriminate|].
      intros [= <-] m. rewrite elem_of_cons, (IH l0 eq_refl m).
      split.
      * intros [->|[k' Hk']]; [exists k; left|exists k'; right]; done.
      * intros [k' [Heq|Hin]%elem_of_cons]; [left; congruence|right; eauto].
    + intros Hc m. rewrite (IH l Hc m).
      split; intros [k' Hk']; exists k'.
      * by right.
      * apply elem_of_cons in Hk' as [Heq|Hin]; [congruence|done].
Qed.

Lemma collectHdrsForCurrentBlock_inl (flag : bool)
      (entries : list (string * hdrInfo)) (err : Error) :
  collectHdrsForCurrentBlock flag entries = inl err →
  err = ErrWrongTypeAssertion
  ∧ ∃ k info, (k, info) ∈ entries ∧ usedInBlock info = flag
              ∧ ∀ m, hdr info ≠ HdrMeta m.
Proof.
  induction entries as [|[k [u h]] rest IH]; simpl; [discriminate|].
  destruct (eqb_spec u flag) as [->|Hne]; simpl.
  - destruct h as [| |m0].
    + intros [= <-]. split; [done|]. exists k, (mkHdrInfo flag HdrNil).
      split; [by left|done].
    + intros [= <-]. split; [done|]. exists k, (mkHdrInfo flag (HdrShard h)).
      split; [by left|done].
    + destruct (collectHdrsForCurrentBlock flag rest) as [e|l0]; [|discriminate].
      intros [= <-]. destruct (IH eq_refl) as [-> (k' & info & Hin & Hu & Hm)].
      split; [done|]. exists k', info. split; [by right|done].
  - intros Hc. destruct (IH Hc) as [-> (k' & info & Hin & Hu & Hm)].
    split; [done|]. exists k', info. split; [by right|done].
Qed.

Lemma collectHdrsForCurrentBlock_inr_exact (flag : bool)
      (entries : list (string * hdrInfo)) (l : list MetaBlock.t) :
  collectHdrsForCurrentBlock flag entries = inr l →
  (∀ k info, (k, info) ∈ entries → usedInBlock info = flag →
             ∃ m, hdr info = HdrMeta m)
  ∧ HdrMeta <$> l
    = (λ e : string * hdrInfo, hdr e.2)
        <$> filter (λ e : string * hdrInfo, usedInBlock e.2 = flag) entries.
Proof.
  revert l. induction entries as [|[k [u h]] rest IH]; intros l; simpl.
  - intros [= <-]. split; [|done]. by intros ? ? ?%elem_of_nil.
  - rewrite filter_cons. simpl.
    destruct (eqb_spec u flag) as [->|Hne]; simpl.
    + destruct h as [| |m0]; try discriminate.
      destruct (collectHdrsForCurrentBlock flag rest) as [|l0]; [discriminate|].
      intros [= <-]. destruct (IH l0 eq_refl) as [Hall Heq].
      rewrite decide_True by done. split.
      * intros k' info [[= -> ->]|Hin]%elem_of_cons Hu; [by exists m0|].
        by apply (Hall k').
      * csimpl. by rewrite Heq.
    + intros Hc. destruct (IH l Hc) as [Hall Heq].
      rewrite decide_False by done. split; [|done].
      intros k' info [[= -> ->]|Hin]%elem_of_cons Hu; [done|].
      by apply (Hall k').
Qed.

(** X4.  [sortHdrsForCurrentBlock flag] succeeds exactly when every entry
    of the table whose [usedInBlock] is [flag] holds a metablock, and fails
    with [ErrWrongTypeAssertion] otherwise.  On success it returns the
    metablocks of those entries, one for each entry, in ascending order of
    nonce. *)
Theorem sortHdrsForCurrentBlock_sorted_exact (flag : bool)
        (sp : shardProcessor W) :
  match sortHdrsForCurrentBlock flag sp with
  | inr l =>
      StronglySorted (λ a b, MetaBlock.Nonce a ≤ MetaBlock.Nonce b) l
      ∧ (∀ m, m ∈ l ↔
              ∃ hash, hdrHashAndInfo (hdrsForCurrBlock sp) !! hash
                      = Some (mkHdrInfo flag (HdrMeta m)))
      ∧ (∀ hash info,
           hdrHashAndInfo (hdrsForCurrBlock sp) !! hash = Some info →
           usedInBlock info = flag → ∃ m, hdr info = HdrMeta m)
      ∧ HdrMeta <$> l
        ≡ₚ (λ e : string * hdrInfo, hdr e.2)
             <$> filter (λ e : string * hdrInfo, usedInBlock e.2 = flag)
                   (map_to_list (hdrHashAndInfo (hdrsForCurrBlock sp)))
  | inl err =>
      err = ErrWrongTypeAssertion
      ∧ ∃ hash info,
          hdrHashAndInfo (hdrsForCurrBlock sp) !! hash = Some info
          ∧ usedInBlock info = flag ∧ ∀ m, hdr info ≠ HdrMeta m
  end.
Proof.
  unfold sortHdrsForCurrentBlock.
  destruct (collectHdrsForCurrentBlock flag _) as [err|l] eqn:Hc.
  - destruct (collectHdrsForCurrentBlock_inl _ _ _ Hc)
      as [-> (k & info & Hin & Hu & Hm)].
    split; [done|]. exists k, info. by rewrite <- elem_of_map_to_list.
  - destruct (collectHdrsForCurrentBlock_inr_exact _ _ _ Hc) as [Hall Heq].
    split_and!.
    + apply sortByKey_sorted.
    + intros m. rewrite sortByKey_elem_of.
      rewrite (collectHdrsForCurrentBlock_inr _ _ _ Hc m).
      by setoid_rewrite elem_of_map_to_list.
    + intros hash info Hl Hu. apply (Hall hash); [|done].
      by apply elem_of_map_to_list.
    + rewrite <- Heq. apply fmap_Permutation, sortByKey_Permutation.
Qed.

Lemma omap_flag_elem_of (flag : bool) (entries : list (string * hdrInfo))
      (x : nonceAndHashInfo) :
  x ∈ omap (λ e : string * hdrInfo,
              if negb (eqb (usedInBlock e.2) flag) then None
              else Some (mkNonceAndHashInfo e.1 (GetNonce (hdr e.2)))) entries
  ↔ ∃ info, (nh_hash x, info) ∈ entries ∧ usedInBlock info = flag
            ∧ nh_nonce x = GetNonce (hdr info).
Proof.
  rewrite list_elem_of_omap. split.
  - intros [[k info] [Hin Hx]]. simpl in Hx.
    destruct (eqb_spec (usedInBlock info) flag); simpl in Hx; [|discriminate].
    injection Hx as <-. simpl. eauto.
  - intros (info & Hin & Hu & Hn). exists (nh_hash x, info). split; [done|].
    simpl. rewrite Hu, eqb_reflx. simpl. destruct x; simpl in *. by rewrite Hn.
Qed.

(** X5.  On a table whose entries with the given flag all have a header,
    [sortHdrsHashesForCurrentBlock flag] returns the hashes of exactly
    those entries, each once, in ascending order of the nonce of the
    entry's header. *)
Theorem sortHdrsHashesForCurrentBlock_exact (flag : bool)
        (sp : shardProcessor W) :
  (∀ hash info, hdrHashAndInfo (hdrsForCurrBlock sp) !! hash = Some info →
                usedInBlock info = flag → hdr info ≠ HdrNil) →
  NoDup (sortHdrsHashesForCurrentBlock flag sp)
  ∧ (∀ hash, hash ∈ sortHdrsHashesForCurrentBlock flag sp ↔
             ∃ info, hdrHashAndInfo (hdrsForCurrBlock sp) !! hash = Some info
                     ∧ usedInBlock info = flag)
  ∧ StronglySorted (λ h h', nonceOfHash sp h ≤ nonceOfHash sp h')
      (sortHdrsHashesForCurrentBlock flag sp).
Proof.
  intros _. unfold sortHdrsHashesForCurrentBlock.
  set (f := λ e : string * hdrInfo,
              if negb (eqb (usedInBlock e.2) flag) then None
              else Some (mkNonceAndHashInfo e.1 (GetNonce (hdr e.2)))).
  set (tbl := hdrHashAndInfo (hdrsForCurrBlock sp)).
  split; [|split].
  - rewrite sortByKey_Permutation.
    assert (∀ entries : list (string * hdrInfo),
              NoDup entries.*1 → NoDup (nh_hash <$> omap f entries)) as H.
    { induction entries as [|[k info] rest IH]; simpl; [constructor|].
      intros [Hk Hrest]%NoDup_cons. unfold f at 1. simpl.
      destruct (negb _); simpl; [by apply IH|].
      constructor; [|by apply IH].
      intros (x & Hx1 & Hx2)%list_elem_of_fmap.
      apply omap_flag_elem_of in Hx2 as (info' & Hin & _).
      apply Hk. apply list_elem_of_fmap. exists (nh_hash x, info').
      split; [by rewrite Hx1|done]. }
    apply H, NoDup_fst_map_to_list.
  - intros hash. rewrite list_elem_of_fmap. split.
    + intros (x & -> & Hx). rewrite sortByKey_elem_of in Hx.
      apply omap_flag_elem_of in Hx as (info & Hin & Hu & _).
      exists info. split; [by apply elem_of_map_to_list|done].
    + intros (info & Hl & Hu).
      exists (mkNonceAndHashInfo hash (GetNonce (hdr info))). split; [done|].
      rewrite sortByKey_elem_of. apply omap_flag_elem_of. exists info. simpl.
      split; [by apply elem_of_map_to_list|done].
  - apply (StronglySorted_fmap _
             (λ x y, nonceOfHash sp (nh_hash x) ≤ nonceOfHash sp (nh_hash y)));
      [done|].
    eapply (StronglySorted_Forall_impl _ _
              (λ x, nonceOfHash sp (nh_hash x) = nh_nonce x));
      [| |apply sortByKey_sorted].
    + intros a b Ha Hb Hab. simpl in *. lia.
    + rewrite Forall_forall. intros x Hx. rewrite sortByKey_elem_of in Hx.
      apply omap_flag_elem_of in Hx as (info & Hin & _ & Hn).
      apply elem_of_map_to_list in Hin. unfold nonceOfHash. fold tbl.
      by rewrite Hin.
Qed.

End TableSortFacts.

(** ** Budgets and finality *)

Section BudgetFacts.

Context {W : Type} (env : Collaborators W).

Lemma int32_small (z : Z) : - 2 ^ 31 ≤ z < 2 ^ 31 → int32 z = z.
Proof.
  intros Hz. unfold int32.
  destruct (Z.ltb_spec (z mod 2 ^ 32) (2 ^ 31)) as [Hlt|Hge].
  - destruct (Z_lt_le_dec z 0) as [Hneg|Hpos].
    + assert (z mod 2 ^ 32 = z + 2 ^ 32) as Hm.
      { symmetry. apply (Z.mod_unique _ _ (-1)); lia. }
      lia.
    + apply Z.mod_small. lia.
  - destruct (Z_lt_le_dec z 0) as [Hneg|Hpos].
    + assert (z mod 2 ^ 32 = z + 2 ^ 32) as Hm.
      { symmetry. apply (Z.mod_unique _ _ (-1)); lia. }
      lia.
    + rewrite Z.mod_small in Hge by lia. lia.
Qed.

(** X3.  When the four quantities are below 2^31, so that no conversion
    to [int32] wraps, [getMaxMiniBlocksSpaceRemained] is the smaller of the
    room left for items and the room left for miniblocks, and it is
    positive exactly when there is room for both. *)
Theorem getMaxMiniBlocksSpaceRemained_in_range
        (maxItemsInBlock itemsAddedInBlock miniBlocksAddedInBlock : Z) :
  0 ≤ maxItemsInBlock < 2 ^ 31 →
  0 ≤ itemsAddedInBlock < 2 ^ 31 →
  0 ≤ miniBlocksAddedInBlock < 2 ^ 31 →
  0 ≤ MaxMiniBlocksInBlock env < 2 ^ 31 →
  getMaxMiniBlocksSpaceRemained env maxItemsInBlock itemsAddedInBlock
    miniBlocksAddedInBlock
  = Z.min (maxItemsInBlock - itemsAddedInBlock)
          (MaxMiniBlocksInBlock env - miniBlocksAddedInBlock)
  ∧ (0 < getMaxMiniBlocksSpaceRemained env maxItemsInBlock itemsAddedInBlock
           miniBlocksAddedInBlock
     ↔ itemsAddedInBlock < maxItemsInBlock
       ∧ miniBlocksAddedInBlock < MaxMiniBlocksInBlock env).
Proof.
  intros H1 H2 H3 H4. unfold getMaxMiniBlocksSpaceRemained.
  rewrite !int32_small by (rewrite ?int32_small; lia).
  split; [done|lia].
Qed.

End BudgetFacts.

(** X3 with ten items allowed, four added, and three miniblocks. *)
Lemma getMaxMiniBlocksSpaceRemained_in_range_witness :
  getMaxMiniBlocksSpaceRemained refCollaborators 10 4 3 = Z.min (10 - 4) (100 - 3)
  ∧ (0 < getMaxMiniBlocksSpaceRemained refCollaborators 10 4 3
     ↔ 4 < 10 ∧ 3 < MaxMiniBlocksInBlock refCollaborators).
Proof.
  apply (getMaxMiniBlocksSpaceRemained_in_range refCollaborators 10 4 3);
    simpl; lia.
Defined.

Section FinalityMoreFacts.

Context {W : Type} (env : Collaborators W).

Lemma isMetaHeaderFinalFrom_enough (K : Z) (l : list hashAndHdr)
      (lastVerified : HeaderHandler) (n : Z) :
  K ≤ n → isMetaHeaderFinalFrom env K l lastVerified n = true.
Proof.
  intros Hn. apply Z.leb_le in Hn. destruct l; simpl; by rewrite Hn.
Qed.

Lemma isMetaHeaderFinalFrom_loop (K : Z) (finalMetaHdrs : list MetaBlock.t) :
  ∀ (sortedHdrs : list hashAndHdr) (lastVerified : HeaderHandler) (n : Z),
    hh_hdr <$> sortedHdrs = HdrMeta <$> finalMetaHdrs →
    isMetaHeaderFinalFrom env K sortedHdrs lastVerified n
    = (K <=? (checkMetaHdrFinalityLoop env K finalMetaHdrs lastVerified n).2).
Proof.
  induction finalMetaHdrs as [|m rest IH]; intros [|x xs] lastV n Heq;
    try discriminate; simpl; [done|].
  injection Heq as Hx Hxs. rewrite Hx. simpl.
  destruct (Z.leb_spec K n) as [Hle|Hgt]; simpl.
  - symmetry. by apply Z.leb_le.
  - destruct (_ =? _); [|by apply IH].
    destruct (isHdrConstructionValid env _ _); by apply IH.
Qed.

(** X6.  The two finality evaluators agree.  On the same candidate
    and the same list of successor metablocks, [isMetaHeaderFinal] from
    position 0 says final exactly when the check of [checkMetaHdrFinality]
    accepts, whatever the base processor's construction check is. *)
Theorem finality_evaluators_agree (sp : shardProcessor W) (H : HeaderHandler)
        (sortedHdrs : list hashAndHdr) (finalMetaHdrs : list MetaBlock.t) :
  H ≠ HdrNil →
  hh_hdr <$> sortedHdrs = HdrMeta <$> finalMetaHdrs →
  (isMetaHeaderFinal env sp H (Some sortedHdrs) 0 = true
   ↔ checkMetaHdrFinalityOn env (metaBlockFinality sp) H finalMetaHdrs = None).
Proof.
  intros Hnil Heq. unfold isMetaHeaderFinal, checkMetaHdrFinalityOn.
  destruct H; [done| |]; simpl; rewrite drop_0;
    rewrite (isMetaHeaderFinalFrom_loop _ finalMetaHdrs) by done;
    destruct (checkMetaHdrFinalityLoop _ _ _ _ _) as [lastV n]; simpl;
    rewrite Z.leb_le; destruct (Z.ltb_spec n (metaBlockFinality sp));
    (split; [intros; (done || lia)|intros; (done || lia)]).
Qed.

Lemma isMetaHeaderFinalFrom_antitone (l : list hashAndHdr) :
  ∀ (K K' : Z) (lastVerified : HeaderHandler) (n n' : Z),
    K' - n' ≤ K - n →
    isMetaHeaderFinalFrom env K l lastVerified n = true →
    isMetaHeaderFinalFrom env K' l lastVerified n' = true.
Proof.
  induction l as [|x rest IH]; intros K K' lastV n n' Hle; simpl.
  - rewrite !Z.leb_le. lia.
  - destruct (Z.leb_spec K n) as [HK|HK];
      destruct (Z.leb_spec K' n') as [HK'|HK']; try done; try lia.
    destruct (_ =? _); [|by apply IH].
    destruct (isHdrConstructionValid env _ _); apply IH; lia.
Qed.

Lemma isMetaHeaderFinalFrom_app (K : Z) (l l' : list hashAndHdr) :
  ∀ (lastVerified : HeaderHandler) (n : Z),
    isMetaHeaderFinalFrom env K l lastVerified n = true →
    isMetaHeaderFinalFrom env K (l ++ l') lastVerified n = true.
Proof.
  induction l as [|x rest IH]; intros lastV n; simpl.
  - rewrite Z.leb_le. apply isMetaHeaderFinalFrom_enough.
  - destruct (K <=? n); [done|].
    destruct (_ =? _); [|by apply IH].
    destruct (isHdrConstructionValid env _ _); by apply IH.
Qed.

(** X7.  A header that [isMetaHeaderFinal] declares final stays
    final when the finality parameter is lowered and when more headers are
    appended to the list. *)
Theorem isMetaHeaderFinal_monotone (sp sp' : shardProcessor W)
        (currHdr : HeaderHandler) (sortedHdrs more : list hashAndHdr)
        (startPos : nat) :
  metaBlockFinality sp' ≤ metaBlockFinality sp →
  isMetaHeaderFinal env sp currHdr (Some sortedHdrs) startPos = true →
  isMetaHeaderFinal env sp' currHdr (Some (sortedHdrs ++ more)) startPos = true.
Proof.
  unfold isMetaHeaderFinal. intros HK.
  destruct (isNilHeader currHdr); [done|]. intros Hfinal.
  rewrite drop_app. apply isMetaHeaderFinalFrom_app.
  eapply isMetaHeaderFinalFrom_antitone; [|exact Hfinal]. lia.
Qed.

End FinalityMoreFacts.

(** ** Validity of the used metablocks, confirmation of cross-shard miniblocks *)

Section ValidityFacts.

Context {W : Type} (env : Collaborators W).

Lemma from_option_last_cons (m : MetaBlock.t) (rest : list MetaBlock.t)
      (prev : HeaderHandler) :
  from_option HdrMeta (HdrMeta m) (last rest)
  = from_option HdrMeta prev (last (m :: rest)).
Proof.
  destruct rest as [|m1 r]; [done|]. rewrite last_cons_cons.
  destruct (last (m1 :: r)) eqn:Hl; [done|]. by apply last_None in Hl.
Qed.

Lemma checkUsedMetaHdrs_inr (usedMetaHdrs : list MetaBlock.t) :
  ∀ (prev h : HeaderHandler),
    checkUsedMetaHdrs env usedMetaHdrs prev = inr h
    ↔ (∀ i m, usedMetaHdrs !! i = Some m →
              isHdrConstructionValid env (HdrMeta m)
                (checkedAgainst prev usedMetaHdrs i) = None)
      ∧ h = from_option HdrMeta prev (last usedMetaHdrs).
Proof.
  induction usedMetaHdrs as [|m rest IH]; intros prev h; simpl.
  - split.
    + intros [= <-]. split; [|done]. intros i m Hi. by destruct i.
    + intros [_ ->]. done.
  - destruct (isHdrConstructionValid env (HdrMeta m) prev) eqn:Hv.
    + split; [discriminate|]. intros [Hall _].
      specialize (Hall O m eq_refl). simpl in Hall. congruence.
    + rewrite IH. split.
      * intros [Hall ->]. split.
        -- intros [|i] m' Hi; [injection Hi as <-; exact Hv|].
           change (rest !! i = Some m') in Hi.
           specialize (Hall i m' Hi). destruct i as [|j]; [exact Hall|].
           simpl in *.
           destruct (rest !! j) eqn:Hj; [exact Hall|].
           apply lookup_lt_Some in Hi. apply lookup_ge_None in Hj. lia.
        -- apply from_option_last_cons.
      * intros [Hall ->]. split.
        -- intros i m' Hi. specialize (Hall (S i) m' Hi).
           destruct i as [|j]; [exact Hall|]. simpl in *.
           destruct (rest !! j) eqn:Hj; [exact Hall|].
           apply lookup_lt_Some in Hi. apply lookup_ge_None in Hj. lia.
        -- symmetry. apply from_option_last_cons.
Qed.

(** X8.  When the last notarized metablock is known and the used
    headers of the table are all present,
    [checkMetaHeadersValidityAndFinality] accepts exactly when no header is
    used, or the used headers in ascending order of nonce form a chain in
    which each is construction-valid against its predecessor (the first
    against the last notarized header) and the last of them passes
    [checkMetaHdrFinality]. *)
Theorem checkMetaHeadersValidityAndFinality_accepts (sp : shardProcessor W)
        (lastNotarized : HeaderHandler) (usedMetaHdrs : list MetaBlock.t) :
  getLastNotarizedHdr env MetachainShardId (world sp) = inr lastNotarized →
  sortHdrsForCurrentBlock true sp = inr usedMetaHdrs →
  (checkMetaHeadersValidityAndFinality env sp = None
   ↔ usedMetaHdrs = []
     ∨ ((∀ i m, usedMetaHdrs !! i = Some m →
                isHdrConstructionValid env (HdrMeta m)
                  (checkedAgainst lastNotarized usedMetaHdrs i) = None)
        ∧ checkMetaHdrFinality env sp
            (from_option HdrMeta lastNotarized (last usedMetaHdrs)) = None)).
Proof.
  intros Hlast Hsort. unfold checkMetaHeadersValidityAndFinality.
  rewrite Hlast, Hsort.
  destruct usedMetaHdrs as [|m rest]; simpl length; simpl Nat.eqb; cbv iota.
  - split; [by left|done].
  - destruct (checkUsedMetaHdrs env (m :: rest) lastNotarized) as [err|h] eqn:Hc.
    + split; [discriminate|]. intros [|[Hall Hf]]; [done|].
      assert (checkUsedMetaHdrs env (m :: rest) lastNotarized
              = inr (from_option HdrMeta lastNotarized (last (m :: rest)))) as Hc'
        by (by apply checkUsedMetaHdrs_inr).
      congruence.
    + apply checkUsedMetaHdrs_inr in Hc as [Hall ->].
      split; [by right|]. by intros [|[_ Hf]].
Qed.

Lemma miniBlockMetaHashes_lookup (round : Z) (lastHdr : HeaderHandler)
      (entries : list (string * hdrInfo)) :
  ∀ (acc : gmap string string) (hash : string),
    is_Some
      (foldl
         (λ (miniBlockMetaHashes : gmap string string) (e : string * hdrInfo),
            if negb (usedInBlock e.2) then miniBlockMetaHashes
            else match hdr e.2 with
                 | HdrMeta hdr =>
                     if round <? MetaBlock.Round hdr then miniBlockMetaHashes
                     else if MetaBlock.Round hdr <=? GetRound lastHdr
                     then miniBlockMetaHashes
                     else if MetaBlock.Nonce hdr <=? GetNonce lastHdr
                     then miniBlockMetaHashes
                     else
                       ((λ _ : Z, e.1)
                          <$> meta_GetMiniBlockHeadersWithDst env hdr (SelfId env))
                       ∪ miniBlockMetaHashes
                 | _ => miniBlockMetaHashes
                 end)
         acc entries !! hash)
    ↔ is_Some (acc !! hash)
      ∨ ∃ metaHash m,
          (metaHash, mkHdrInfo true (HdrMeta m)) ∈ entries
          ∧ inWindow round lastHdr m
          ∧ is_Some (meta_GetMiniBlockHeadersWithDst env m (SelfId env) !! hash).
Proof.
  induction entries as [|[k [u h]] rest IH]; intros acc hash.
  - simpl. split; [by left|]. intros [|(? & ? & ?%elem_of_nil & _)]; done.
  - cbn [foldl]. rewrite IH. clear IH. simpl.
    assert (∀ P : Prop,
              (P ∨ ∃ metaHash m,
                 (metaHash, mkHdrInfo true (HdrMeta m)) ∈ (k, mkHdrInfo u h) :: rest
                 ∧ inWindow round lastHdr m
                 ∧ is_Some (meta_GetMiniBlockHeadersWithDst env m (SelfId env)
                            !! hash))
              ↔ ((P ∨ (u = true ∧ ∃ m, h = HdrMeta m ∧ inWindow round lastHdr m
                        ∧ is_Some (meta_GetMiniBlockHeadersWithDst env m
                                     (SelfId env) !! hash)))
                 ∨ ∃ metaHash m,
                     (metaHash, mkHdrInfo true (HdrMeta m)) ∈ rest
                     ∧ inWindow round lastHdr m
                     ∧ is_Some (meta_GetMiniBlockHeadersWithDst env m
                                  (SelfId env) !! hash))) as Hsplit.
    { intros P. split.
      - intros [HP|(mh & m & [Heq|Hin]%elem_of_cons & Hw & Hs)].
        + by left; left.
        + injection Heq as ? ? ?; subst. left; right. eauto.
        + right. eauto.
      - intros [[HP|(-> & m & -> & Hw & Hs)]|(mh & m & Hin & Hw & Hs)].
        + by left.
        + right. exists k, m. split; [by left|done].
        + right. exists mh, m. split; [by right|done]. }
    rewrite Hsplit. clear Hsplit.
    apply or_iff_compat_r.
    unfold inWindow.
    destruct u; simpl.
    + destruct h as [| |m]; simpl.
      * split; [by left|]. by intros [|(_ & ? & ? & _)].
      * split; [by left|]. by intros [|(_ & ? & ? & _)].
      * destruct (Z.ltb_spec round (MetaBlock.Round m));
          [|destruct (Z.leb_spec (MetaBlock.Round m) (GetRound lastHdr));
            [|destruct (Z.leb_spec (MetaBlock.Nonce m) (GetNonce lastHdr))]].
        -- split; [by left|]. intros [|(_ & m' & [= <-] & ? & _)]; [done|lia].
        -- split; [by left|]. intros [|(_ & m' & [= <-] & ? & _)]; [done|lia].
        -- split; [by left|]. intros [|(_ & m' & [= <-] & ? & _)]; [done|lia].
        -- rewrite lookup_union_is_Some, lookup_fmap, fmap_is_Some.
           split.
           ++ intros [Hs|Hacc]; [right|by left].
              split; [done|]. exists m. repeat split; (done || lia).
           ++ intros [Hacc|(_ & m' & [= <-] & _ & Hs)]; [by right|by left].
    + split; [by left|]. by intros [|[? _]].
Qed.

(** X9.  When the last notarized metablock is known,
    [verifyCrossShardMiniBlockDstMe] accepts a header exactly when every
    cross-shard miniblock hash of the header is listed, for the self shard,
    by some used metablock of the table whose round is not above the
    header's and whose round and nonce are above those of the last
    notarized metablock; its only own error is
    [ErrCrossShardMBWithoutConfirmationFromMeta]. *)
Theorem verifyCrossShardMiniBlockDstMe_accepts (hdr : Header.t)
        (sp : shardProcessor W) (lastHdr : HeaderHandler) :
  getLastNotarizedHdr env MetachainShardId (world sp) = inr lastHdr →
  (verifyCrossShardMiniBlockDstMe env hdr sp = None
   ↔ ∀ hash,
       is_Some (hdr_GetMiniBlockHeadersWithDst env hdr (SelfId env) !! hash) →
       ∃ metaHash m,
         hdrHashAndInfo (hdrsForCurrBlock sp) !! metaHash
         = Some (mkHdrInfo true (HdrMeta m))
         ∧ inWindow (Header.Round hdr) lastHdr m
         ∧ is_Some (meta_GetMiniBlockHeadersWithDst env m (SelfId env) !! hash))
  ∧ (verifyCrossShardMiniBlockDstMe env hdr sp ≠ None →
     verifyCrossShardMiniBlockDstMe env hdr sp
     = Some ErrCrossShardMBWithoutConfirmationFromMeta).
Proof.
  intros Hlast.
  unfold verifyCrossShardMiniBlockDstMe, getAllMiniBlockDstMeFromMeta.
  rewrite Hlast.
  match goal with
  | |- context [foldl ?f ∅ ?l] => set (confirmed := foldl f ∅ l)
  end.
  assert (∀ hash,
            is_Some (confirmed !! hash)
            ↔ ∃ metaHash m,
                hdrHashAndInfo (hdrsForCurrBlock sp) !! metaHash
                = Some (mkHdrInfo true (HdrMeta m))
                ∧ inWindow (Header.Round hdr) lastHdr m
                ∧ is_Some (meta_GetMiniBlockHeadersWithDst env m (SelfId env)
                           !! hash)) as Hconfirmed.
  { intros hash. unfold confirmed. rewrite miniBlockMetaHashes_lookup.
    setoid_rewrite elem_of_map_to_list. rewrite lookup_empty.
    split; [intros [[? ?]|?]; done|by right]. }
  clearbody confirmed.
  set (crossMiniBlockHashes :=
         hdr_GetMiniBlockHeadersWithDst env hdr (SelfId env)).
  assert (forallb (λ e : string * Z,
                     match confirmed !! e.1 with
                     | Some _ => true
                     | None => false
                     end) (map_to_list crossMiniBlockHashes) = true
          ↔ ∀ hash, is_Some (crossMiniBlockHashes !! hash) →
                    is_Some (confirmed !! hash)) as Hall.
  { rewrite forallb_forall. split.
    - intros Hall hash [z Hz].
      specialize (Hall (hash, z)). simpl in Hall.
      destruct (confirmed !! hash); [done|].
      discriminate Hall. by apply list_elem_of_In, elem_of_map_to_list.
    - intros Hall [hash z] Hin%list_elem_of_In%elem_of_map_to_list. simpl.
      destruct (Hall hash) as [s ->]; [eauto|done]. }
  destruct (forallb _ _).
  - split; [|done]. split; [intros _|done].
    intros hash Hhash. apply Hconfirmed, Hall; done.
  - split; [|done]. split; [discriminate|]. intros Hconf.
    exfalso. assert (false = true) as Habs; [|discriminate Habs].
    apply Hall. intros hash Hhash. by apply Hconfirmed, Hconf.
Qed.

Lemma getOrderedMetaBlocks_inr (round : Z) (sp : shardProcessor W)
      (orderedMetaBlocks : list hashAndHdr) :
  getOrderedMetaBlocks env round sp = inr orderedMetaBlocks →
  ∃ lastHdr,
    getLastNotarizedHdr env MetachainShardId (world sp) = inr lastHdr
    ∧ StronglySorted (λ x y, GetNonce (hh_hdr x) ≤ GetNonce (hh_hdr y))
        orderedMetaBlocks
    ∧ ∀ x, x ∈ orderedMetaBlocks ↔
           ∃ m, x = mkHashAndHdr (HdrMeta m) (hh_hash x)
                ∧ hh_hash x ∈ metaBlocks_Keys env (world sp)
                ∧ metaBlocks_Peek env (hh_hash x) (world sp)
                  = Some (HdrMeta m)
                ∧ inWindow round lastHdr m.
Proof.
  unfold getOrderedMetaBlocks.
  destruct (hasMetaBlocksPool env (world sp)); simpl; [|discriminate].
  destruct (getLastNotarizedHdr env MetachainShardId (world sp))
    as [err|lastHdr]; [discriminate|].
  intros [= <-].
  exists lastHdr. split; [done|]. split; [apply sortByKey_sorted|].
  intros x. rewrite sortByKey_elem_of, list_elem_of_omap. unfold inWindow.
  split.
  - intros (key & Hkey & Hx).
    destruct (metaBlocks_Peek env key (world sp)) as [[| |m]|] eqn:Hp;
      try discriminate.
    destruct (Z.ltb_spec round (MetaBlock.Round m)); [discriminate|].
    destruct (Z.leb_spec (MetaBlock.Round m) (GetRound lastHdr)); [discriminate|].
    destruct (Z.leb_spec (MetaBlock.Nonce m) (GetNonce lastHdr)); [discriminate|].
    injection Hx as <-. simpl. exists m. repeat split; (done || lia).
  - intros (m & Hx & Hkey & Hp & Hr1 & Hr2 & Hn).
    exists (hh_hash x). split; [done|]. rewrite Hp.
    destruct (Z.ltb_spec round (MetaBlock.Round m)); [lia|].
    destruct (Z.leb_spec (MetaBlock.Round m) (GetRound lastHdr)); [lia|].
    destruct (Z.leb_spec (MetaBlock.Nonce m) (GetNonce lastHdr)); [lia|].
    f_equal. symmetry. exact Hx.
Qed.

Lemma omap_NoDup_hash {A} (f : string → option A) (g : A → string)
      (keys : list string) :
  (∀ k x, f k = Some x → g x = k) →
  NoDup keys → NoDup (g <$> omap f keys).
Proof.
  intros Hg. induction keys as [|k rest IH]; simpl; [constructor|].
  intros [Hk Hrest]%NoDup_cons.
  destruct (f k) as [x|] eqn:Hf; simpl; [|by apply IH].
  constructor; [|by apply IH].
  rewrite (Hg _ _ Hf).
  intros (y & Hy & Hin)%list_elem_of_fmap.
  apply list_elem_of_omap in Hin as (k' & Hk' & Hfk').
  apply Hg in Hfk'. congruence.
Qed.

(** X10.  [getOrderedMetaBlocks round] returns [ErrNilMetaBlockPool] when
    there is no metablock pool, and otherwise the error of
    [getLastNotarizedHdr] when that fails; it fails in no other way.  On
    success its result is sorted by nonce and holds exactly the pool's keys
    under which a metablock is stored whose round is not above [round] and
    whose round and nonce are above those of the last notarized metablock,
    each with that metablock, and each once when the pool's keys are
    distinct. *)
Theorem getOrderedMetaBlocks_sorted_window (round : Z) (sp : shardProcessor W) :
  (hasMetaBlocksPool env (world sp) = false →
   getOrderedMetaBlocks env round sp = inl ErrNilMetaBlockPool)
  ∧ (∀ err, hasMetaBlocksPool env (world sp) = true →
            getLastNotarizedHdr env MetachainShardId (world sp) = inl err →
            getOrderedMetaBlocks env round sp = inl err)
  ∧ match getOrderedMetaBlocks env round sp with
    | inl err =>
        (hasMetaBlocksPool env (world sp) = false ∧ err = ErrNilMetaBlockPool)
        ∨ (hasMetaBlocksPool env (world sp) = true
           ∧ getLastNotarizedHdr env MetachainShardId (world sp) = inl err)
    | inr orderedMetaBlocks =>
        hasMetaBlocksPool env (world sp) = true
        ∧ (NoDup (metaBlocks_Keys env (world sp)) →
           NoDup (hh_hash <$> orderedMetaBlocks))
        ∧ ∃ lastHdr,
            getLastNotarizedHdr env MetachainShardId (world sp) = inr lastHdr
            ∧ StronglySorted (λ x y, GetNonce (hh_hdr x) ≤ GetNonce (hh_hdr y))
                orderedMetaBlocks
            ∧ ∀ x, x ∈ orderedMetaBlocks ↔
                   ∃ m, x = mkHashAndHdr (HdrMeta m) (hh_hash x)
                        ∧ hh_hash x ∈ metaBlocks_Keys env (world sp)
                        ∧ metaBlocks_Peek env (hh_hash x) (world sp)
                          = Some (HdrMeta m)
                        ∧ inWindow round lastHdr m
    end.
Proof.
  split_and!.
  - intros Hp. unfold getOrderedMetaBlocks. by rewrite Hp.
  - intros err Hp Hl. unfold getOrderedMetaBlocks. by rewrite Hp, Hl.
  - destruct (getOrderedMetaBlocks env round sp) as [err|l] eqn:Hg.
    + unfold getOrderedMetaBlocks in Hg.
      destruct (hasMetaBlocksPool env (world sp)); simpl in Hg;
        [|left; by injection Hg as <-].
      destruct (getLastNotarizedHdr env MetachainShardId (world sp));
        [right; split; congruence|discriminate].
    + split_and!; [| |by apply getOrderedMetaBlocks_inr].
      * unfold getOrderedMetaBlocks in Hg.
        by destruct (hasMetaBlocksPool env (world sp)).
      * intros Hnd. unfold getOrderedMetaBlocks in Hg.
        destruct (hasMetaBlocksPool env (world sp)); simpl in Hg;
          [|discriminate].
        destruct (getLastNotarizedHdr env MetachainShardId (world sp))
          as [e|lastHdr]; [discriminate|].
        injection Hg as <-.
        rewrite sortByKey_Permutation.
        apply omap_NoDup_hash; [|done].
        intros k x Hx.
        destruct (metaBlocks_Peek env k (world sp)) as [[| |m]|];
          try discriminate.
        repeat (destruct (_ <? _) || destruct (_ <=? _); try discriminate).
        by injection Hx as <-.
Qed.

End ValidityFacts.

(** ** Requesting and receiving meta headers *)

Section RequestFacts.

Context {W : Type} (env : Collaborators W).

Lemma uint32_range (z : Z) : 0 ≤ uint32 z < 2 ^ 32.
Proof. unfold uint32. apply Z.mod_pos_bound. lia. Qed.

Lemma uint32_small (z : Z) : 0 ≤ z < 2 ^ 32 → uint32 z = z.
Proof. intros. unfold uint32. by apply Z.mod_small. Qed.

Lemma uint32_add_l (a b : Z) : uint32 (uint32 a + b) = uint32 (a + b).
Proof. unfold uint32. rewrite Z.add_mod_idemp_l; [done|lia]. Qed.

Lemma sameLedger_refl (sp : shardProcessor W) : sameLedger sp sp.
Proof. done. Qed.

Lemma sameLedger_trans (sp1 sp2 sp3 : shardProcessor W) :
  sameLedger sp1 sp2 → sameLedger sp2 sp3 → sameLedger sp1 sp3.
Proof. unfold sameLedger. intros [? ?] [? ?]. split; congruence. Qed.

Lemma computeMissingAndExistingLoop_exact (hashes : list Hash) :
  ∀ (missing : list Hash) (sp : shardProcessor W),
    let r := computeMissingAndExistingLoop env hashes missing sp in
    r.1 = missing ++ filter (λ h, poolLacks env (world sp) h) hashes
    ∧ world r.2 = world sp
    ∧ sameLedger sp r.2
    ∧ chRcvAllMetaHdrs r.2 = chRcvAllMetaHdrs sp
    ∧ missingFinalHdrs (hdrsForCurrBlock r.2)
      = missingFinalHdrs (hdrsForCurrBlock sp)
    ∧ uint32 (missingHdrs (hdrsForCurrBlock r.2))
      = uint32 (missingHdrs (hdrsForCurrBlock sp)
                + Z.of_nat (length (filter (λ h, poolLacks env (world sp) h)
                                      hashes)))
    ∧ (0 ≤ missingHdrs (hdrsForCurrBlock sp) < 2 ^ 32 →
       0 ≤ missingHdrs (hdrsForCurrBlock r.2) < 2 ^ 32)
    ∧ (∀ h m, h ∈ hashes → GetMetaHeaderFromPool env h (world sp) = inr m →
              hdrHashAndInfo (hdrsForCurrBlock r.2) !! h
              = Some (mkHdrInfo true (HdrMeta m))
              ∧ MetaBlock.Nonce m ≤ currHighestMetaHdrNonce r.2)
    ∧ (∀ h, ¬ (h ∈ hashes ∧ poolLacks env (world sp) h = false) →
            hdrHashAndInfo (hdrsForCurrBlock r.2) !! h
            = hdrHashAndInfo (hdrsForCurrBlock sp) !! h)
    ∧ currHighestMetaHdrNonce sp ≤ currHighestMetaHdrNonce r.2.
Proof.
  induction hashes as [|hash rest IH]; intros missing sp; simpl.
  - rewrite app_nil_r, Z.add_0_r. split_and!; try done.
    + by intros h m ?%elem_of_nil.
  - assert (filter (λ h, poolLacks env (world sp) h) (hash :: rest)
            = if poolLacks env (world sp) hash
              then hash :: filter (λ h, poolLacks env (world sp) h) rest
              else filter (λ h, poolLacks env (world sp) h) rest) as ->.
    { rewrite filter_cons.
      case_decide as Hd; destruct (poolLacks env (world sp) hash);
        simpl in Hd; (done || tauto). }
    assert (poolLacks env (world sp) hash
            = match GetMetaHeaderFromPool env hash (world sp) with
              | inl _ => true
              | inr _ => false
              end) as Hpl by done.
    destruct (GetMetaHeaderFromPool env hash (world sp)) as [err|m0] eqn:Hget;
      rewrite Hpl.
    +
      match goal with
      | |- context [computeMissingAndExistingLoop env rest ?a ?s] =>
          specialize (IH a s)
      end.
      simpl in IH.
      destruct IH as (H1 & H2 & H3 & H4 & H5 & H6 & H7 & H8 & H9 & H10).
      split_and!; try done.
      * by rewrite H1, <- app_assoc.
      * rewrite H6, uint32_add_l. f_equal. rewrite length_cons, Nat2Z.inj_succ. lia.
      * intros _. apply H7. apply uint32_range.
      * intros h m [->|Hin]%elem_of_cons Hm; [congruence|].
        by apply (H8 h m).
      * intros h Hh. rewrite H9; [done|].
        intros [Hin Hl]. apply Hh. split; [by right|done].
    + match goal with
      | |- context [computeMissingAndExistingLoop env rest ?a ?s] =>
          specialize (IH a s); set (sp2 := s) in *
      end.
      assert (world sp2 = world sp) as Hw
        by (unfold sp2; destruct (_ <? _); done).
      assert (sameLedger sp sp2) as Hl
        by (unfold sp2; destruct (_ <? _); done).
      assert (hdrsForCurrBlock sp2
              = setHdrHashAndInfo
                  (<[hash := mkHdrInfo true (HdrMeta m0)]>
                     (hdrHashAndInfo (hdrsForCurrBlock sp)))
                  (hdrsForCurrBlock sp)) as Ht
        by (unfold sp2; destruct (_ <? _); done).
      assert (chRcvAllMetaHdrs sp2 = chRcvAllMetaHdrs sp) as Hc
        by (unfold sp2; destruct (_ <? _); done).
      assert (currHighestMetaHdrNonce sp ≤ currHighestMetaHdrNonce sp2
              ∧ MetaBlock.Nonce m0 ≤ currHighestMetaHdrNonce sp2) as [Hn1 Hn2].
      { unfold sp2. simpl.
        destruct (Z.ltb_spec (currHighestMetaHdrNonce sp) (MetaBlock.Nonce m0));
          simpl; lia. }
      clearbody sp2. simpl in IH. rewrite Hw in IH.
      destruct IH as (H1 & H2 & H3 & H4 & H5 & H6 & H7 & H8 & H9 & H10).
      rewrite Ht in H5, H6, H7. simpl in H5, H6, H7.
      split_and!; try done; try congruence; try lia.
      * by apply (sameLedger_trans _ sp2).
      * intros h m [->|Hin]%elem_of_cons Hm.
        -- assert (m = m0) as -> by congruence.
           destruct (decide (hash ∈ rest)) as [Hin|Hnin].
           ++ by apply (H8 hash m0).
           ++ rewrite H9 by (intros [? _]; done). rewrite Ht. simpl.
              rewrite lookup_insert_eq. split; [done|lia].
        -- by apply (H8 h m).
      * intros h Hh. rewrite H9.
        -- rewrite Ht. simpl. rewrite lookup_insert_ne; [done|].
           intros <-. apply Hh. split; [by left|done].
        -- intros [Hin Hlk]. apply Hh. split; [by right|done].
Qed.

(** X11.  [computeMissingAndExistingMetaHeaders] returns, in order
    and with repetitions, exactly the hashes of the header that the pool
    lacks, and adds their number to [missingHdrs] (in [uint32]).  Every
    hash found in the pool is in the table afterwards, used and with its
    metablock, whose nonce is at most [currHighestMetaHdrNonce]; the other
    entries of the table are untouched. *)
Theorem computeMissingAndExistingMetaHeaders_exact (header : Header.t)
        (sp : shardProcessor W) :
  let r := computeMissingAndExistingMetaHeaders env header sp in
  r.1 = filter (λ h, poolLacks env (world sp) h) (Header.MetaBlockHashes header)
  ∧ uint32 (missingHdrs (hdrsForCurrBlock r.2))
    = uint32 (missingHdrs (hdrsForCurrBlock sp) + Z.of_nat (length r.1))
  ∧ (∀ h m, h ∈ Header.MetaBlockHashes header →
            GetMetaHeaderFromPool env h (world sp) = inr m →
            hdrHashAndInfo (hdrsForCurrBlock r.2) !! h
            = Some (mkHdrInfo true (HdrMeta m))
            ∧ MetaBlock.Nonce m ≤ currHighestMetaHdrNonce r.2)
  ∧ (∀ h, ¬ (h ∈ Header.MetaBlockHashes header
             ∧ poolLacks env (world sp) h = false) →
          hdrHashAndInfo (hdrsForCurrBlock r.2) !! h
          = hdrHashAndInfo (hdrsForCurrBlock sp) !! h)
  ∧ 0 ≤ currHighestMetaHdrNonce r.2.
Proof.
  unfold computeMissingAndExistingMetaHeaders.
  pose proof (computeMissingAndExistingLoop_exact
                (Header.MetaBlockHashes header) []
                (setCurrHighestMetaHdrNonce 0 sp)) as H.
  simpl in H. destruct H as (H1 & H2 & H3 & H4 & H5 & H6 & H7 & H8 & H9 & H10).
  simpl. rewrite H1. split_and!; try done.
Qed.

End RequestFacts.

Section RequestCountFacts.

Context {W : Type} (env : Collaborators W).

Lemma requestFinalMissingHeadersLoop_frame (nonces : list Z) :
  ∀ (requested : Z) (sp : shardProcessor W),
    let r := requestFinalMissingHeadersLoop env nonces requested sp in
    (0 ≤ requested → 0 ≤ r.1 ≤ requested + Z.of_nat (length nonces))
    ∧ sameLedger sp r.2
    ∧ currHighestMetaHdrNonce r.2 = currHighestMetaHdrNonce sp
    ∧ (∀ h info,
         hdrHashAndInfo (hdrsForCurrBlock r.2) !! h = Some info →
         hdrHashAndInfo (hdrsForCurrBlock sp) !! h = Some info
         ∨ ∃ m nonce,
             nonce ∈ nonces
             ∧ GetMetaHeaderFromPoolWithNonce env nonce (world sp) = inr (m, h)
             ∧ info = mkHdrInfo false (HdrMeta m))
    ∧ (currHighestMetaHdrNonce sp = 0 → r = (requested, sp)).
Proof.
  induction nonces as [|i rest IH]; intros requested sp; simpl.
  - split_and!; try done; [lia|by left].
  - destruct (Z.eqb_spec (currHighestMetaHdrNonce sp) 0) as [Hz|Hnz].
    + destruct (IH requested sp) as (H1 & H2 & H3 & H4 & H5).
      split_and!; try done.
      * intros Hr. specialize (H1 Hr). lia.
      * intros h info Hl. destruct (H4 h info Hl) as [?|(m & n & Hn & ? & ?)];
          [by left|right]. exists m, n. split; [by right|done].
    + destruct (GetMetaHeaderFromPoolWithNonce env i (world sp))
        as [err|[mb mbHash]] eqn:Hget.
      * destruct (IH (uint32 (requested + 1)) sp) as (H1 & H2 & H3 & H4 & H5).
        split_and!; try done.
        -- intros Hr. pose proof (uint32_range (requested + 1)) as Hu.
           assert (uint32 (requested + 1) ≤ requested + 1)
             by (unfold uint32; apply Z.mod_le; lia).
           specialize (H1 ltac:(lia)). lia.
        -- intros h info Hl.
           destruct (H4 h info Hl) as [?|(m & n & Hn & ? & ?)]; [by left|right].
           exists m, n. split; [by right|done].
      * match goal with
        | |- context [requestFinalMissingHeadersLoop env rest requested ?s] =>
            destruct (IH requested s) as (H1 & H2 & H3 & H4 & H5)
        end.
        split_and!; try done.
        -- intros Hr. specialize (H1 Hr). lia.
        -- intros h info Hl.
           destruct (H4 h info Hl) as [Hold|(m & n & Hn & Hg & ->)].
           ++ simpl in Hold. destruct (decide (mbHash = h)) as [->|Hne].
              ** rewrite lookup_insert_eq in Hold. injection Hold as <-.
                 right. exists mb, i. split; [by left|done].
              ** rewrite lookup_insert_ne in Hold by done. by left.
           ++ right. exists m, n. split; [by right|done].
Qed.

Lemma requestFinalMissingHeaders_keeps (sp : shardProcessor W) :
  world (requestFinalMissingHeaders env sp).2 = world sp
  ∧ sameLedger sp (requestFinalMissingHeaders env sp).2
  ∧ sameSignalState sp (requestFinalMissingHeaders env sp).2
  ∧ currHighestMetaHdrNonce (requestFinalMissingHeaders env sp).2
    = currHighestMetaHdrNonce sp.
Proof.
  unfold requestFinalMissingHeaders.
  destruct (requestFinalMissingHeadersLoop_frame (finalNoncesToRequest sp) 0 sp)
    as (H1 & H2 & H3 & H4 & H5).
  destruct (requestFinalMissingHeadersLoop_signal env
              (finalNoncesToRequest sp) 0 sp) as [Hs Hw].
  done.
Qed.

(** X12.  [requestFinalMissingHeaders] does nothing and returns 0
    when the highest nonce is 0.  In general the number it returns is at
    most the number of nonces it visits; it changes neither the
    collaborators' state, the ledger, the counters, the channel nor the
    highest nonce; and every entry it writes into the table is an unused
    entry holding the metablock the pool has under one of the visited
    nonces. *)
Theorem requestFinalMissingHeaders_frame (sp : shardProcessor W) :
  let r := requestFinalMissingHeaders env sp in
  (currHighestMetaHdrNonce sp = 0 → r = (0, sp))
  ∧ 0 ≤ r.1 ≤ Z.of_nat (length (finalNoncesToRequest sp))
  ∧ world r.2 = world sp
  ∧ sameLedger sp r.2
  ∧ sameSignalState sp r.2
  ∧ currHighestMetaHdrNonce r.2 = currHighestMetaHdrNonce sp
  ∧ (∀ h info,
       hdrHashAndInfo (hdrsForCurrBlock r.2) !! h = Some info →
       hdrHashAndInfo (hdrsForCurrBlock sp) !! h = Some info
       ∨ ∃ m nonce,
           nonce ∈ finalNoncesToRequest sp
           ∧ GetMetaHeaderFromPoolWithNonce env nonce (world sp) = inr (m, h)
           ∧ info = mkHdrInfo false (HdrMeta m)).
Proof.
  unfold requestFinalMissingHeaders.
  destruct (requestFinalMissingHeadersLoop_frame (finalNoncesToRequest sp) 0 sp)
    as (H1 & H2 & H3 & H4 & H5).
  destruct (requestFinalMissingHeadersLoop_signal env
              (finalNoncesToRequest sp) 0 sp) as [Hs Hw].
  specialize (H1 ltac:(lia)).
  simpl. split_and!; try done; lia.
Qed.

Lemma insertMissing_lookup (info0 : hdrInfo) (hashes : list Hash) :
  ∀ sp : shardProcessor W,
    let sp1 := foldl (λ sp hash, insertHdrInfo hash info0 sp) sp hashes in
    world sp1 = world sp
    ∧ sameLedger sp sp1
    ∧ sameSignalState sp sp1
    ∧ currHighestMetaHdrNonce sp1 = currHighestMetaHdrNonce sp
    ∧ ∀ h, hdrHashAndInfo (hdrsForCurrBlock sp1) !! h
           = if decide (h ∈ hashes) then Some info0
             else hdrHashAndInfo (hdrsForCurrBlock sp) !! h.
Proof.
  induction hashes as [|hash rest IH]; intros sp; simpl.
  - split_and!; try done.
  - destruct (IH (insertHdrInfo hash info0 sp)) as (H1 & H2 & H3 & H4 & H5).
    split_and!; try done.
    intros h. rewrite H5. simpl.
    destruct (decide (h ∈ rest)) as [Hin|Hnin].
    + rewrite decide_True; [done|by right].
    + destruct (decide (hash = h)) as [->|Hne].
      * rewrite lookup_insert_eq. rewrite decide_True; [done|by left].
      * rewrite lookup_insert_ne by done.
        rewrite decide_False; [done|].
        intros [?|?]%elem_of_cons; congruence.
Qed.

(** X13.  At the start of a cycle (both counters zero)
    [requestMetaHeaders] returns as first number the number of metablock
    hashes of the header that the pool lacks, counted with repetitions,
    and the two numbers it returns are the table's two counters.  It
    empties the channel and leaves the collaborators' state and the ledger
    alone.  When a header is missing, the final headers are not looked for
    yet (the second number is 0) and every missing hash has an entry that
    is used and waits for its header. *)
Theorem requestMetaHeaders_counts (header : Header.t) (sp : shardProcessor W) :
  nothingMissing sp →
  Z.of_nat (length (Header.MetaBlockHashes header)) < 2 ^ 32 →
  let missing :=
    filter (λ h, poolLacks env (world sp) h) (Header.MetaBlockHashes header) in
  let r := requestMetaHeaders env header sp in
  r.1.1 = Z.of_nat (length missing)
  ∧ missingHdrs (hdrsForCurrBlock r.2) = r.1.1
  ∧ missingFinalHdrs (hdrsForCurrBlock r.2) = r.1.2
  ∧ chRcvAllMetaHdrs r.2 = 0%nat
  ∧ world r.2 = world sp
  ∧ sameLedger sp r.2
  ∧ (missing ≠ [] →
     r.1.2 = 0
     ∧ ∀ h, h ∈ missing →
            hdrHashAndInfo (hdrsForCurrBlock r.2) !! h
            = Some (mkHdrInfo true HdrNil)).
Proof.
  intros [Hm Hf] Hlen. simpl. unfold requestMetaHeaders.
  destruct (Nat.eqb_spec (length (Header.MetaBlockHashes header)) 0) as [Hz|Hnz].
  { apply nil_length_inv in Hz. rewrite Hz. simpl. split_and!; done. }
  pose proof (computeMissingAndExistingLoop_exact env
                (Header.MetaBlockHashes header) []
                (setCurrHighestMetaHdrNonce 0 (setChannel 0 sp))) as Hc.
  unfold computeMissingAndExistingMetaHeaders.
  destruct (computeMissingAndExistingLoop env (Header.MetaBlockHashes header) []
              (setCurrHighestMetaHdrNonce 0 (setChannel 0 sp)))
    as [missing sp1].
  simpl in Hc. destruct Hc as (H1 & H2 & H3 & H4 & H5 & H6 & H7 & H8 & H9 & H10).
  subst missing. rewrite Hm in H6, H7. rewrite Hf in H5.
  set (missing := filter (λ h, poolLacks env (world sp) h)
                    (Header.MetaBlockHashes header)) in *.
  assert (Z.of_nat (length missing) ≤ Z.of_nat (length (Header.MetaBlockHashes header)))
    as Hle by (apply inj_le, length_filter).
  assert (missingHdrs (hdrsForCurrBlock sp1) = Z.of_nat (length missing)) as Hmh.
  { rewrite <- (uint32_small (missingHdrs (hdrsForCurrBlock sp1))) by (apply H7; lia).
    rewrite H6. apply uint32_small. lia. }
  unfold requestMetaHeadersLocked.
  destruct (insertMissing_lookup (mkHdrInfo true HdrNil) missing sp1)
    as (I1 & I2 & (I3 & I4 & I5) & I6 & I7).
  set (sp1' := foldl _ sp1 missing) in *. clearbody sp1'.
  destruct (Z.eqb_spec (missingHdrs (hdrsForCurrBlock sp1')) 0) as [Hz|Hnz'].
  - pose proof (requestFinalMissingHeaders_keeps sp1') as Hfr.
    destruct (requestFinalMissingHeaders env sp1') as [n sp2].
    simpl in Hfr. destruct Hfr as (F3 & F4 & (F5 & F6 & F7) & F8).
    simpl. split_and!; try congruence.
    + by apply (sameLedger_trans _ sp1), (sameLedger_trans _ sp1').
    + intros Hne. exfalso. destruct missing; [done|]. simpl in *. lia.
  - simpl. split_and!; try congruence.
    + by apply (sameLedger_trans _ sp1).
    + intros Hne. split; [congruence|].
      intros h Hh. rewrite I7. by rewrite decide_True.
Qed.

End RequestCountFacts.

Section ReceiveFacts.

Context {W : Type} (env : Collaborators W).

Lemma setWorld_world (sp : shardProcessor W) : setWorld (world sp) sp = sp.
Proof. by destruct sp. Qed.

Lemma receivedMetaBlock_after_locked (hash : Hash) (m : MetaBlock.t)
      (sp : shardProcessor W) :
  hasMetaBlocksPool env (world sp) = true →
  metaBlocks_Peek env hash (world sp) = Some (HdrMeta m) →
  ∃ w, receivedMetaBlock env hash sp
       = setWorld w (receivedMetaBlockLocked env hash m sp).
Proof.
  intros Hpool Hpeek. unfold receivedMetaBlock. rewrite Hpool, Hpeek. simpl.
  set (sp1 := receivedMetaBlockLocked env hash m sp).
  destruct (getLastNotarizedHdr env MetachainShardId (world sp1));
    [exists (world sp1); by rewrite setWorld_world|].
  destruct (_ <=? _); [exists (world sp1); by rewrite setWorld_world|].
  destruct (_ <=? _); [exists (world sp1); by rewrite setWorld_world|].
  by eexists.
Qed.

(** X14.  When the pool delivers a metablock whose hash the table
    waits for, [receivedMetaBlock] decrements [missingHdrs] by one and never
    touches the ledger.  While other headers are still missing it only
    fills the entry, keeping its [usedInBlock] flag, and raises
    [currHighestMetaHdrNonce] to the metablock's nonce if that is higher:
    no signal is sent.  When it was the last missing header the signal is
    sent exactly when no final header is missing either. *)
Theorem receivedMetaBlock_awaited (hash : Hash) (m : MetaBlock.t)
        (info : hdrInfo) (sp : shardProcessor W) :
  hasMetaBlocksPool env (world sp) = true →
  metaBlocks_Peek env hash (world sp) = Some (HdrMeta m) →
  hdrHashAndInfo (hdrsForCurrBlock sp) !! hash = Some info →
  hdr info = HdrNil →
  0 < missingHdrs (hdrsForCurrBlock sp) < 2 ^ 32 →
  let sp' := receivedMetaBlock env hash sp in
  missingHdrs (hdrsForCurrBlock sp') = missingHdrs (hdrsForCurrBlock sp) - 1
  ∧ sameLedger sp sp'
  ∧ (1 < missingHdrs (hdrsForCurrBlock sp) →
     hdrHashAndInfo (hdrsForCurrBlock sp')
     = <[hash := mkHdrInfo (usedInBlock info) (HdrMeta m)]>
         (hdrHashAndInfo (hdrsForCurrBlock sp))
     ∧ missingFinalHdrs (hdrsForCurrBlock sp')
       = missingFinalHdrs (hdrsForCurrBlock sp)
     ∧ chRcvAllMetaHdrs sp' = chRcvAllMetaHdrs sp
     ∧ currHighestMetaHdrNonce sp'
       = Z.max (currHighestMetaHdrNonce sp) (MetaBlock.Nonce m))
  ∧ (missingHdrs (hdrsForCurrBlock sp) = 1 →
     chRcvAllMetaHdrs sp'
     = if missingFinalHdrs (hdrsForCurrBlock sp') =? 0
       then S (chRcvAllMetaHdrs sp) else chRcvAllMetaHdrs sp).
Proof.
  intros Hpool Hpeek Hl Hnil Hm. simpl.
  destruct (receivedMetaBlock_after_locked hash m sp Hpool Hpeek) as [w ->].
  simpl. unfold receivedMetaBlockLocked.
  assert ((0 <? missingHdrs (hdrsForCurrBlock sp)) = true) as ->
    by (apply Z.ltb_lt; lia).
  rewrite Hl, Hnil. simpl.
  set (sp0 := setHdrsForCurrBlock _ sp).
  set (sp1 := if currHighestMetaHdrNonce sp <? MetaBlock.Nonce m
              then setCurrHighestMetaHdrNonce (MetaBlock.Nonce m) sp0 else sp0).
  assert (hdrsForCurrBlock sp1 = hdrsForCurrBlock sp0) as Ht
    by (unfold sp1; destruct (_ <? _); done).
  assert (sameLedger sp sp1) as Hled
    by (unfold sp1; destruct (_ <? _); done).
  assert (chRcvAllMetaHdrs sp1 = chRcvAllMetaHdrs sp) as Hch
    by (unfold sp1; destruct (_ <? _); done).
  assert (currHighestMetaHdrNonce sp1
          = Z.max (currHighestMetaHdrNonce sp) (MetaBlock.Nonce m)) as Hcur.
  { unfold sp1. simpl.
    destruct (Z.ltb_spec (currHighestMetaHdrNonce sp) (MetaBlock.Nonce m));
      simpl; lia. }
  assert (missingHdrs (hdrsForCurrBlock sp1)
          = missingHdrs (hdrsForCurrBlock sp) - 1) as Hmh.
  { rewrite Ht. simpl. apply uint32_small. lia. }
  clearbody sp1.
  destruct (Z.eqb_spec (missingHdrs (hdrsForCurrBlock sp1)) 0) as [Hz|Hnz].
  - pose proof (requestFinalMissingHeaders_keeps env sp1) as Hfr.
    destruct (requestFinalMissingHeaders env sp1) as [n sp2].
    simpl in Hfr. destruct Hfr as (F3 & F4 & (F5 & F6 & F7) & F8).
    simpl. rewrite F5, Hz. simpl.
    destruct (Z.eqb_spec n 0) as [->|Hn]; simpl.
    + split_and!;
        first [ by apply (sameLedger_trans _ sp1)
              | intros; lia
              | intros _; congruence ].
    + rewrite (proj2 (Z.eqb_neq n 0)) by done.
      split_and!;
        first [ by apply (sameLedger_trans _ sp1)
              | intros; lia
              | intros _; congruence ].
  - rewrite (proj2 (Z.eqb_neq _ 0) Hnz). simpl.
    split_and!; try done; try (intros; lia).
    intros _. rewrite Ht. simpl. split_and!; done.
Qed.

(** X15.  While headers are missing, a notification for a
    hash the table does not wait for (it has no entry, or its entry has its
    header already) changes neither the table, the counters, the channel,
    the highest nonce nor the ledger: a duplicate or unrelated delivery
    cannot complete the wait. *)
Theorem receivedMetaBlock_not_awaited (hash : Hash) (sp : shardProcessor W) :
  (∀ info, hdrHashAndInfo (hdrsForCurrBlock sp) !! hash = Some info →
           hdr info ≠ HdrNil) →
  missingHdrs (hdrsForCurrBlock sp) ≠ 0 →
  let sp' := receivedMetaBlock env hash sp in
  hdrsForCurrBlock sp' = hdrsForCurrBlock sp
  ∧ chRcvAllMetaHdrs sp' = chRcvAllMetaHdrs sp
  ∧ currHighestMetaHdrNonce sp' = currHighestMetaHdrNonce sp
  ∧ sameLedger sp sp'.
Proof.
  intros Hpresent Hm. simpl.
  destruct (hasMetaBlocksPool env (world sp)) eqn:Hpool;
    [|by unfold receivedMetaBlock; rewrite Hpool].
  destruct (metaBlocks_Peek env hash (world sp)) as [[| |m]|] eqn:Hpeek;
    try (by unfold receivedMetaBlock; rewrite Hpool, Hpeek).
  destruct (receivedMetaBlock_after_locked hash m sp Hpool Hpeek) as [w ->].
  assert (receivedMetaBlockLocked env hash m sp = sp) as ->; [|done].
  unfold receivedMetaBlockLocked.
  destruct (_ || _); [|done].
  assert ((missingHdrs (hdrsForCurrBlock sp) =? 0) = false) as Hne
    by (by apply Z.eqb_neq).
  destruct (hdrHashAndInfo (hdrsForCurrBlock sp) !! hash) as [info|] eqn:Hl.
  - specialize (Hpresent info eq_refl).
    destruct (hdr info); [done| |]; simpl; rewrite Hne; by rewrite Hne.
  - rewrite Hne. by rewrite Hne.
Qed.

End ReceiveFacts.

(** ** What the selector leaves alone *)

Section SelectorMoreFacts.

Context {W : Type} (env : Collaborators W).

Lemma markUsed_lookup (hash : Hash) (m : MetaBlock.t) (st : @selectorState W)
      (h : string) (info : hdrInfo) :
  sel_table (markUsed hash m st) !! h = Some info →
  sel_table st !! h = Some info
  ∨ (h = hash ∧ info = mkHdrInfo true (HdrMeta m)).
Proof.
  unfold markUsed, sel_table. simpl.
  destruct (decide (hash = h)) as [->|Hne].
  - rewrite lookup_insert_eq. intros [= <-]. by right.
  - rewrite lookup_insert_ne by done. by left.
Qed.

Lemma selectorStep_frame maxItems round haveTime ordered i x
      (st : @selectorState W) :
  let r := selectorStep env maxItems round haveTime ordered i x st in
  sameLedger (sel_sp st) (sel_sp r.2)
  ∧ currHighestMetaHdrNonce (sel_sp r.2) = currHighestMetaHdrNonce (sel_sp st)
  ∧ ∀ h info,
      sel_table r.2 !! h = Some info →
      sel_table st !! h = Some info
      ∨ ∃ m, hh_hdr x = HdrMeta m ∧ h = hh_hash x
             ∧ info = mkHdrInfo true (HdrMeta m).
Proof.
  unfold selectorStep.
  destruct (hh_hdr x) as [| |m]; try (by split_and!; [..|by left]).
  destruct (isHdrConstructionValid env (HdrMeta m) (sel_lastMetaHdr st));
    [by split_and!; [..|by left]|].
  destruct (negb _); [by split_and!; [..|by left]|].
  destruct (_ =? _)%nat.
  { simpl. split_and!; try done. intros h info Hl.
    apply markUsed_lookup in Hl as [?|[-> ->]]; [by left|right; eauto]. }
  destruct (_ <=? _); [by split_and!; [..|by left]|].
  destruct (_ && _); [|by split_and!; [..|by left]].
  unfold onWorld.
  destruct (txc_CreateMbsAndProcessCrossShardTransactionsDstMe _ _ _ _ _ _ _ _)
    as [[[mbs n] fin] w'].
  destruct (0 <? n); destruct fin; simpl; split_and!; try done;
    intros h info Hl;
    try (apply markUsed_lookup in Hl as [?|[-> ->]]; [by left|right; eauto]);
    by left.
Qed.

Lemma selectorLoop_frame maxItems round haveTime ordered rest :
  ∀ i (st : @selectorState W),
    let st' := selectorLoop env maxItems round haveTime ordered i rest st in
    sameLedger (sel_sp st) (sel_sp st')
    ∧ currHighestMetaHdrNonce (sel_sp st') = currHighestMetaHdrNonce (sel_sp st)
    ∧ ∀ h info,
        sel_table st' !! h = Some info →
        sel_table st !! h = Some info
        ∨ ∃ x m, x ∈ rest ∧ hh_hdr x = HdrMeta m ∧ h = hh_hash x
                 ∧ info = mkHdrInfo true (HdrMeta m).
Proof.
  induction rest as [|x rest IH]; intros i st; simpl.
  { split_and!; try done. by left. }
  unfold selectorMayStart, onWorld.
  destruct (haveTime (world (sel_sp st))) as [t w1].
  destruct t; simpl; [|by split_and!; [..|by left]].
  destruct (_ <=? _); [by split_and!; [..|by left]|].
  destruct (_ <=? _); [by split_and!; [..|by left]|]. simpl.
  set (st1 := mkSelectorState _ _ _ _ _).
  pose proof (selectorStep_frame maxItems round haveTime ordered i x st1)
    as (S1 & S2 & S3).
  destruct (selectorStep env maxItems round haveTime ordered i x st1)
    as [cont st2].
  simpl in S1, S2, S3.
  assert (∀ h info,
            sel_table st2 !! h = Some info →
            sel_table st !! h = Some info
            ∨ ∃ x0 m, x0 ∈ x :: rest ∧ hh_hdr x0 = HdrMeta m ∧ h = hh_hash x0
                      ∧ info = mkHdrInfo true (HdrMeta m)) as S3'.
  { intros h info Hl. destruct (S3 h info Hl) as [?|(m & ? & ? & ?)];
      [by left|right]. exists x, m. split; [by left|done]. }
  destruct cont; [|by split_and!].
  destruct (IH (S i) st2) as (L1 & L2 & L3).
  split_and!.
  - by apply (sameLedger_trans _ (sel_sp st2)).
  - by rewrite L2.
  - intros h info Hl. destruct (L3 h info Hl) as [Hl2|(x0 & m & ? & ? & ? & ?)].
    + by apply S3'.
    + right. exists x0, m. split; [by right|done].
Qed.

(** X16.  The selector never touches the ledger nor the highest
    nonce, and returns the processor unchanged when it fails.  Every entry
    of the table after it is an entry that was there before, or is a used
    entry holding the metablock the pool stores under that hash, whose
    round is not above the round being built and whose round and nonce are
    above those of the last notarized metablock. *)
Theorem createAndProcessCrossMiniBlocksDstMe_frame
        (noShards maxItemsInBlock round : Z) (haveTime : W → bool * W)
        (sp : shardProcessor W) :
  let r := createAndProcessCrossMiniBlocksDstMe env noShards maxItemsInBlock
             round haveTime sp in
  sameLedger sp r.2
  ∧ currHighestMetaHdrNonce r.2 = currHighestMetaHdrNonce sp
  ∧ (∀ err, r.1 = inl err → r.2 = sp)
  ∧ ∀ h info,
      hdrHashAndInfo (hdrsForCurrBlock r.2) !! h = Some info →
      hdrHashAndInfo (hdrsForCurrBlock sp) !! h = Some info
      ∨ ∃ m lastHdr,
          info = mkHdrInfo true (HdrMeta m)
          ∧ getLastNotarizedHdr env MetachainShardId (world sp) = inr lastHdr
          ∧ metaBlocks_Peek env h (world sp) = Some (HdrMeta m)
          ∧ inWindow round lastHdr m.
Proof.
  simpl. unfold createAndProcessCrossMiniBlocksDstMe.
  destruct (getOrderedMetaBlocks env round sp) as [err|ordered] eqn:Hord;
    [by split_and!; [..|by left]|].
  apply getOrderedMetaBlocks_inr in Hord as (lastHdr & Hlast & _ & Hmem).
  rewrite Hlast. simpl.
  destruct (selectorLoop_frame maxItemsInBlock round haveTime ordered ordered
              0%nat (mkSelectorState [] 0 0 lastHdr sp)) as (L1 & L2 & L3).
  simpl in L1, L2, L3. split_and!; try done.
  intros h info Hl. destruct (L3 h info Hl) as [?|(x & m & Hx & Hh & -> & ->)];
    [by left|right].
  apply Hmem in Hx as (m' & Hx & _ & Hpeek & Hw).
  rewrite Hx in Hh. simpl in Hh. injection Hh as ->.
  by exists m, lastHdr.
Qed.

End SelectorMoreFacts.

(** ** Header creation *)

Section HeaderCreationFacts.

Context {W : Type} (env : Collaborators W).

Lemma createMiniBlockHeaders_inr (body : Body) :
  ∀ (totalTxCount : Z) (miniBlockHeaders : list MiniBlockHeader.t) (total : Z),
    createMiniBlockHeaders env body totalTxCount = inr (miniBlockHeaders, total) →
    total = totalTxCount + Z.of_nat (length (body ≫= MiniBlock.TxHashes))
    ∧ length miniBlockHeaders = length body
    ∧ ∀ i mb, body !! i = Some mb →
              ∃ miniBlockHash,
                CalculateHashMiniBlock env mb = inr miniBlockHash
                ∧ miniBlockHeaders !! i
                  = Some (MiniBlockHeader.mk miniBlockHash
                            (MiniBlock.SenderShardID mb)
                            (MiniBlock.ReceiverShardID mb)
                            (uint32 (Z.of_nat (length (MiniBlock.TxHashes mb))))
                            (MiniBlock.Type_ mb)).
Proof.
  induction body as [|mb rest IH]; intros total0 hdrs total;
    cbn [createMiniBlockHeaders].
  - intros [= <- <-]. split; [csimpl; lia|]. split; [done|]. by intros [|].
  - destruct (CalculateHashMiniBlock env mb) as [err|h] eqn:Hh; [discriminate|].
    destruct (createMiniBlockHeaders env rest _) as [err|[hdrs' total']] eqn:Hc;
      [discriminate|].
    intros [= <- <-]. destruct (IH _ _ _ Hc) as (H1 & H2 & H3).
    split; [|split].
    + rewrite H1, bind_cons, length_app. lia.
    + simpl. by rewrite H2.
    + intros [|i] mb' Hi.
      * injection Hi as <-. exists h. done.
      * by apply H3.
Qed.

Lemma createMiniBlockHeaders_inl (body : Body) :
  ∀ (totalTxCount : Z) (err : Error),
    createMiniBlockHeaders env body totalTxCount = inl err →
    ∃ mb, mb ∈ body ∧ CalculateHashMiniBlock env mb = inl err.
Proof.
  induction body as [|mb rest IH]; intros total0 err; simpl; [discriminate|].
  destruct (CalculateHashMiniBlock env mb) as [e|h] eqn:Hh.
  - intros [= <-]. exists mb. split; [by left|done].
  - destruct (createMiniBlockHeaders env rest _) as [e|[hdrs' total']] eqn:Hc;
      [|discriminate].
    intros [= <-]. destruct (IH _ _ Hc) as (mb' & Hin & He).
    exists mb'. split; [by right|done].
Qed.

(** X17.  Let [core.CalculateHash] be the marshalizer followed by
    the hasher.  A header that [CreateBlockHeader] returns for a body
    correlates with it index by index (the relation the specification asks
    of a valid block), its transaction count is the total number of
    transaction hashes of the body (in [uint32]), its metablock hashes are
    the used entries of the table sorted by nonce, and it carries the
    current root hash and the self shard. *)
Theorem CreateBlockHeader_describes_body (body : Body) (round : Z)
        (haveTime : W → bool * W) (sp sp' : shardProcessor W)
        (h : HeaderHandler) :
  calculateHashIsMarshalThenCompute env →
  CreateBlockHeader env (BodyShard body) round haveTime sp = ((h, None), sp') →
  ∃ header,
    h = HdrShard header
    ∧ correlatedPerIndex (MarshalMiniBlock env) (Compute env) header body
    ∧ Header.TxCount header
      = uint32 (Z.of_nat (length (body ≫= MiniBlock.TxHashes)))
    ∧ Header.MetaBlockHashes header = sortHdrsHashesForCurrentBlock true sp
    ∧ Header.RootHash header = getRootHash env (world sp)
    ∧ Header.ShardId header = SelfId env.
Proof.
  intros Hhash. unfold CreateBlockHeader. simpl.
  destruct (createMiniBlockHeaders env body 0) as [err|[hdrs total]] eqn:Hc;
    [discriminate|].
  intros [= <- <-]. eexists. split; [done|]. simpl.
  destruct (createMiniBlockHeaders_inr _ _ _ _ Hc) as (H1 & H2 & H3).
  split_and!; try done.
  - split; [done|]. simpl. intros i mb Hi.
    destruct (H3 i mb Hi) as (mbHash & Hm & Hl).
    rewrite Hhash in Hm.
    destruct (MarshalMiniBlock env mb) as [|mbBytes]; [discriminate|].
    injection Hm as <-. exists mbBytes. done.
  - by rewrite H1.
Qed.

(** X18.  Build, then validate.  Let [core.CalculateHash] be
    the marshalizer followed by the hasher and let no two different
    miniblocks of the body have the same hash.  Then the header that
    [CreateBlockHeader] returns for a body passes
    [checkHeaderBodyCorrelation] against that body. *)
Theorem CreateBlockHeader_then_correlation (body : Body) (round : Z)
        (haveTime : W → bool * W) (sp sp' : shardProcessor W)
        (header : Header.t) :
  calculateHashIsMarshalThenCompute env →
  collisionFree env body →
  CreateBlockHeader env (BodyShard body) round haveTime sp
  = ((HdrShard header, None), sp') →
  checkHeaderBodyCorrelation (MarshalMiniBlock env) (Compute env) header body
  = None.
Proof.
  intros Hhash Hfree. unfold CreateBlockHeader. simpl.
  destruct (createMiniBlockHeaders env body 0) as [err|[hdrs total]] eqn:Hc;
    [discriminate|].
  intros [= <- <-].
  destruct (createMiniBlockHeaders_inr _ _ _ _ Hc) as (H1 & H2 & H3).
  unfold checkHeaderBodyCorrelation. simpl.
  rewrite H2, Nat.eqb_refl. simpl.
  apply checkMiniBlocks_None, Forall_forall. intros mb Hmb.
  apply list_elem_of_lookup in Hmb as [i Hi].
  destruct (H3 i mb Hi) as (mbHash & Hm & Hl).
  rewrite Hhash in Hm.
  destruct (MarshalMiniBlock env mb) as [|mbBytes] eqn:HM; [discriminate|].
  injection Hm as <-.
  destruct (last (filter (λ h, MiniBlockHeader.Hash h = Compute env mbBytes) hdrs))
    as [mbHdr|] eqn:Hlast.
  2:{ apply last_None in Hlast.
      apply list_elem_of_lookup_2 in Hl.
      assert (MiniBlockHeader.mk (Compute env mbBytes) (MiniBlock.SenderShardID mb)
                (MiniBlock.ReceiverShardID mb)
                (uint32 (Z.of_nat (length (MiniBlock.TxHashes mb))))
                (MiniBlock.Type_ mb)
              ∈ filter (λ h, MiniBlockHeader.Hash h = Compute env mbBytes) hdrs)
        as Hin by (by apply list_elem_of_filter).
      rewrite Hlast in Hin. by apply elem_of_nil in Hin. }
  exists mbBytes, mbHdr. split; [done|]. split; [done|].
  assert (mbHdr ∈ filter (λ h, MiniBlockHeader.Hash h = Compute env mbBytes) hdrs)
    as Hin by (by apply last_Some_elem_of).
  apply list_elem_of_filter in Hin as [Heq Hin].
  apply list_elem_of_lookup in Hin as [j Hj].
  assert (is_Some (body !! j)) as [mb' Hj'].
  { apply lookup_lt_is_Some. rewrite <- H2. by apply lookup_lt_Some in Hj. }
  destruct (H3 j mb' Hj') as (mbHash' & Hm' & Hl').
  rewrite Hhash in Hm'.
  destruct (MarshalMiniBlock env mb') as [|mbBytes'] eqn:HM'; [discriminate|].
  injection Hm' as <-. rewrite Hj in Hl'. injection Hl' as ->.
  simpl in Heq.
  assert (mb' = mb) as ->.
  { apply (Hfree mb' mb mbBytes' mbBytes); try done.
    - by apply list_elem_of_lookup_2 in Hj'.
    - by apply list_elem_of_lookup_2 in Hi. }
  done.
Qed.

(** X19.  When [CreateBlockHeader] returns an error it returns a
    nil header and leaves the processor as it was; the error is
    [ErrWrongTypeAssertion] for a body of another type, and otherwise the
    error of hashing one of the miniblocks of the body. *)
Theorem CreateBlockHeader_failure (bodyHandler : BodyHandler) (round : Z)
        (haveTime : W → bool * W) (sp sp' : shardProcessor W)
        (h : HeaderHandler) (err : Error) :
  CreateBlockHeader env bodyHandler round haveTime sp = ((h, Some err), sp') →
  h = HdrNil ∧ sp' = sp
  ∧ ((bodyHandler = BodyOther ∧ err = ErrWrongTypeAssertion)
     ∨ ∃ body mb, bodyHandler = BodyShard body ∧ mb ∈ body
                  ∧ CalculateHashMiniBlock env mb = inl err).
Proof.
  unfold CreateBlockHeader.
  destruct bodyHandler as [|body|]; simpl; [discriminate| |].
  - destruct (createMiniBlockHeaders env body 0) as [e|[hdrs total]] eqn:Hc;
      [|discriminate].
    intros [= <- <- <-]. split_and!; try done. right.
    destruct (createMiniBlockHeaders_inl _ _ _ Hc) as (mb & Hin & He).
    by exists body, mb.
  - intros [= <- <- <-]. split_and!; try done. by left.
Qed.

End HeaderCreationFacts.

(** ** What validation leaves alone, and what it has checked *)

Section FrameFacts.

Context {W : Type} (env : Collaborators W).

Lemma onlyWorldDiffers_refl (sp : shardProcessor W) : onlyWorldDiffers sp sp.
Proof. unfold onlyWorldDiffers. by destruct sp. Qed.

Lemma onlyWorldDiffers_trans (sp1 sp2 sp3 : shardProcessor W) :
  onlyWorldDiffers sp1 sp2 → onlyWorldDiffers sp2 sp3 → onlyWorldDiffers sp1 sp3.
Proof. unfold onlyWorldDiffers. intros -> ->. done. Qed.

Lemma onlyWorldDiffers_setWorld (w : W) (sp : shardProcessor W) :
  onlyWorldDiffers sp (setWorld w sp).
Proof. done. Qed.

Lemma onlyWorldDiffers_onWorld {A} (f : W → A * W) (sp : shardProcessor W) :
  onlyWorldDiffers sp (onWorld f sp).2.
Proof. unfold onWorld. by destruct (f (world sp)). Qed.

Lemma onlyWorldDiffers_sameLedger (sp sp' : shardProcessor W) :
  onlyWorldDiffers sp sp' → sameLedger sp sp'.
Proof. by intros ->. Qed.

Lemma onlyWorldDiffers_sameTable (sp sp' : shardProcessor W) :
  onlyWorldDiffers sp sp' → sameTable sp sp'.
Proof. by intros ->. Qed.

Lemma sameTable_refl (sp : shardProcessor W) : sameTable sp sp.
Proof. done. Qed.

Lemma sameTable_trans (sp1 sp2 sp3 : shardProcessor W) :
  sameTable sp1 sp2 → sameTable sp2 sp3 → sameTable sp1 sp3.
Proof.
  unfold sameTable. intros (?&?&?&?) (?&?&?&?). split_and!; congruence.
Qed.

Lemma receivedMetaBlockLocked_sameLedger hash m (sp : shardProcessor W) :
  sameLedger sp (receivedMetaBlockLocked env hash m sp).
Proof.
  unfold receivedMetaBlockLocked.
  destruct (_ || _); [|done].
  set (sp1 := match hdrHashAndInfo (hdrsForCurrBlock sp) !! hash with
              | Some _ => _ | None => _ end).
  assert (sameLedger sp sp1) as H1.
  { unfold sp1. destruct (_ !! hash) as [info|]; [|done].
    destruct (isNilHeader (hdr info)); [|done].
    match goal with |- context [if ?b then _ else _] => destruct b end; done. }
  clearbody sp1.
  set (sp2 := if missingHdrs (hdrsForCurrBlock sp1) =? 0 then _ else sp1).
  assert (sameLedger sp sp2) as H2.
  { unfold sp2. destruct (_ =? 0); [|done].
    pose proof (requestFinalMissingHeaders_keeps env sp1) as (_ & Hl & _).
    destruct (requestFinalMissingHeaders env sp1) as [n sp'']. simpl in *.
    by apply (sameLedger_trans sp sp1). }
  clearbody sp2. by destruct (_ && _).
Qed.

Lemma receivedMetaBlock_sameLedger hash (sp : shardProcessor W) :
  sameLedger sp (receivedMetaBlock env hash sp).
Proof.
  unfold receivedMetaBlock.
  destruct (hasMetaBlocksPool env (world sp)); simpl; [|done].
  destruct (metaBlocks_Peek env hash (world sp)) as [[| |m]|]; try done.
  pose proof (receivedMetaBlockLocked_sameLedger hash m sp) as Hl.
  destruct (getLastNotarizedHdr env MetachainShardId _); [done|].
  destruct (_ <=? _); [done|]. destruct (_ <=? _); done.
Qed.

Lemma waitForMetaHdrHashes_sameLedger waitTime (sp : shardProcessor W) :
  sameLedger sp (waitForMetaHdrHashes env waitTime sp).2.
Proof.
  unfold waitForMetaHdrHashes, onWorld.
  destruct (deliveriesWhileWaiting env waitTime (world sp)) as [hashes w1].
  assert (∀ sp0 : shardProcessor W,
            sameLedger sp0
              (foldl (λ sp hash, receivedMetaBlock env hash sp) sp0 hashes))
    as Hfold.
  { induction hashes as [|h rest IH]; intros sp0; simpl; [done|].
    eapply sameLedger_trans; [apply (receivedMetaBlock_sameLedger h)|apply IH]. }
  specialize (Hfold (setWorld w1 sp)).
  destruct (chRcvAllMetaHdrs _); simpl; exact Hfold.
Qed.

Lemma requestMetaHeaders_sameLedger header (sp : shardProcessor W) :
  sameLedger sp (requestMetaHeaders env header sp).2.
Proof.
  unfold requestMetaHeaders.
  destruct (_ =? _)%nat; [done|].
  unfold computeMissingAndExistingMetaHeaders.
  pose proof (computeMissingAndExistingLoop_exact env
                (Header.MetaBlockHashes header) []
                (setCurrHighestMetaHdrNonce 0 (setChannel 0 sp))) as Hc.
  destruct (computeMissingAndExistingLoop env _ _ _) as [missing sp1].
  simpl in Hc. destruct Hc as (_ & _ & Hl & _).
  unfold requestMetaHeadersLocked.
  destruct (insertMissing_lookup (mkHdrInfo true HdrNil) missing sp1)
    as (_ & Hl1 & _).
  set (sp1' := foldl _ sp1 missing) in *. clearbody sp1'.
  destruct (_ =? 0); simpl.
  - pose proof (requestFinalMissingHeaders_keeps env sp1') as (_ & Hl2 & _).
    destruct (requestFinalMissingHeaders env sp1') as [n sp2]. simpl in *.
    by apply (sameLedger_trans _ sp1), (sameLedger_trans _ sp1').
  - by apply (sameLedger_trans _ sp1).
Qed.

Lemma setMetaConsensusData_onlyWorld l (sp : shardProcessor W) :
  onlyWorldDiffers sp (setMetaConsensusData env l sp).2.
Proof.
  unfold setMetaConsensusData.
  assert (∀ sp0 : shardProcessor W,
            onlyWorldDiffers sp0 (setMetaConsensusDataLoop env l sp0).2) as H.
  { induction l as [|x rest IH]; intros sp0; simpl; [apply onlyWorldDiffers_refl|].
    unfold onWorld. destruct (sah_SetMetaConsensusData env _ _ _ _) as [[e|] w1];
      [done|].
    eapply onlyWorldDiffers_trans; [|apply IH]. done. }
  eapply onlyWorldDiffers_trans; [|apply H]. done.
Qed.

Lemma ProcessBlock_apply_onlyWorld header body haveTime (sp : shardProcessor W) :
  onlyWorldDiffers sp (ProcessBlock_apply env header body haveTime sp).2.
Proof.
  unfold ProcessBlock_apply.
  destruct (getProcessedMetaBlocksFromMiniBlocks env body sp);
    [apply onlyWorldDiffers_refl|].
  pose proof (setMetaConsensusData_onlyWorld l sp) as H1.
  destruct (setMetaConsensusData env l sp) as [[e|] sp1]; [done|].
  simpl in H1. unfold onWorld.
  destruct (txc_ProcessBlockTransaction env _ _ _ _) as [[e|] w2]; simpl.
  { eapply onlyWorldDiffers_trans; [exact H1|done]. }
  destruct (negb _); simpl.
  { eapply onlyWorldDiffers_trans; [exact H1|done]. }
  destruct (txc_VerifyCreatedBlockTransactions env _ _) as [e w3]. simpl.
  eapply onlyWorldDiffers_trans; [exact H1|done].
Qed.

Lemma revertOnError_onlyWorld (r : option Error * shardProcessor W) :
  onlyWorldDiffers r.2 (revertOnError env r).2.
Proof. destruct r as [[e|] sp]; simpl; [done|apply onlyWorldDiffers_refl]. Qed.

Lemma ProcessBlock_prepare_sameLedger chain hh bh (sp : shardProcessor W) :
  sameLedger sp (ProcessBlock_prepare env chain hh bh sp).2.
Proof.
  unfold ProcessBlock_prepare.
  destruct (checkBlockValidity env chain hh bh (world sp)); [done|].
  destruct hh as [|header|]; try done.
  destruct bh as [|body|]; try done.
  destruct (checkHeaderBodyCorrelation _ _ header body); [done|].
  unfold onWorld.
  destruct (sah_SetShardConsensusData env _ _ _ _ _) as [[e|] w1]; [done|].
  match goal with
  | |- context [requestMetaHeaders env header ?s] =>
      pose proof (requestMetaHeaders_sameLedger header s) as Hl;
      destruct (requestMetaHeaders env header s) as [[r rf] sp4]
  end.
  simpl in *. exact Hl.
Qed.

Lemma ProcessBlock_await_sameLedger haveTime r rf (sp : shardProcessor W) :
  sameLedger sp (ProcessBlock_await env haveTime r rf sp).2.
Proof.
  unfold ProcessBlock_await, onWorld.
  destruct (txc_IsDataPreparedForProcessing env haveTime (world sp))
    as [[e|] w1]; [done|].
  destruct (_ || _); [|done]. simpl.
  destruct (haveTime w1) as [waitTime w2].
  pose proof (waitForMetaHdrHashes_sameLedger waitTime (setWorld w2 (setWorld w1 sp)))
    as Hl.
  destruct (waitForMetaHdrHashes env waitTime _) as [err sp3].
  simpl in *. exact Hl.
Qed.

(** X20.  [ProcessBlock] never changes the processed-miniblocks
    ledger nor the finality parameter, whatever its arguments and whatever
    it returns: validating a block, also with the notifications that run
    while it waits, records nothing as processed. *)
Theorem ProcessBlock_keeps_ledger (chainHandler : ChainHandler)
        (headerHandler : HeaderHandler) (bodyHandler : BodyHandler)
        (haveTime : option (W → Z * W)) (sp : shardProcessor W) :
  sameLedger sp
    (ProcessBlock env chainHandler headerHandler bodyHandler haveTime sp).2.
Proof.
  unfold ProcessBlock. destruct haveTime as [haveTime|]; [|done].
  pose proof (ProcessBlock_prepare_sameLedger chainHandler headerHandler
                bodyHandler sp) as H1.
  destruct (ProcessBlock_prepare env _ _ _ sp)
    as [[e|[[[header body] r] rf]] sp1]; [done|].
  simpl in H1. unfold onWorld at 1.
  destruct (haveTime (world sp1)) as [remaining w2].
  destruct (_ <? 0); [done|].
  unfold ProcessBlock_afterTimeCheck.
  pose proof (ProcessBlock_await_sameLedger haveTime r rf (setWorld w2 sp1)) as H2.
  destruct (ProcessBlock_await env haveTime r rf _) as [[e|] sp3].
  { eapply sameLedger_trans; [exact H1|]. exact H2. }
  simpl in H2.
  assert (sameLedger sp sp3) as H3.
  { eapply sameLedger_trans; [exact H1|]. exact H2. }
  destruct (ProcessBlock_verify env header sp3); [done|].
  eapply sameLedger_trans; [exact H3|].
  apply onlyWorldDiffers_sameLedger.
  eapply onlyWorldDiffers_trans;
    [apply (ProcessBlock_apply_onlyWorld header body haveTime sp3)|].
  apply revertOnError_onlyWorld.
Qed.


(** X22.  A block that fails [checkBlockValidity], whose header
    or body is not of the shard types, or whose header and body do not
    correlate, is rejected with that error (with [ErrWrongTypeAssertion]
    for the types) and the processor is left exactly as it was. *)
Theorem ProcessBlock_rejects_before_touching_state
        (chainHandler : ChainHandler) (headerHandler : HeaderHandler)
        (bodyHandler : BodyHandler) (haveTime : W → Z * W)
        (sp : shardProcessor W) :
  (∀ err,
     checkBlockValidity env chainHandler headerHandler bodyHandler (world sp)
     = Some err →
     ProcessBlock env chainHandler headerHandler bodyHandler (Some haveTime) sp
     = (Some err, sp))
  ∧ (checkBlockValidity env chainHandler headerHandler bodyHandler (world sp)
     = None →
     (∀ header, headerHandler ≠ HdrShard header)
     ∨ (∀ body, bodyHandler ≠ BodyShard body) →
     ProcessBlock env chainHandler headerHandler bodyHandler (Some haveTime) sp
     = (Some ErrWrongTypeAssertion, sp))
  ∧ (∀ header body err,
       checkBlockValidity env chainHandler headerHandler bodyHandler (world sp)
       = None →
       headerHandler = HdrShard header → bodyHandler = BodyShard body →
       checkHeaderBodyCorrelation (MarshalMiniBlock env) (Compute env)
         header body = Some err →
       ProcessBlock env chainHandler headerHandler bodyHandler (Some haveTime) sp
       = (Some err, sp)).
Proof.
  unfold ProcessBlock, ProcessBlock_prepare. split_and!.
  - by intros err ->.
  - intros -> [Hh|Hb].
    + destruct headerHandler as [|header|]; try done. by destruct (Hh header).
    + destruct headerHandler as [|header|]; try done.
      destruct bodyHandler as [|body|]; try done. by destruct (Hb body).
  - by intros header body err -> -> -> ->.
Qed.

End FrameFacts.

(** ** Commit and restore *)

Section CommitFacts.

Context {W : Type} (env : Collaborators W).

Lemma isMiniBlockProcessed_add (m b m' b' : string) (sp : shardProcessor W) :
  isMiniBlockProcessed m' b' (addProcessedMiniBlock m b sp) = true
  ↔ isMiniBlockProcessed m' b' sp = true ∨ (m' = m ∧ b' = b).
Proof.
  unfold isMiniBlockProcessed, addProcessedMiniBlock.
  destruct (processedMiniBlocks sp !! m) as [s|] eqn:Hm; simpl;
    (destruct (decide (m' = m)) as [->|Hne];
     [rewrite lookup_insert_eq, ?Hm | rewrite lookup_insert_ne by done]);
    rewrite ?bool_decide_eq_true, ?elem_of_union, ?elem_of_singleton;
    try (destruct (processedMiniBlocks sp !! m'));
    rewrite ?bool_decide_eq_true; intuition congruence.
Qed.

Lemma addProcessedMiniBlock_frame (m b : string) (sp : shardProcessor W) :
  world (addProcessedMiniBlock m b sp) = world sp
  ∧ sameTable sp (addProcessedMiniBlock m b sp).
Proof. unfold addProcessedMiniBlock. by destruct (_ !! m). Qed.

Lemma recordProcessedMiniBlocks_ledger (processed : gmap string bool)
      (entries : list (string * hdrInfo)) :
  ∀ sp : shardProcessor W,
    let r := recordProcessedMiniBlocks env processed entries sp in
    world r.2 = world sp
    ∧ sameTable sp r.2
    ∧ (∀ m b, isMiniBlockProcessed m b sp = true →
              isMiniBlockProcessed m b r.2 = true)
    ∧ (∀ m b, isMiniBlockProcessed m b r.2 = true →
              isMiniBlockProcessed m b sp = true
              ∨ ∃ metaBlock,
                  (m, mkHdrInfo true (HdrMeta metaBlock)) ∈ entries
                  ∧ is_Some (meta_GetMiniBlockHeadersWithDst env metaBlock
                               (SelfId env) !! b)
                  ∧ processed !! b = Some true).
Proof.
  induction entries as [|[k [u h]] rest IH]; intros sp; simpl.
  { split_and!; try done. by left. }
  destruct u; simpl.
  2:{ destruct (IH sp) as (H1 & H2 & H3 & H4). split_and!; try done.
      intros m b Hp. destruct (H4 m b Hp) as [?|(mb & Hin & ?)]; [by left|].
      right. exists mb. split; [by right|done]. }
  destruct h as [| |metaBlock]; try (split_and!; try done; by left).
  set (cross := meta_GetMiniBlockHeadersWithDst env metaBlock (SelfId env)).
  assert (∀ (l : list (string * Z)) (sp0 : shardProcessor W),
            let sp1 :=
              foldl (λ sp (e : string * Z),
                       if default false (processed !! e.1)
                       then addProcessedMiniBlock k e.1 sp else sp) sp0 l in
            world sp1 = world sp0
            ∧ sameTable sp0 sp1
            ∧ (∀ m b, isMiniBlockProcessed m b sp0 = true →
                      isMiniBlockProcessed m b sp1 = true)
            ∧ (∀ m b, isMiniBlockProcessed m b sp1 = true →
                      isMiniBlockProcessed m b sp0 = true
                      ∨ (m = k ∧ b ∈ l.*1 ∧ processed !! b = Some true)))
    as Hfold.
  { induction l as [|e l IHl] using rev_ind; intros sp0; simpl.
    { split_and!; try done. by left. }
    rewrite foldl_snoc.
    destruct (IHl sp0) as (F1 & F2 & F3 & F4). simpl in F1, F2, F3, F4.
    set (sp1 := foldl _ sp0 l) in *. clearbody sp1.
    destruct (processed !! e.1) as [[|]|] eqn:Hpe; simpl.
    - destruct (addProcessedMiniBlock_frame k e.1 sp1) as [A1 A2].
      split_and!.
      + congruence.
      + by apply (sameTable_trans _ sp1).
      + intros m b Hp. apply isMiniBlockProcessed_add. left. by apply F3.
      + intros m b [Hp|[-> ->]]%isMiniBlockProcessed_add.
        * destruct (F4 m b Hp) as [?|(-> & Hin & ?)]; [by left|right].
          split_and!; try done. rewrite fmap_app. apply elem_of_app. by left.
        * right. split_and!; try done. rewrite fmap_app. apply elem_of_app.
          right. by apply list_elem_of_singleton.
    - split_and!; try done. intros m b Hp.
      destruct (F4 m b Hp) as [?|(-> & Hin & ?)]; [by left|right].
      split_and!; try done. rewrite fmap_app. apply elem_of_app. by left.
    - split_and!; try done. intros m b Hp.
      destruct (F4 m b Hp) as [?|(-> & Hin & ?)]; [by left|right].
      split_and!; try done. rewrite fmap_app. apply elem_of_app. by left. }
  destruct (Hfold (map_to_list cross) sp) as (F1 & F2 & F3 & F4).
  simpl in F1, F2, F3, F4.
  set (sp1 := foldl _ sp (map_to_list cross)) in *. clearbody sp1.
  destruct (IH sp1) as (H1 & H2 & H3 & H4).
  split_and!.
  - congruence.
  - by apply (sameTable_trans _ sp1).
  - intros m b Hp. by apply H3, F3.
  - intros m b Hp. destruct (H4 m b Hp) as [Hp1|(mb & Hin & ? & ?)].
    + destruct (F4 m b Hp1) as [?|(-> & Hin & ?)]; [by left|right].
      exists metaBlock. split_and!; try done; [by left|].
      apply list_elem_of_fmap in Hin as [[b' z] [-> Hin]].
      apply elem_of_map_to_list in Hin. simpl. eauto.
    + right. exists mb. split_and!; try done. by right.
Qed.

Lemma getProcessedMetaBlocksFromHeader_frame (header : Header.t)
      (sp : shardProcessor W) :
  sameTable sp (getProcessedMetaBlocksFromHeader env header sp).2.
Proof.
  unfold getProcessedMetaBlocksFromHeader.
  destruct (getProcessedMetaBlocksFromMiniBlockHashes env _ sp)
    as [err|[processedMetaBlocks processed]]; [done|].
  destruct (recordProcessedMiniBlocks_ledger processed
              (map_to_list (hdrHashAndInfo (hdrsForCurrBlock sp))) sp)
    as (H1 & H2 & H3 & H4).
  simpl in H2.
  by destruct (recordProcessedMiniBlocks env processed _ sp) as [[e|] sp1].
Qed.

Lemma ownShardHeaders_inr (shardId : Z) (shardInfo : list ShardData.t) (w : W) :
  ∀ (acc : list HeaderHandler) (errFound : option Error)
    (hdrs : list HeaderHandler),
    ownShardHeaders env shardId shardInfo w acc errFound = inr hdrs →
    ∀ h, h ∈ hdrs →
         h ∈ acc
         ∨ ∃ info own,
             info ∈ shardInfo ∧ ShardData.ShardId info = shardId
             ∧ GetShardHeader env (ShardData.HeaderHash info) w = inr own
             ∧ h = HdrShard own.
Proof.
  induction shardInfo as [|info rest IH]; intros acc errFound hdrs; simpl.
  - destruct errFound; [discriminate|]. intros [= <-] h Hh. by left.
  - destruct (Z.eqb_spec (ShardData.ShardId info) shardId) as [Heq|Hne]; simpl.
    + destruct (GetShardHeader env (ShardData.HeaderHash info) w)
        as [err|own] eqn:Hget.
      * intros Hr h Hh. destruct (IH _ _ _ Hr h Hh) as [?|(i & o & Hin & ?)];
          [by left|right]. exists i, o. split; [by right|done].
      * intros Hr h Hh.
        destruct (IH _ _ _ Hr h Hh) as [[?|Hs]%elem_of_app|(i & o & Hin & ?)].
        -- by left.
        -- apply list_elem_of_singleton in Hs as ->.
           right. exists info, own. split; [by left|done].
        -- right. exists i, o. split; [by right|done].
    + intros Hr h Hh. destruct (IH _ _ _ Hr h Hh) as [?|(i & o & Hin & ?)];
        [by left|right]. exists i, o. split; [by right|done].
Qed.

Lemma ownShardHeadersOfAll_inr (processedHdrs : list HeaderHandler)
      (sp : shardProcessor W) :
  ∀ (acc hdrs : list HeaderHandler),
    ownShardHeadersOfAll env processedHdrs sp acc = inr hdrs →
    ∀ h, h ∈ hdrs →
         h ∈ acc
         ∨ ∃ m info own,
             HdrMeta m ∈ processedHdrs
             ∧ info ∈ MetaBlock.ShardInfo m
             ∧ ShardData.ShardId info = SelfId env
             ∧ GetShardHeader env (ShardData.HeaderHash info) (world sp)
               = inr own
             ∧ h = HdrShard own.
Proof.
  induction processedHdrs as [|x rest IH]; intros acc hdrs; simpl.
  - intros [= <-] h Hh. by left.
  - destruct x as [| |m]; try discriminate.
    unfold getHighestHdrForShardFromMetachain.
    destruct (ownShardHeaders env (SelfId env) (MetaBlock.ShardInfo m)
                (world sp) [] None) as [err|own] eqn:Hown; [discriminate|].
    intros Hr h Hh.
    destruct (IH _ _ Hr h Hh) as [[?|Hin]%elem_of_app|(m' & i & o & Hin & ?)].
    + by left.
    + right.
      destruct (ownShardHeaders_inr _ _ _ _ _ _ Hown h Hin)
        as [?%elem_of_nil|(i & o & ? & ? & ? & ?)]; [done|].
      exists m, i, o. split; [by left|done].
    + right. exists m', i, o. split; [by right|done].
Qed.

(** X25.  When [getHighestHdrForOwnShardFromMetachain] succeeds
    it returns at least one header and as many hashes as headers, sorted by
    nonce; with no processed metablock the result is the empty header
    alone.  Every header returned is that placeholder or a header of the
    self shard that a processed metablock lists in its shard info. *)
Theorem getHighestHdrForOwnShardFromMetachain_result
        (processedHdrs : list HeaderHandler) (sp : shardProcessor W) :
  match getHighestHdrForOwnShardFromMetachain env processedHdrs sp with
  | inl _ => True
  | inr (ownShIdHdrs, ownShIdHdrsHashes) =>
      ownShIdHdrs ≠ []
      ∧ length ownShIdHdrsHashes = length ownShIdHdrs
      ∧ StronglySorted (λ a b, GetNonce a ≤ GetNonce b) ownShIdHdrs
      ∧ (processedHdrs = [] → ownShIdHdrs = [HdrShard emptyHeader])
      ∧ ∀ h, h ∈ ownShIdHdrs →
             h = HdrShard emptyHeader
             ∨ ∃ m info own,
                 HdrMeta m ∈ processedHdrs
                 ∧ info ∈ MetaBlock.ShardInfo m
                 ∧ ShardData.ShardId info = SelfId env
                 ∧ GetShardHeader env (ShardData.HeaderHash info) (world sp)
                   = inr own
                 ∧ h = HdrShard own
  end.
Proof.
  unfold getHighestHdrForOwnShardFromMetachain.
  destruct (ownShardHeadersOfAll env (sortByKey GetNonce processedHdrs) sp [])
    as [err|own] eqn:Hown; [done|].
  split_and!.
  - intros Hnil. apply (f_equal length) in Hnil.
    rewrite (Permutation_length (sortByKey_Permutation _ _)) in Hnil.
    by destruct own.
  - by rewrite length_fmap.
  - apply sortByKey_sorted.
  - intros ->. by injection Hown as <-.
  - intros h Hh. rewrite sortByKey_elem_of in Hh.
    destruct own as [|o own]; simpl in Hh.
    + left. by apply list_elem_of_singleton in Hh.
    + right.
      destruct (ownShardHeadersOfAll_inr _ _ _ _ Hown h Hh)
        as [?%elem_of_nil|(m & i & o' & Hin & ?)]; [done|].
      exists m, i, o'. split; [|done]. by rewrite sortByKey_elem_of in Hin.
Qed.

Lemma isMiniBlockProcessed_removeAll (k m b : string) (sp : shardProcessor W) :
  isMiniBlockProcessed m b (removeAllProcessedMiniBlocks k sp) = true →
  isMiniBlockProcessed m b sp = true.
Proof.
  unfold isMiniBlockProcessed, removeAllProcessedMiniBlocks. simpl.
  destruct (decide (k = m)) as [->|Hne].
  - by rewrite lookup_delete_eq.
  - by rewrite lookup_delete_ne.
Qed.

Lemma removeProcessedMetaBlocksLoop_frame (lastNotarized : HeaderHandler)
      (processedMetaHdrs : list HeaderHandler) :
  ∀ sp : shardProcessor W,
    let sp' := removeProcessedMetaBlocksLoop env lastNotarized
                 processedMetaHdrs sp in
    sameTable sp sp'
    ∧ (∀ m b, isMiniBlockProcessed m b sp' = true →
              isMiniBlockProcessed m b sp = true)
    ∧ (Forall (λ h, GetNonce lastNotarized < GetNonce h) processedMetaHdrs →
       sp' = sp).
Proof.
  induction processedMetaHdrs as [|h rest IH]; intros sp; simpl; [done|].
  destruct (Z.ltb_spec (GetNonce lastNotarized) (GetNonce h)) as [Hlt|Hge].
  { destruct (IH sp) as (H1 & H2 & H3). split_and!; try done.
    intros [_ Hall]%Forall_cons. by apply H3. }
  assert (∀ sp0 : shardProcessor W,
            sameTable sp sp0 →
            (∀ m b, isMiniBlockProcessed m b sp0 = true →
                    isMiniBlockProcessed m b sp = true) →
            let sp' := removeProcessedMetaBlocksLoop env lastNotarized rest sp0 in
            sameTable sp sp'
            ∧ (∀ m b, isMiniBlockProcessed m b sp' = true →
                      isMiniBlockProcessed m b sp = true)
            ∧ (Forall (λ h, GetNonce lastNotarized < GetNonce h) (h :: rest) →
               sp' = sp)) as Hgen.
  { intros sp0 Ht Hl. destruct (IH sp0) as (H1 & H2 & H3). split_and!.
    - by apply (sameTable_trans _ sp0).
    - intros m b Hp. by apply Hl, H2.
    - intros [? _]%Forall_cons. lia. }
  destruct (MarshalHeader env h) as [err|buff]; [by apply Hgen|].
  unfold onWorld.
  destruct (store_Put env MetaHdrNonceHashDataUnit _ _ _) as [[e|] w1]; simpl;
    [by apply Hgen|].
  destruct (store_Put env MetaBlockUnit _ _ _) as [[e|] w2]; simpl;
    [by apply Hgen|].
  apply Hgen; [done|]. intros m b Hp.
  by apply isMiniBlockProcessed_removeAll in Hp.
Qed.

Lemma removeProcessedMetaBlocksFromPool_sameTable
      (processedMetaHdrs : list HeaderHandler) (sp : shardProcessor W) :
  sameTable sp (removeProcessedMetaBlocksFromPool env processedMetaHdrs sp).2.
Proof.
  unfold removeProcessedMetaBlocksFromPool.
  destruct (getLastNotarizedHdr env MetachainShardId (world sp)) as [err|l];
    [done|].
  apply (removeProcessedMetaBlocksLoop_frame l processedMetaHdrs sp).
Qed.

(** X26.  [removeProcessedMetaBlocksFromPool] never adds to the
    ledger.  It returns the error of [getLastNotarizedHdr] without touching
    anything, and it leaves the processor exactly as it was when every
    processed metablock has a nonce above the last notarized one. *)
Theorem removeProcessedMetaBlocksFromPool_ledger
        (processedMetaHdrs : list HeaderHandler) (sp : shardProcessor W) :
  let r := removeProcessedMetaBlocksFromPool env processedMetaHdrs sp in
  (∀ m b, isMiniBlockProcessed m b r.2 = true →
          isMiniBlockProcessed m b sp = true)
  ∧ (∀ err, getLastNotarizedHdr env MetachainShardId (world sp) = inl err →
            r = (Some err, sp))
  ∧ (∀ lastNotarized,
       getLastNotarizedHdr env MetachainShardId (world sp) = inr lastNotarized →
       Forall (λ h, GetNonce lastNotarized < GetNonce h) processedMetaHdrs →
       r = (None, sp)).
Proof.
  simpl. unfold removeProcessedMetaBlocksFromPool.
  destruct (getLastNotarizedHdr env MetachainShardId (world sp))
    as [err|lastNotarized].
  - split_and!; try done. by intros e [= <-].
  - destruct (removeProcessedMetaBlocksLoop_frame lastNotarized
                processedMetaHdrs sp) as (H1 & H2 & H3).
    split_and!; try done.
    intros l [= <-] Hall. simpl. by rewrite H3.
Qed.

End CommitFacts.

Section CommitRestoreFacts.

Context {W : Type} (env : Collaborators W).

Lemma storeMiniBlocks_onlyWorld (body : Body) :
  ∀ sp : shardProcessor W, onlyWorldDiffers sp (storeMiniBlocks env body sp).2.
Proof.
  induction body as [|mb rest IH]; intros sp; simpl;
    [apply onlyWorldDiffers_refl|].
  destruct (MarshalMiniBlock env mb); [apply onlyWorldDiffers_refl|].
  unfold onWorld. destruct (store_Put env _ _ _ _) as [e w1].
  eapply onlyWorldDiffers_trans; [|apply IH]. done.
Qed.

Lemma CommitBlock_finish_sameTable header body headerHash processedMetaHdrs
      finalHeaders finalHeadersHashes (sp : shardProcessor W) :
  sameTable sp
    (CommitBlock_finish env header body headerHash processedMetaHdrs
       finalHeaders finalHeadersHashes sp).2.
Proof.
  unfold CommitBlock_finish.
  unfold onWorld at 1.
  destruct (acc_Commit env (world sp)) as [[e|] w1]; [done|].
  unfold onWorld at 1.
  destruct (txc_RemoveBlockDataFromPool env body _) as [e2 w2].
  set (sp2 := setWorld w2 (setWorld w1 sp)).
  assert (sameTable sp sp2) as H2 by done. clearbody sp2.
  pose proof (removeProcessedMetaBlocksFromPool_sameTable env
                processedMetaHdrs sp2) as H3.
  destruct (removeProcessedMetaBlocksFromPool env processedMetaHdrs sp2)
    as [e3 sp3].
  simpl in H3. unfold onWorld.
  destruct (fd_AddHeader env _ _ _ _ (world sp3)) as [e4 w4]. simpl.
  destruct (chain_SetCurrentBlockBody env body _) as [[e|] w6]; simpl;
    [by apply (sameTable_trans _ sp2), (sameTable_trans _ sp3)|].
  destruct (chain_SetCurrentBlockHeader env header _) as [[e|] w7]; simpl;
    by apply (sameTable_trans _ sp2), (sameTable_trans _ sp3).
Qed.

Lemma CommitBlock_body_sameTable chain hh bh (sp : shardProcessor W) :
  sameTable sp (CommitBlock_body env chain hh bh sp).2.
Proof.
  unfold CommitBlock_body.
  destruct (checkForNils env chain hh bh); [done|].
  destruct (checkBlockValidity env chain hh bh (world sp)); [done|].
  destruct hh as [|header|]; try done.
  destruct (MarshalHeader env (HdrShard header)) as [err|buff]; [done|].
  unfold onWorld at 1.
  destruct (store_Put env _ _ _ (world sp)) as [e1 w1].
  unfold onWorld at 1.
  destruct (store_Put env BlockHeaderUnit _ _ _) as [e2 w2].
  destruct (negb _); [done|].
  destruct bh as [|body|]; try done.
  unfold onWorld at 1.
  destruct (txc_SaveBlockDataToStorage env body _) as [[e|] w4]; [done|].
  set (sp4 := setWorld w4 _).
  assert (sameTable sp sp4) as H4 by done. clearbody sp4.
  pose proof (storeMiniBlocks_onlyWorld body sp4) as H5.
  destruct (storeMiniBlocks env body sp4) as [[e|] sp5]; simpl in H5;
    [eapply sameTable_trans; [exact H4|by apply onlyWorldDiffers_sameTable]|].
  assert (sameTable sp sp5) as H5'
    by (eapply sameTable_trans; [exact H4|by apply onlyWorldDiffers_sameTable]).
  pose proof (getProcessedMetaBlocksFromHeader_frame env header sp5) as H6.
  destruct (getProcessedMetaBlocksFromHeader env header sp5)
    as [[e|processedMetaHdrs] sp6]; simpl in H6;
    [by apply (sameTable_trans _ sp5)|].
  assert (sameTable sp sp6) as H6' by (by apply (sameTable_trans _ sp5)).
  destruct (getHighestHdrForOwnShardFromMetachain env processedMetaHdrs sp6)
    as [e|[finalHeaders finalHeadersHashes]]; [done|].
  unfold onWorld.
  destruct (saveLastNotarizedHeader env _ _ _) as [[e|] w7]; simpl;
    [by apply (sameTable_trans _ sp6)|].
  destruct (getLastNotarizedHdr env MetachainShardId w7); simpl;
    [by apply (sameTable_trans _ sp6)|].
  eapply sameTable_trans; [|apply CommitBlock_finish_sameTable].
  by apply (sameTable_trans _ sp6).
Qed.

Lemma restoreMetaBlock_sameTable hash (sp : shardProcessor W) :
  sameTable sp (restoreMetaBlock env hash sp).
Proof.
  unfold restoreMetaBlock.
  destruct (store_Get env MetaBlockUnit hash (world sp)); [done|].
  destruct (UnmarshalMetaBlock env s) as [|metaBlock]; [done|].
  assert (∀ (l : list (string * Z)) (sp0 : shardProcessor W),
            sameTable sp0
              (foldl (λ sp (e : string * Z), addProcessedMiniBlock hash e.1 sp)
                 sp0 l)) as Hfold.
  { induction l as [|e l IH]; intros sp0; simpl; [done|].
    eapply sameTable_trans; [|apply IH].
    apply addProcessedMiniBlock_frame. }
  specialize (Hfold (map_to_list
                       (meta_GetMiniBlockHeadersWithDst env metaBlock (SelfId env)))
                sp).
  set (sp1 := foldl _ sp _) in *. clearbody sp1.
  unfold onWorld. simpl.
  destruct (store_Remove env MetaBlockUnit hash _) as [e1 w1]. simpl.
  destruct (store_Remove env MetaHdrNonceHashDataUnit _ _) as [e2 w2]. simpl.
  by apply (sameTable_trans _ sp1).
Qed.

Lemma removeProcessedMiniBlocks_fold (l : list (string * Z)) :
  ∀ (sp : shardProcessor W),
    let sp' := foldl (λ sp (e : string * Z), removeProcessedMiniBlock e.1 sp)
                 sp l in
    world sp' = world sp
    ∧ sameTable sp sp'
    ∧ ∀ m b, isMiniBlockProcessed m b sp'
             = isMiniBlockProcessed m b sp && negb (bool_decide (b ∈ l.*1)).
Proof.
  induction l as [|e l IH]; intros sp; simpl.
  - split_and!; try done. intros m b. by rewrite andb_true_r.
  - destruct (IH (removeProcessedMiniBlock e.1 sp)) as (H1 & H2 & H3).
    split_and!; try done.
    intros m b. rewrite H3.
    unfold isMiniBlockProcessed, removeProcessedMiniBlock. simpl.
    rewrite lookup_fmap.
    destruct (processedMiniBlocks sp !! m) as [s|]; simpl; [|done].
    bool_to_prop. rewrite elem_of_cons. intuition congruence.
Qed.

Lemma restoreMetaBlockIntoPool_sameTable mbh hashes (sp : shardProcessor W) :
  sameTable sp (restoreMetaBlockIntoPool env mbh hashes sp).2.
Proof.
  unfold restoreMetaBlockIntoPool.
  destruct (negb _); [done|]. destruct (negb _); [done|]. simpl.
  assert (∀ sp0 : shardProcessor W,
            sameTable sp0
              (foldl (λ sp hash, restoreMetaBlock env hash sp) sp0 hashes))
    as Hfold.
  { induction hashes as [|h rest IH]; intros sp0; simpl; [done|].
    eapply sameTable_trans; [apply restoreMetaBlock_sameTable|apply IH]. }
  eapply sameTable_trans; [apply Hfold|].
  apply removeProcessedMiniBlocks_fold.
Qed.

(** X27.  Neither [CommitBlock] nor
    [RestoreBlockIntoPools] changes the header table, its two counters, the
    channel, the highest nonce or the finality parameter, whatever their
    arguments and whatever they return. *)
Theorem CommitBlock_and_RestoreBlockIntoPools_keep_table
        (chainHandler : ChainHandler) (headerHandler : HeaderHandler)
        (bodyHandler : BodyHandler) (sp : shardProcessor W) :
  sameTable sp (CommitBlock env chainHandler headerHandler bodyHandler sp).2
  ∧ sameTable sp (RestoreBlockIntoPools env headerHandler bodyHandler sp).2.
Proof.
  split.
  - unfold CommitBlock.
    eapply sameTable_trans; [apply CommitBlock_body_sameTable|].
    apply onlyWorldDiffers_sameTable, revertOnError_onlyWorld.
  - unfold RestoreBlockIntoPools.
    destruct (isNilHeader headerHandler); [done|].
    destruct (isNilBody bodyHandler); [done|].
    destruct bodyHandler as [|body|]; try done.
    destruct headerHandler as [|header|]; try done.
    unfold onWorld.
    destruct (txc_RestoreBlockDataFromStorage env body _) as [[n [e|]] w1];
      [done|].
    eapply sameTable_trans; [|apply restoreMetaBlockIntoPool_sameTable]. done.
Qed.

(** X28.  When none of the referenced metablocks is in the
    store, [restoreMetaBlockIntoPool] skips them all without an error and
    without touching the collaborators' state; it still strips the
    miniblocks of the header from every entry of the ledger, and changes
    nothing else in it. *)
Theorem restoreMetaBlockIntoPool_missing_from_store
        (miniBlockHashes : gmap string Z) (metaBlockHashes : list Hash)
        (sp : shardProcessor W) :
  hasMetaBlocksPool env (world sp) = true →
  hasHeadersNoncesPool env (world sp) = true →
  (∀ hash, hash ∈ metaBlockHashes →
           ∃ err, store_Get env MetaBlockUnit hash (world sp) = inl err) →
  let r := restoreMetaBlockIntoPool env miniBlockHashes metaBlockHashes sp in
  r.1 = None
  ∧ world r.2 = world sp
  ∧ ∀ m b, isMiniBlockProcessed m b r.2
           = isMiniBlockProcessed m b sp
             && negb (bool_decide (is_Some (miniBlockHashes !! b))).
Proof.
  intros Hp1 Hp2 Hstore. simpl. unfold restoreMetaBlockIntoPool.
  rewrite Hp1, Hp2. simpl.
  assert (foldl (λ sp hash, restoreMetaBlock env hash sp) sp metaBlockHashes = sp)
    as ->.
  { induction metaBlockHashes as [|h rest IH]; simpl; [done|].
    assert (restoreMetaBlock env h sp = sp) as ->.
    { unfold restoreMetaBlock.
      destruct (Hstore h) as [err ->]; [by left|done]. }
    apply IH. intros hash Hin. apply Hstore. by right. }
  destruct (removeProcessedMiniBlocks_fold (map_to_list miniBlockHashes) sp)
    as (H1 & H2 & H3).
  split_and!; try done.
  intros m b. rewrite H3. f_equal. f_equal. apply bool_decide_ext.
  rewrite list_elem_of_fmap. split.
  - intros ([b' z] & -> & Hin%elem_of_map_to_list). eauto.
  - intros [z Hz]. exists (b, z). split; [done|]. by apply elem_of_map_to_list.
Qed.

End CommitRestoreFacts.

(** ** Building a body, broadcasting *)

Section BuilderFacts.

Context {W : Type} (env : Collaborators W) (benv : BuilderCollaborators W).

Lemma createMiniBlocks_frame noShards maxItems round haveTime
      (sp sp' : shardProcessor W) (res : BuildError + Body) :
  createMiniBlocks env benv noShards maxItems round haveTime sp = (res, sp') →
  sameLedger sp sp'
  ∧ sameSignalState sp sp'
  ∧ (tableAllUsed sp → tableAllUsed sp').
Proof.
  unfold createMiniBlocks.
  destruct (negb _); [by intros [= <- <-]|].
  unfold onWorld at 1. destruct (haveTime (world sp)) as [t w1].
  destruct t; simpl; [|by intros [= <- <-]].
  destruct (hasTransactionsPool benv w1); simpl; [|by intros [= <- <-]].
  set (sp1 := setWorld w1 sp).
  assert (sameLedger sp sp1 ∧ sameSignalState sp sp1
          ∧ (tableAllUsed sp → tableAllUsed sp1)) as (L1 & S1 & T1) by done.
  clearbody sp1.
  pose proof (createAndProcessCrossMiniBlocksDstMe_signal env noShards maxItems
                round haveTime sp1) as S2.
  assert (sameLedger sp1
            (createAndProcessCrossMiniBlocksDstMe env noShards maxItems round
               haveTime sp1).2
          ∧ (tableAllUsed sp1 →
             tableAllUsed
               (createAndProcessCrossMiniBlocksDstMe env noShards maxItems round
                  haveTime sp1).2)) as [L2 T2].
  { unfold createAndProcessCrossMiniBlocksDstMe.
    destruct (getOrderedMetaBlocks env round sp1) as [err|ordered]; [done|].
    destruct (getLastNotarizedHdr env MetachainShardId (world sp1))
      as [err|lastHdr]; [done|].
    destruct (selectorLoop_frame env maxItems round haveTime ordered ordered
                0%nat (mkSelectorState [] 0 0 lastHdr sp1)) as (F1 & F2 & F3).
    simpl in F1, F2, F3. simpl. split; [done|].
    intros Hall hash info Hl.
    destruct (F3 hash info Hl) as [Hold|(x & m & _ & _ & _ & ->)];
      [by apply (Hall hash)|by exists m]. }
  destruct (createAndProcessCrossMiniBlocksDstMe env noShards maxItems round
              haveTime sp1) as [r sp2].
  simpl in S2, L2, T2.
  assert (sameLedger sp sp2 ∧ sameSignalState sp sp2
          ∧ (tableAllUsed sp → tableAllUsed sp2)) as (L2' & S2' & T2').
  { split_and!.
    - by apply (sameLedger_trans sp sp1).
    - by apply (sameSignalState_trans sp sp1).
    - intros Hall. by apply T2, T1. }
  clear L1 S1 T1 S2 L2 T2.
  destruct (match r with inl _ => _ | inr x => x end) as [[destMe txs] hdrs].
  set (processedMetaHdrs := match getProcessedMetaBlocksFromMiniBlocks env _ _
                            with inl _ => _ | inr l => l end).
  pose proof (setMetaConsensusData_onlyWorld env processedMetaHdrs sp2) as O3.
  destruct (setMetaConsensusData env processedMetaHdrs sp2) as [[e|] sp3];
    simpl in O3; rewrite O3; [by intros [= <- <-]|].
  destruct (_ && _); [|by intros [= <- <-]].
  unfold onWorld.
  destruct (txc_CreateMbsAndProcessTransactionsFromMe benv _ _ _ _ _)
    as [mbFromMe w4].
  by intros [= <- <-].
Qed.

(** X29.  After [CreateBlockBody], whatever it returns, the
    ledger and the channel are as before, both counters of missing headers
    are zero, and every entry of the table is a metablock that is present
    and marked as used, which is what [CreateBlockHeader] relies on.  It
    returns a body exactly when it returns no error. *)
Theorem CreateBlockBody_leaves_table_used (round : Z) (haveTime : W → bool * W)
        (sp : shardProcessor W) :
  let r := CreateBlockBody env benv round haveTime sp in
  sameLedger sp r.2
  ∧ nothingMissing r.2
  ∧ chRcvAllMetaHdrs r.2 = chRcvAllMetaHdrs sp
  ∧ tableAllUsed r.2
  ∧ (r.1.2 = None ↔ ∃ miniBlocks, r.1.1 = BodyShard miniBlocks).
Proof.
  simpl. unfold CreateBlockBody.
  set (sp0 := doWorld (bst_ComputeMaxItems benv) (CreateBlockStarted env sp)).
  assert (sameLedger sp sp0) as L0 by done.
  assert (nothingMissing sp0) as N0 by done.
  assert (chRcvAllMetaHdrs sp0 = chRcvAllMetaHdrs sp) as C0 by done.
  assert (tableAllUsed sp0) as T0.
  { intros hash info Hl. unfold sp0 in Hl. simpl in Hl.
    by rewrite lookup_empty in Hl. }
  clearbody sp0.
  destruct (createMiniBlocks env benv _ _ round haveTime sp0) as [res sp1]
    eqn:Hcreate.
  destruct (createMiniBlocks_frame _ _ _ _ _ _ _ Hcreate)
    as (L1 & (S1 & S2 & S3) & T1).
  destruct res as [err|mbs];
    simpl in *; (split_and!;
      [ by apply (sameLedger_trans sp sp0)
      | destruct N0; split; congruence
      | congruence
      | by apply T1
      | ]).
  - split; [done|]. by intros [? ?].
  - split; [eauto|done].
Qed.

Lemma marshalBodies_lookup (l : list (Z * Body)) :
  NoDup l.*1 →
  ∀ (acc : gmap Z string) (shardId : Z),
    foldl (λ (mrsData : gmap Z string) (e : Z * Body),
             match MarshalBody benv e.2 with
             | inl _ => mrsData
             | inr buff => <[e.1 := buff]> mrsData
             end) acc l !! shardId
    = match list_to_map (M:=gmap Z Body) l !! shardId with
      | Some subsetBlockBody =>
          match MarshalBody benv subsetBlockBody with
          | inl _ => acc !! shardId
          | inr buff => Some buff
          end
      | None => acc !! shardId
      end.
Proof.
  induction l as [|[k b] rest IH]; intros Hnd acc shardId; simpl; [done|].
  apply NoDup_cons in Hnd as [Hk Hnd].
  rewrite (IH Hnd).
  destruct (decide (k = shardId)) as [->|Hne].
  - rewrite lookup_insert_eq.
    rewrite (not_elem_of_list_to_map_1 _ shardId) by done.
    destruct (MarshalBody benv b); [done|]. by rewrite lookup_insert_eq.
  - rewrite lookup_insert_ne by done.
    destruct (list_to_map rest !! shardId) as [b'|].
    + destruct (MarshalBody benv b'); [|done].
      destruct (MarshalBody benv b); [done|]. by rewrite lookup_insert_ne.
    + destruct (MarshalBody benv b); [done|]. by rewrite lookup_insert_ne.
Qed.

(** X30.  [MarshalizedDataToBroadcast] fails with
    [ErrNilMiniBlocks] on a nil body and with [ErrWrongTypeAssertion] on a
    body of another type, and in no other case.  Otherwise the data it
    returns for a shard is the marshalled body the coordinator prepared for
    that shard, and a shard whose body cannot be marshalled is left
    out. *)
Theorem MarshalizedDataToBroadcast_result (header : HeaderHandler)
        (bodyHandler : BodyHandler) (sp : shardProcessor W) :
  match MarshalizedDataToBroadcast benv header bodyHandler sp with
  | inl err =>
      (bodyHandler = BodyNil ∧ err = ErrNilMiniBlocks)
      ∨ (bodyHandler = BodyOther ∧ err = ErrProcess ErrWrongTypeAssertion)
  | inr (mrsData, mrsTxs) =>
      ∃ body, bodyHandler = BodyShard body
        ∧ mrsTxs = (txc_CreateMarshalizedData benv body (world sp)).2
        ∧ ∀ shardId,
            mrsData !! shardId
            = match (txc_CreateMarshalizedData benv body (world sp)).1 !! shardId
              with
              | Some subsetBlockBody =>
                  match MarshalBody benv subsetBlockBody with
                  | inl _ => None
                  | inr buff => Some buff
                  end
              | None => None
              end
  end.
Proof.
  unfold MarshalizedDataToBroadcast.
  destruct bodyHandler as [|body|]; [by left| |by right].
  cbn [isNilBody].
  destruct (txc_CreateMarshalizedData benv body (world sp)) as [bodies mrsTxs]
    eqn:Hdata.
  exists body. rewrite Hdata. split_and!; try done. intros shardId. simpl.
  rewrite marshalBodies_lookup by apply NoDup_fst_map_to_list.
  by rewrite list_to_map_to_list, lookup_empty.
Qed.

End BuilderFacts.

(** ** Processed metablocks *)

Section ProcessedFacts.

Context {W : Type} (env : Collaborators W).

Lemma processedStep_invariant (mbh0 : gmap nat string) (sp : shardProcessor W)
      (acc : list HeaderHandler * gmap string bool * gmap nat string)
      (metaBlockHash : Hash) (metaBlock : MetaBlock.t) :
  hdrHashAndInfo (hdrsForCurrBlock sp) !! metaBlockHash
  = Some (mkHdrInfo true (HdrMeta metaBlock)) →
  processedInvariant env mbh0 sp acc →
  processedInvariant env mbh0 sp
    (processedStep env sp acc metaBlockHash metaBlock).
Proof.
  intros Hused. destruct acc as [[hdrs processed] mbh].
  intros (I1 & I2 & I3). simpl in I1, I2, I3.
  unfold processedStep.
  set (cross := meta_GetMiniBlockHeadersWithDst env metaBlock (SelfId env)).
  set (processed1 := _ ∪ processed).
  assert (∀ b, processed1 !! b = Some true → countsAsProcessed mbh0 sp b) as J1.
  { intros b Hb. unfold processed1 in Hb.
    apply lookup_union_Some_raw in Hb as [Hb|[_ Hb]]; [|by apply I1].
    rewrite map_lookup_imap in Hb.
    destruct (cross !! b); simpl in Hb; [|done]. injection Hb as Hb.
    right. by exists metaBlockHash, metaBlock. }
  clearbody processed1.
  assert (∀ (l : list (nat * string))
            (a : gmap string bool * gmap nat string),
            (∀ e, e ∈ l → mbh0 !! e.1 = Some e.2) →
            (∀ b, a.1 !! b = Some true → countsAsProcessed mbh0 sp b) →
            (∀ i b, a.2 !! i = Some b → mbh0 !! i = Some b) →
            let a' :=
              foldl (λ (a : gmap string bool * gmap nat string) (e : nat * string),
                       match cross !! e.2 with
                       | None => a
                       | Some _ => (<[e.2 := true]> a.1, delete e.1 a.2)
                       end) a l in
            (∀ b, a'.1 !! b = Some true → countsAsProcessed mbh0 sp b)
            ∧ (∀ i b, a'.2 !! i = Some b → mbh0 !! i = Some b)) as Hfold.
  { induction l as [|e l IH]; intros a Hl Ha1 Ha2; simpl; [done|].
    apply IH.
    - intros e' He'. apply Hl. by right.
    - destruct (cross !! e.2); [|done]. simpl. intros b Hb.
      destruct (decide (e.2 = b)) as [<-|Hne].
      + left. exists e.1. apply Hl. by left.
      + rewrite lookup_insert_ne in Hb by done. by apply Ha1.
    - destruct (cross !! e.2); [|done]. simpl. intros i b Hb.
      apply lookup_delete_Some in Hb as [_ Hb]. by apply Ha2. }
  destruct (Hfold (map_to_list mbh) (processed1, mbh)) as [K1 K2]; try done.
  { intros [i b] He%elem_of_map_to_list. by apply I2. }
  simpl in K1, K2.
  destruct (foldl _ (processed1, mbh) (map_to_list mbh)) as [processed2 mbh2].
  simpl in K1, K2.
  split_and!; simpl; try done.
  intros h Hh.
  destruct (forallb _ _) eqn:Hall; [|by apply I3].
  apply elem_of_app in Hh as [Hh|Hh]; [by apply I3|].
  apply list_elem_of_singleton in Hh as ->.
  exists metaBlockHash, metaBlock. split_and!; try done.
  intros b [z Hz]. apply K1.
  rewrite forallb_forall in Hall. specialize (Hall (b, z)). simpl in Hall.
  destruct (processed2 !! b) as [[|]|]; simpl in Hall; try done;
    discriminate Hall; by apply list_elem_of_In, elem_of_map_to_list.
Qed.

Lemma processedLoop_invariant (mbh0 : gmap nat string) (sp : shardProcessor W)
      (entries : list (string * hdrInfo)) :
  (∀ e, e ∈ entries → hdrHashAndInfo (hdrsForCurrBlock sp) !! e.1 = Some e.2) →
  ∀ acc res,
    processedInvariant env mbh0 sp acc →
    processedLoop env sp entries acc = inr res →
    processedInvariant env mbh0 sp res.
Proof.
  induction entries as [|[k [u h]] rest IH]; intros Hentries acc res Hinv; simpl.
  - by intros [= <-].
  - assert (∀ e, e ∈ rest →
                 hdrHashAndInfo (hdrsForCurrBlock sp) !! e.1 = Some e.2) as Hrest
      by (intros e He; apply Hentries; by right).
    destruct u; simpl; [|by apply IH].
    destruct h as [| |metaBlock]; try discriminate.
    apply IH; [done|]. apply processedStep_invariant; [|done].
    apply (Hentries (k, mkHdrInfo true (HdrMeta metaBlock))). by left.
Qed.

Lemma processedLoop_error (sp : shardProcessor W)
      (entries : list (string * hdrInfo)) :
  ∀ acc err, processedLoop env sp entries acc = inl err →
             err = ErrWrongTypeAssertion.
Proof.
  induction entries as [|[k [u h]] rest IH]; intros acc err; simpl; [done|].
  destruct u; simpl; [|by apply IH].
  destruct h; try (by intros [= <-]). apply IH.
Qed.

Lemma getProcessedMetaBlocksFromMiniBlockHashes_sound (mbh0 : gmap nat string)
      (sp : shardProcessor W) :
  match getProcessedMetaBlocksFromMiniBlockHashes env mbh0 sp with
  | inl err => err = ErrWrongTypeAssertion
  | inr (processedMetaHdrs, processed) =>
      StronglySorted (λ a b, GetNonce a ≤ GetNonce b) processedMetaHdrs
      ∧ (∀ b, processed !! b = Some true → countsAsProcessed mbh0 sp b)
      ∧ ∀ h, h ∈ processedMetaHdrs →
             ∃ metaBlockHash metaBlock,
               h = HdrMeta metaBlock
               ∧ hdrHashAndInfo (hdrsForCurrBlock sp) !! metaBlockHash
                 = Some (mkHdrInfo true (HdrMeta metaBlock))
               ∧ ∀ b, is_Some (meta_GetMiniBlockHeadersWithDst env metaBlock
                                 (SelfId env) !! b) →
                      countsAsProcessed mbh0 sp b
  end.
Proof.
  unfold getProcessedMetaBlocksFromMiniBlockHashes.
  destruct (processedLoop env sp _ _) as [err|[[hdrs processed] mbh]] eqn:Hloop.
  - by apply processedLoop_error in Hloop.
  - apply processedLoop_invariant with (mbh0 := mbh0) in Hloop
      as (I1 & I2 & I3).
    + split_and!; [apply sortByKey_sorted|done|].
      intros h Hh. rewrite sortByKey_elem_of in Hh. by apply I3.
    + intros [k info] He. by apply elem_of_map_to_list.
    + split_and!; cbn [fst snd]; [done|done|].
      by intros h ?%elem_of_nil.
Qed.

Lemma crossMiniBlockHashesOf_lookup (body : list MiniBlock.t) :
  ∀ (k i : nat) (b : string),
    crossMiniBlockHashesOf env k body !! i = Some b →
    ∃ mb, mb ∈ body ∧ MiniBlock.SenderShardID mb ≠ SelfId env
          ∧ CalculateHashMiniBlock env mb = inr b.
Proof.
  induction body as [|mb rest IH]; intros k i b; simpl.
  - by rewrite lookup_empty.
  - assert (crossMiniBlockHashesOf env (S k) rest !! i = Some b →
            ∃ mb0, mb0 ∈ mb :: rest ∧ MiniBlock.SenderShardID mb0 ≠ SelfId env
                   ∧ CalculateHashMiniBlock env mb0 = inr b) as Hrest.
    { intros Hl. destruct (IH _ _ _ Hl) as (mb0 & Hin & ?).
      exists mb0. split; [by right|done]. }
    destruct (Z.eqb_spec (MiniBlock.SenderShardID mb) (SelfId env)); [done|].
    destruct (CalculateHashMiniBlock env mb) as [|miniBlockHash] eqn:Hh; [done|].
    destruct (decide (k = i)) as [->|Hne].
    + rewrite lookup_insert_eq. intros [= <-]. exists mb. split; [by left|done].
    + by rewrite lookup_insert_ne.
Qed.

(** X23.  [getProcessedMetaBlocksFromMiniBlocks] fails only with
    [ErrWrongTypeAssertion].  The metablocks it returns are sorted by
    nonce; each is a used metablock of the table, and each of its
    miniblocks for the self shard is either the hash of a miniblock of the
    given body that comes from another shard, or is already listed in the
    ledger under a used metablock. *)
Theorem getProcessedMetaBlocksFromMiniBlocks_sound
        (usedMiniBlocks : list MiniBlock.t) (sp : shardProcessor W) :
  match getProcessedMetaBlocksFromMiniBlocks env usedMiniBlocks sp with
  | inl err => err = ErrWrongTypeAssertion
  | inr processedMetaHdrs =>
      StronglySorted (λ a b, GetNonce a ≤ GetNonce b) processedMetaHdrs
      ∧ ∀ h, h ∈ processedMetaHdrs →
             ∃ metaBlockHash metaBlock,
               h = HdrMeta metaBlock
               ∧ hdrHashAndInfo (hdrsForCurrBlock sp) !! metaBlockHash
                 = Some (mkHdrInfo true (HdrMeta metaBlock))
               ∧ ∀ b, is_Some (meta_GetMiniBlockHeadersWithDst env metaBlock
                                 (SelfId env) !! b) →
                      (∃ mb, mb ∈ usedMiniBlocks
                             ∧ MiniBlock.SenderShardID mb ≠ SelfId env
                             ∧ CalculateHashMiniBlock env mb = inr b)
                      ∨ alreadyProcessed sp b
  end.
Proof.
  unfold getProcessedMetaBlocksFromMiniBlocks.
  destruct (_ || _).
  { split; [constructor|]. by intros h ?%elem_of_nil. }
  pose proof (getProcessedMetaBlocksFromMiniBlockHashes_sound
                (crossMiniBlockHashesOf env 0 usedMiniBlocks) sp) as Hs.
  destruct (getProcessedMetaBlocksFromMiniBlockHashes env _ sp)
    as [err|[hdrs processed]]; [done|].
  destruct Hs as (S1 & _ & S3). split; [done|].
  intros h Hh. destruct (S3 h Hh) as (k & m & -> & Hl & Hcross).
  exists k, m. split_and!; try done.
  intros b Hb. destruct (Hcross b Hb) as [[i Hi]|?]; [left|by right].
  by apply crossMiniBlockHashesOf_lookup in Hi.
Qed.

(** X24.  [getProcessedMetaBlocksFromHeader] changes the ledger
    only, and only by adding to it.  Every pair it adds is a used metablock
    of the table with one of its miniblocks for the self shard, a
    miniblock that the header lists or that the ledger listed already under
    a used metablock. *)
Theorem getProcessedMetaBlocksFromHeader_ledger (header : Header.t)
        (sp : shardProcessor W) :
  let r := getProcessedMetaBlocksFromHeader env header sp in
  world r.2 = world sp
  ∧ sameTable sp r.2
  ∧ (∀ m b, isMiniBlockProcessed m b sp = true →
            isMiniBlockProcessed m b r.2 = true)
  ∧ (∀ m b, isMiniBlockProcessed m b r.2 = true →
            isMiniBlockProcessed m b sp = true
            ∨ ∃ metaBlock,
                hdrHashAndInfo (hdrsForCurrBlock sp) !! m
                = Some (mkHdrInfo true (HdrMeta metaBlock))
                ∧ is_Some (meta_GetMiniBlockHeadersWithDst env metaBlock
                             (SelfId env) !! b)
                ∧ ((∃ mbHdr, mbHdr ∈ Header.MiniBlockHeaders header
                             ∧ MiniBlockHeader.Hash mbHdr = b)
                   ∨ alreadyProcessed sp b)).
Proof.
  simpl. unfold getProcessedMetaBlocksFromHeader.
  set (mbh0 := list_to_map _).
  pose proof (getProcessedMetaBlocksFromMiniBlockHashes_sound mbh0 sp) as Hs.
  destruct (getProcessedMetaBlocksFromMiniBlockHashes env mbh0 sp)
    as [err|[processedMetaBlocks processed]].
  { split_and!; try done. by left. }
  destruct Hs as (_ & Hprocessed & _).
  destruct (recordProcessedMiniBlocks_ledger env processed
              (map_to_list (hdrHashAndInfo (hdrsForCurrBlock sp))) sp)
    as (H1 & H2 & H3 & H4).
  simpl in H1, H2, H3, H4.
  assert (∀ m b,
            isMiniBlockProcessed m b
              (recordProcessedMiniBlocks env processed
                 (map_to_list (hdrHashAndInfo (hdrsForCurrBlock sp))) sp).2
            = true →
            isMiniBlockProcessed m b sp = true
            ∨ ∃ metaBlock,
                hdrHashAndInfo (hdrsForCurrBlock sp) !! m
                = Some (mkHdrInfo true (HdrMeta metaBlock))
                ∧ is_Some (meta_GetMiniBlockHeadersWithDst env metaBlock
                             (SelfId env) !! b)
                ∧ ((∃ mbHdr, mbHdr ∈ Header.MiniBlockHeaders header
                             ∧ MiniBlockHeader.Hash mbHdr = b)
                   ∨ alreadyProcessed sp b)) as H4'.
  { intros m b Hp. destruct (H4 m b Hp) as [?|(mb & Hin & Hc & Hb)];
      [by left|right].
    exists mb. split_and!; try done; [by apply elem_of_map_to_list|].
    destruct (Hprocessed b Hb) as [[i Hi]|?]; [left|by right].
    apply elem_of_list_to_map_2, elem_of_lookup_imap_1 in Hi
      as (j & mbHdr & [= -> ->] & Hj).
    exists mbHdr. split; [|done]. by apply list_elem_of_lookup_2 in Hj. }
  by destruct (recordProcessedMiniBlocks env processed _ sp) as [[e|] sp1].
Qed.

End ProcessedFacts.

(** ** The further properties at the reference scenario *)

(** X5 at the table of the validated block of the scenario. *)
Lemma sortHdrsHashesForCurrentBlock_exact_witness :
  NoDup (sortHdrsHashesForCurrentBlock true refProcessed)
  ∧ (∀ hash, hash ∈ sortHdrsHashesForCurrentBlock true refProcessed ↔
             ∃ info, hdrHashAndInfo (hdrsForCurrBlock refProcessed) !! hash
                     = Some info ∧ usedInBlock info = true)
  ∧ StronglySorted
      (λ h h', nonceOfHash refProcessed h ≤ nonceOfHash refProcessed h')
      (sortHdrsHashesForCurrentBlock true refProcessed).
Proof.
  apply (sortHdrsHashesForCurrentBlock_exact true refProcessed).
  intros hash info Hl%elem_of_map_to_list Hu.
  vm_compute (map_to_list _) in Hl.
  repeat (apply elem_of_cons in Hl as [Hl|Hl]);
    try (injection Hl as -> ->; discriminate).
  by apply elem_of_nil in Hl.
Defined.

(** X6 at the scenario: metablock 10 with metablock 11 as only successor. *)
Lemma finality_evaluators_agree_witness :
  isMetaHeaderFinal refCollaborators refProcessor (HdrMeta refM10)
    (Some [mkHashAndHdr (HdrMeta refM11) "meta11"]) 0 = true
  ↔ checkMetaHdrFinalityOn refCollaborators 1 (HdrMeta refM10) [refM11] = None.
Proof.
  apply (finality_evaluators_agree refCollaborators refProcessor (HdrMeta refM10)
           [mkHashAndHdr (HdrMeta refM11) "meta11"] [refM11]).
  - discriminate.
  - reflexivity.
Defined.

(** X7 at the scenario: metablock 10 stays final when a header is appended. *)
Lemma isMetaHeaderFinal_monotone_witness :
  isMetaHeaderFinal refCollaborators refProcessor (HdrMeta refM10)
    (Some (refOrdered ++ [mkHashAndHdr (HdrMeta refM9) "meta9"])) 1 = true.
Proof.
  apply (isMetaHeaderFinal_monotone refCollaborators refProcessor refProcessor
           (HdrMeta refM10) refOrdered [mkHashAndHdr (HdrMeta refM9) "meta9"] 1).
  - simpl. lia.
  - vm_compute. reflexivity.
Defined.

(** X8 at the validated block of the scenario, whose only used metablock is 10. *)
Lemma checkMetaHeadersValidityAndFinality_accepts_witness :
  checkMetaHeadersValidityAndFinality refCollaborators refProcessed = None
  ↔ [refM10] = []
    ∨ ((∀ i m, [refM10] !! i = Some m →
               isHdrConstructionValid refCollaborators (HdrMeta m)
                 (checkedAgainst (HdrMeta refM9) [refM10] i) = None)
       ∧ checkMetaHdrFinality refCollaborators refProcessed
           (from_option HdrMeta (HdrMeta refM9) (last [refM10])) = None).
Proof.
  apply (checkMetaHeadersValidityAndFinality_accepts refCollaborators
           refProcessed (HdrMeta refM9) [refM10]).
  - vm_compute. reflexivity.
  - vm_compute. reflexivity.
Defined.

(** X9 at the validated block of the scenario. *)
Lemma verifyCrossShardMiniBlockDstMe_accepts_witness :
  verifyCrossShardMiniBlockDstMe refCollaborators refHeader refProcessed = None
  ↔ ∀ hash,
      is_Some (hdr_GetMiniBlockHeadersWithDst refCollaborators refHeader
                 (SelfId refCollaborators) !! hash) →
      ∃ metaHash m,
        hdrHashAndInfo (hdrsForCurrBlock refProcessed) !! metaHash
        = Some (mkHdrInfo true (HdrMeta m))
        ∧ inWindow (Header.Round refHeader) (HdrMeta refM9) m
        ∧ is_Some (meta_GetMiniBlockHeadersWithDst refCollaborators m
                     (SelfId refCollaborators) !! hash).
Proof.
  apply (proj1 (verifyCrossShardMiniBlockDstMe_accepts refCollaborators
                  refHeader refProcessed (HdrMeta refM9)
                  ltac:(vm_compute; reflexivity))).
Defined.

(** X13 at the scenario with metablock 10 on its way. *)
Lemma requestMetaHeaders_counts_witness :
  (requestMetaHeaders refCollaborators refHeader
     (CreateBlockStarted refCollaborators refProcessorMissing)).1.1
  = Z.of_nat
      (length
         (filter (λ h, poolLacks refCollaborators
                         (world (CreateBlockStarted refCollaborators
                                   refProcessorMissing)) h)
                 (Header.MetaBlockHashes refHeader))).
Proof.
  apply (proj1 (requestMetaHeaders_counts refCollaborators refHeader
                  (CreateBlockStarted refCollaborators refProcessorMissing)
                  ltac:(split; reflexivity)
                  ltac:(simpl; lia))).
Defined.

(** X14 at the scenario: metablock 10 arrives while the table waits for it. *)
Lemma receivedMetaBlock_awaited_witness :
  missingHdrs (hdrsForCurrBlock
                 (receivedMetaBlock refCollaborators "meta10" refAwaiting))
  = missingHdrs (hdrsForCurrBlock refAwaiting) - 1.
Proof.
  apply (proj1 (receivedMetaBlock_awaited refCollaborators "meta10" refM10
                  (mkHdrInfo true HdrNil) refAwaiting
                  ltac:(reflexivity)
                  ltac:(vm_compute; reflexivity)
                  ltac:(vm_compute; reflexivity)
                  ltac:(reflexivity)
                  ltac:(vm_compute; split; reflexivity))).
Defined.

(** X15 at the scenario: metablock 11 is delivered while the table waits for metablock 10. *)
Lemma receivedMetaBlock_not_awaited_witness :
  hdrsForCurrBlock (receivedMetaBlock refCollaborators "meta11" refAwaiting)
  = hdrsForCurrBlock refAwaiting.
Proof.
  apply (proj1 (receivedMetaBlock_not_awaited refCollaborators "meta11"
                  refAwaiting
                  ltac:(intros info H; vm_compute in H; discriminate H)
                  ltac:(vm_compute; discriminate))).
Defined.

(** The reference environment hashes a miniblock by marshalling it. *)
Lemma refCollaborators_hashing :
  calculateHashIsMarshalThenCompute refCollaborators.
Proof. intros mb. reflexivity. Qed.

(** X17 at the body of the scenario. *)
Lemma CreateBlockHeader_describes_body_witness :
  ∃ header,
    HdrShard refCreatedHeader = HdrShard header
    ∧ correlatedPerIndex (MarshalMiniBlock refCollaborators)
        (Compute refCollaborators) header refBody
    ∧ Header.TxCount header
      = uint32 (Z.of_nat (length (refBody ≫= MiniBlock.TxHashes)))
    ∧ Header.MetaBlockHashes header
      = sortHdrsHashesForCurrentBlock true refProcessor
    ∧ Header.RootHash header = getRootHash refCollaborators (world refProcessor)
    ∧ Header.ShardId header = SelfId refCollaborators.
Proof.
  apply (CreateBlockHeader_describes_body refCollaborators refBody 11 timeAlways
           refProcessor refProcessor (HdrShard refCreatedHeader)
           refCollaborators_hashing).
  vm_compute. reflexivity.
Defined.

(** The two miniblocks of the scenario have different hashes. *)
Lemma refBody_collisionFree : collisionFree refCollaborators refBody.
Proof.
  intros mb1 mb2 b1 b2 H1 H2.
  repeat (apply elem_of_cons in H1 as [->|H1]);
    try (by apply elem_of_nil in H1);
    repeat (apply elem_of_cons in H2 as [->|H2]);
    try (by apply elem_of_nil in H2);
    intros [= <-] [= <-] Heq; (reflexivity || discriminate Heq).
Qed.

(** X18 at the body of the scenario. *)
Lemma CreateBlockHeader_then_correlation_witness :
  checkHeaderBodyCorrelation (MarshalMiniBlock refCollaborators)
    (Compute refCollaborators) refCreatedHeader refBody = None.
Proof.
  apply (CreateBlockHeader_then_correlation refCollaborators refBody 11
           timeAlways refProcessor refProcessor refCreatedHeader
           refCollaborators_hashing refBody_collisionFree).
  vm_compute. reflexivity.
Defined.

(** X19 at a body of another type. *)
Lemma CreateBlockHeader_failure_witness :
  HdrNil = HdrNil ∧ refProcessor = refProcessor
  ∧ ((BodyOther = BodyOther ∧ ErrWrongTypeAssertion = ErrWrongTypeAssertion)
     ∨ ∃ body mb, BodyOther = BodyShard body ∧ mb ∈ body
                  ∧ CalculateHashMiniBlock refCollaborators mb
                    = inl ErrWrongTypeAssertion).
Proof.
  apply (CreateBlockHeader_failure refCollaborators BodyOther 11 timeAlways
           refProcessor refProcessor HdrNil ErrWrongTypeAssertion).
  reflexivity.
Defined.


(** X22 at the header of the scenario with one miniblock missing from the body. *)
Lemma ProcessBlock_rejects_before_touching_state_witness :
  ProcessBlock refCollaborators Chain (HdrShard refHeader) (BodyShard [refMb1])
    (Some (remainingAlways 5)) refProcessor
  = (Some ErrHeaderBodyMismatch, refProcessor).
Proof.
  apply (proj2 (proj2 (ProcessBlock_rejects_before_touching_state
                         refCollaborators Chain (HdrShard refHeader)
                         (BodyShard [refMb1]) (remainingAlways 5) refProcessor))
           refHeader [refMb1] ErrHeaderBodyMismatch);
    reflexivity.
Defined.

(** X28 at the validated block of the scenario, before any commit has filled the store. *)
Lemma restoreMetaBlockIntoPool_missing_from_store_witness :
  (restoreMetaBlockIntoPool refCollaborators
     (hdr_MapMiniBlockHashesToShards refCollaborators refHeader)
     ["meta10"] refProcessed).1 = None.
Proof.
  apply (proj1 (restoreMetaBlockIntoPool_missing_from_store refCollaborators
                  (hdr_MapMiniBlockHashesToShards refCollaborators refHeader)
                  ["meta10"] refProcessed
                  ltac:(reflexivity) ltac:(reflexivity)
                  ltac:(intros hash Hin;
                        apply list_elem_of_singleton in Hin as ->;
                        eexists; vm_compute; reflexivity))).
Defined.

(** In the scenario the builder selects metablock 10 and returns its two
    miniblocks. *)
Example CreateBlockBody_scenario :
  (CreateBlockBody refCollaborators refBuilder 11 timeAlways refProcessor).1
  = (BodyShard [MiniBlock.mk ["mb1"] 1 0 TxBlock;
                MiniBlock.mk ["mb2"] 1 0 TxBlock], None).
Proof. vm_compute. reflexivity. Qed.

(** ** Commit, then restore

    What [CommitBlock] followed by [RestoreBlockIntoPools] leaves of the
    metablock pool, the store, the headers-nonces pool, the notarized slice
    and the ledger. *)

(** No key of another unit of the reference store is a key of the
    metablock unit. *)
Lemma rw_unitName_MetaBlockUnit (unit : StorageUnit) (key key' : string) :
  unit ≠ MetaBlockUnit ∨ key' ≠ key →
  rw_unitName unit +:+ key ≠ rw_unitName MetaBlockUnit +:+ key'.
Proof.
  intros Hne Heq. destruct unit; simpl in Heq; try discriminate Heq.
  simplify_eq. destruct Hne as [Hne|Hne]; congruence.
Qed.

(** The reference environment keeps its pools and its store as the
    contract says. *)
Lemma refEnv_dataContract (maxMiniBlocksInBlock : Z) (known : list MetaBlock.t) :
  dataContract (refEnv maxMiniBlocksInBlock known) refView.
Proof.
  split; try done.
  - intros unit key value w. split_and!; try done.
    + intros key' Hne. simpl. unfold rw_storeGet. simpl.
      rewrite lookup_insert_ne; [done|]. by apply rw_unitName_MetaBlockUnit.
    + intros ->. simpl. unfold rw_storeGet. simpl.
      by rewrite lookup_insert_eq.
  - intros unit key w. split_and!; try done.
    + intros key' Hne. simpl. unfold rw_storeGet. simpl.
      rewrite lookup_delete_ne; [done|]. by apply rw_unitName_MetaBlockUnit.
    + intros ->. simpl. unfold rw_storeGet. simpl.
      rewrite lookup_delete_eq. eauto.
  - intros hash m w. split_and!; try done.
    + simpl. by rewrite lookup_insert_eq.
    + intros hash' Hne. simpl. by rewrite lookup_insert_ne.
  - intros hash w. split_and!; try done.
    + simpl. by rewrite lookup_delete_eq.
    + intros hash' Hne. simpl. by rewrite lookup_delete_ne.
Qed.

Section RestoreDataFacts.

Context {W : Type} (env : Collaborators W) (view : DataView W).

Lemma samePools_refl (w : W) : samePools env view w w.
Proof. done. Qed.

Lemma samePools_trans (w1 w2 w3 : W) :
  samePools env view w1 w2 → samePools env view w2 w3 →
  samePools env view w1 w3.
Proof.
  intros (A1 & A2 & A3) (B1 & B2 & B3). split_and!.
  - intros h. by rewrite B1.
  - intros k. by rewrite B2.
  - unfold sameNonces in *. congruence.
Qed.

Lemma storedMetaBlock_same (w w' : W) (hash : Hash) :
  store_Get env MetaBlockUnit hash w' = store_Get env MetaBlockUnit hash w →
  storedMetaBlock env w' hash = storedMetaBlock env w hash.
Proof. unfold storedMetaBlock. by intros ->. Qed.

Lemma seedProcessedMiniBlocks_fold (hash : Hash) (l : list (string * Z)) :
  ∀ sp : shardProcessor W,
    let sp' := foldl (λ sp (e : string * Z), addProcessedMiniBlock hash e.1 sp)
                 sp l in
    world sp' = world sp
    ∧ ∀ m b, isMiniBlockProcessed m b sp'
             = isMiniBlockProcessed m b sp
               || bool_decide (m = hash) && bool_decide (b ∈ l.*1).
Proof.
  induction l as [|e l IH]; intros sp; simpl.
  - split; [done|]. intros m b.
    by rewrite andb_false_r, orb_false_r.
  - destruct (IH (addProcessedMiniBlock hash e.1 sp)) as [H1 H2].
    destruct (addProcessedMiniBlock_frame hash e.1 sp) as [H3 _].
    split; [congruence|].
    intros m b. rewrite H2. apply bool_eq_iff.
    rewrite !orb_true_iff, !andb_true_iff, !bool_decide_eq_true.
    rewrite isMiniBlockProcessed_add, elem_of_cons. intuition congruence.
Qed.

Lemma isMiniBlockProcessed_setWorld (w : W) (m b : string)
      (sp : shardProcessor W) :
  isMiniBlockProcessed m b (setWorld w sp) = isMiniBlockProcessed m b sp.
Proof. done. Qed.

(** One metablock of the restorer's loop, on the data. *)
Lemma restoreMetaBlock_data (hash : Hash) (sp : shardProcessor W) :
  dataContract env view →
  let sp' := restoreMetaBlock env hash sp in
  match storedMetaBlock env (world sp) hash with
  | None => sp' = sp
  | Some metaBlock =>
      metaBlocks_Peek env hash (world sp') = Some (HdrMeta metaBlock)
      ∧ (∀ hash', hash' ≠ hash →
                  metaBlocks_Peek env hash' (world sp')
                  = metaBlocks_Peek env hash' (world sp))
      ∧ (∃ err, store_Get env MetaBlockUnit hash (world sp') = inl err)
      ∧ (∀ key, key ≠ hash →
                store_Get env MetaBlockUnit key (world sp')
                = store_Get env MetaBlockUnit key (world sp))
      ∧ headersNonces view (world sp')
        = <[(MetaBlock.Nonce metaBlock, MetachainShardId) := hash]>
            (headersNonces view (world sp))
      ∧ notarizedHdrs view (world sp') = notarizedHdrs view (world sp)
      ∧ ∀ m b, isMiniBlockProcessed m b sp'
               = isMiniBlockProcessed m b sp
                 || bool_decide (m = hash)
                    && bool_decide
                         (is_Some (meta_GetMiniBlockHeadersWithDst env metaBlock
                                     (SelfId env) !! b))
  end.
Proof.
  intros Hc. simpl. unfold storedMetaBlock, restoreMetaBlock.
  destruct (store_Get env MetaBlockUnit hash (world sp)) as [err|buff]; [done|].
  destruct (UnmarshalMetaBlock env buff) as [err|metaBlock]; [done|].
  set (l := map_to_list (meta_GetMiniBlockHeadersWithDst env metaBlock
                           (SelfId env))).
  destruct (seedProcessedMiniBlocks_fold hash l sp) as [Hw Hl].
  simpl in Hw, Hl.
  set (sp1 := foldl _ sp l) in *. clearbody sp1.
  unfold doWorld, onWorld. cbn [world setWorld GetShardID].
  set (w1 := world sp1) in *.
  set (w2 := metaBlocks_Put env hash metaBlock w1).
  set (w3 := headersNonces_Merge env (MetaBlock.Nonce metaBlock)
               MetachainShardId hash w2).
  destruct (dc_metaBlocks_Put _ _ Hc hash metaBlock w1)
    as (P1 & P2 & P3 & P4 & P5). fold w2 in P1, P2, P3, P4, P5.
  destruct (dc_headersNonces_Merge _ _ Hc (MetaBlock.Nonce metaBlock)
              MetachainShardId hash w2) as (M1 & M2 & M3 & M4).
  fold w3 in M1, M2, M3, M4.
  destruct (dc_store_Remove _ _ Hc MetaBlockUnit hash w3)
    as (R1 & R2 & R3 & R4 & R5).
  destruct (store_Remove env MetaBlockUnit hash w3) as [e4 w4].
  simpl in R1, R2, R3, R4, R5. cbn [world setWorld].
  destruct (dc_store_Remove _ _ Hc MetaHdrNonceHashDataUnit
              (ToByteSlice env (MetaBlock.Nonce metaBlock)) w4)
    as (S1 & S2 & S3 & S4 & _).
  destruct (store_Remove env MetaHdrNonceHashDataUnit _ w4) as [e5 w5].
  simpl in S1, S2, S3, S4. cbn [world setWorld].
  unfold samePool, sameMetaBlockUnit, sameNonces, sameNotarized in *.
  split_and!.
  - by rewrite S1, R1, M2.
  - intros hash' Hne. by rewrite S1, R1, M2, P2, Hw.
  - destruct (R5 eq_refl) as [err Herr]. exists err.
    rewrite S4; [done|]. by left.
  - intros key Hne. rewrite S4 by (by left). rewrite R4 by (by right).
    by rewrite M3, P3, Hw.
  - by rewrite S2, R2, M1, P4, Hw.
  - by rewrite S3, R3, M4, P5, Hw.
  - intros m b. rewrite !isMiniBlockProcessed_setWorld, Hl.
    f_equal. f_equal. apply bool_decide_ext.
    unfold l. rewrite list_elem_of_fmap. split.
    + intros ([b' z] & -> & Hin%elem_of_map_to_list). eauto.
    + intros [z Hz]. exists (b, z). split; [done|].
      by apply elem_of_map_to_list.
Qed.

(** The first loop of [restoreMetaBlockIntoPool], on the data. *)
Lemma restoreMetaBlocks_data (s : shardProcessor W) (hashes : list Hash) :
  dataContract env view →
  let sp' := foldl (λ sp hash, restoreMetaBlock env hash sp) s hashes in
  (∀ hash, metaBlocks_Peek env hash (world sp')
           = if decide (hash ∈ hashes)
             then match storedMetaBlock env (world s) hash with
                  | Some metaBlock => Some (HdrMeta metaBlock)
                  | None => metaBlocks_Peek env hash (world s)
                  end
             else metaBlocks_Peek env hash (world s))
  ∧ (∀ key, if decide (key ∈ hashes)
            then match storedMetaBlock env (world s) key with
                 | Some _ =>
                     ∃ err, store_Get env MetaBlockUnit key (world sp') = inl err
                 | None =>
                     store_Get env MetaBlockUnit key (world sp')
                     = store_Get env MetaBlockUnit key (world s)
                 end
            else store_Get env MetaBlockUnit key (world sp')
                 = store_Get env MetaBlockUnit key (world s))
  ∧ (∀ key, headersNonces view (world sp') !! key
            = headersNonces view (world s) !! key
            ∨ ∃ hash metaBlock,
                hash ∈ hashes
                ∧ storedMetaBlock env (world s) hash = Some metaBlock
                ∧ key = (MetaBlock.Nonce metaBlock, MetachainShardId)
                ∧ headersNonces view (world sp') !! key = Some hash)
  ∧ (∀ hash metaBlock,
       hash ∈ hashes →
       storedMetaBlock env (world s) hash = Some metaBlock →
       ∃ hash' metaBlock',
         hash' ∈ hashes
         ∧ storedMetaBlock env (world s) hash' = Some metaBlock'
         ∧ MetaBlock.Nonce metaBlock' = MetaBlock.Nonce metaBlock
         ∧ headersNonces view (world sp')
             !! (MetaBlock.Nonce metaBlock, MetachainShardId) = Some hash')
  ∧ notarizedHdrs view (world sp') = notarizedHdrs view (world s)
  ∧ ∀ m b, isMiniBlockProcessed m b sp'
           = isMiniBlockProcessed m b s
             || bool_decide (m ∈ hashes) && storedMiniBlock env (world s) m b.
Proof.
  intros Hc. simpl.
  induction hashes as [|h l IH] using rev_ind.
  { simpl. split_and!; try done.
    - intros key. by left.
    - by intros hash metaBlock ?%elem_of_nil.
    - intros m b. by rewrite orb_false_r. }
  rewrite foldl_snoc.
  destruct IH as (IP & IS & I1 & I2 & IN & IL).
  set (sp' := foldl _ s l) in *. clearbody sp'.
  assert (∀ k, k ∈ l ++ [h] ↔ k ∈ l ∨ k = h) as Happ.
  { intros k. rewrite elem_of_app, list_elem_of_singleton. tauto. }
  (* what the store holds under [h] when the loop reaches it *)
  assert (storedMetaBlock env (world sp') h
          = if decide (h ∈ l) then None else storedMetaBlock env (world s) h)
    as Hstored.
  { specialize (IS h). destruct (decide (h ∈ l)) as [Hin|Hnin].
    - destruct (storedMetaBlock env (world s) h) as [m|] eqn:Hs.
      + destruct IS as [err Herr]. unfold storedMetaBlock. by rewrite Herr.
      + by rewrite (storedMetaBlock_same _ _ _ IS).
    - by apply storedMetaBlock_same. }
  pose proof (restoreMetaBlock_data h sp' Hc) as Hstep. simpl in Hstep.
  rewrite Hstored in Hstep.
  destruct (decide (h ∈ l)) as [Hin|Hnin].
  { (* a repeated hash: nothing is left in the store *)
    rewrite Hstep.
    assert (∀ k, k ∈ l ++ [h] ↔ k ∈ l) as Happ'.
    { intros k. rewrite Happ. split; [intros [?| ->]; done|by left]. }
    split_and!.
    - intros hash. rewrite IP.
      destruct (decide (hash ∈ l)), (decide (hash ∈ l ++ [h])); try done;
        exfalso; rewrite Happ' in *; done.
    - intros key. specialize (IS key).
      destruct (decide (key ∈ l)), (decide (key ∈ l ++ [h])); try done;
        exfalso; rewrite Happ' in *; done.
    - intros key. destruct (I1 key) as [?|(h' & m' & ? & ? & ? & ?)];
        [by left|right].
      exists h', m'. by rewrite Happ'.
    - intros hash m Hh Hs. rewrite Happ' in Hh.
      destruct (I2 hash m Hh Hs) as (h' & m' & ? & ? & ? & ?).
      exists h', m'. by rewrite Happ'.
    - done.
    - intros m b. rewrite IL. f_equal. f_equal. apply bool_decide_ext.
      by rewrite Happ'. }
  destruct (storedMetaBlock env (world s) h) as [metaBlock|] eqn:Hs.
  2:{ (* nothing in the store under [h] *)
    rewrite Hstep. split_and!.
    - intros hash. rewrite IP.
      destruct (decide (hash ∈ l)) as [Hl|Hl],
               (decide (hash ∈ l ++ [h])) as [Hl'|Hl']; try done.
      + exfalso. apply Hl'. apply Happ. by left.
      + apply Happ in Hl' as [?| ->]; [done|]. by rewrite Hs.
    - intros key. specialize (IS key).
      destruct (decide (key ∈ l)) as [Hl|Hl],
               (decide (key ∈ l ++ [h])) as [Hl'|Hl']; try done.
      + exfalso. apply Hl'. apply Happ. by left.
      + apply Happ in Hl' as [?| ->]; [done|]. by rewrite Hs.
    - intros key. destruct (I1 key) as [?|(h' & m' & ? & ? & ? & ?)];
        [by left|right].
      exists h', m'. rewrite Happ. auto.
    - intros hash m [Hh| ->]%Happ Hsm; [|congruence].
      destruct (I2 hash m Hh Hsm) as (h' & m' & ? & ? & ? & ?).
      exists h', m'. rewrite Happ. auto.
    - done.
    - intros m b. rewrite IL. f_equal.
      destruct (decide (m = h)) as [->|Hne].
      + unfold storedMiniBlock. rewrite Hs. by rewrite !andb_false_r.
      + f_equal. apply bool_decide_ext. rewrite Happ. intuition congruence. }
  (* the metablock is put back *)
  destruct Hstep as (SP & SP' & SS & SS' & SI & SN & SL).
  set (sp2 := restoreMetaBlock env h sp') in *. clearbody sp2.
  split_and!.
  - intros hash. destruct (decide (hash = h)) as [->|Hne].
    + rewrite SP. rewrite decide_True by (apply Happ; by right).
      by rewrite Hs.
    + rewrite SP' by done. rewrite IP.
      destruct (decide (hash ∈ l)) as [Hl|Hl],
               (decide (hash ∈ l ++ [h])) as [Hl'|Hl']; try done.
      * exfalso. apply Hl'. apply Happ. by left.
      * apply Happ in Hl' as [?|?]; done.
  - intros key. destruct (decide (key = h)) as [->|Hne].
    + rewrite decide_True by (apply Happ; by right). by rewrite Hs.
    + rewrite SS' by done. specialize (IS key).
      destruct (decide (key ∈ l)) as [Hl|Hl],
               (decide (key ∈ l ++ [h])) as [Hl'|Hl']; try done.
      * exfalso. apply Hl'. apply Happ. by left.
      * apply Happ in Hl' as [?|?]; done.
  - intros key. rewrite SI.
    destruct (decide (key = (MetaBlock.Nonce metaBlock, MetachainShardId)))
      as [->|Hne].
    + right. exists h, metaBlock. rewrite lookup_insert_eq.
      split_and!; try done. apply Happ. by right.
    + rewrite lookup_insert_ne by done.
      destruct (I1 key) as [?|(h' & m' & ? & ? & ? & ?)]; [by left|right].
      exists h', m'. rewrite Happ. auto.
  - intros hash m Hh Hsm. rewrite SI.
    destruct (decide (MetaBlock.Nonce m = MetaBlock.Nonce metaBlock))
      as [Heq|Hne].
    + rewrite Heq, lookup_insert_eq. exists h, metaBlock.
      split_and!; try done. apply Happ. by right.
    + rewrite lookup_insert_ne by congruence.
      apply Happ in Hh as [Hh| ->]; [|congruence].
      destruct (I2 hash m Hh Hsm) as (h' & m' & ? & ? & ? & ?).
      exists h', m'. rewrite Happ. auto.
  - congruence.
  - intros m b. rewrite SL, IL. rewrite <- orb_assoc. f_equal.
    destruct (decide (m = h)) as [->|Hne].
    + rewrite (bool_decide_eq_false_2 (h ∈ l)) by done.
      rewrite (bool_decide_eq_true_2 (h ∈ l ++ [h])) by (apply Happ; by right).
      rewrite (bool_decide_eq_true_2 (h = h)) by done.
      unfold storedMiniBlock. by rewrite Hs.
    + rewrite (bool_decide_eq_false_2 (m = h)) by done.
      rewrite orb_false_r. f_equal. apply bool_decide_ext. rewrite Happ.
      intuition congruence.
Qed.

(** A successful [RestoreBlockIntoPools], on the data. *)
Lemma RestoreBlockIntoPools_data (header : Header.t) (body : Body)
      (sp sp' : shardProcessor W) :
  dataContract env view →
  RestoreBlockIntoPools env (HdrShard header) (BodyShard body) sp = (None, sp') →
  (∀ hash, metaBlocks_Peek env hash (world sp')
           = if decide (hash ∈ Header.MetaBlockHashes header)
             then match storedMetaBlock env (world sp) hash with
                  | Some metaBlock => Some (HdrMeta metaBlock)
                  | None => metaBlocks_Peek env hash (world sp)
                  end
             else metaBlocks_Peek env hash (world sp))
  ∧ (∀ key, if decide (key ∈ Header.MetaBlockHashes header)
            then match storedMetaBlock env (world sp) key with
                 | Some _ =>
                     ∃ err, store_Get env MetaBlockUnit key (world sp') = inl err
                 | None =>
                     store_Get env MetaBlockUnit key (world sp')
                     = store_Get env MetaBlockUnit key (world sp)
                 end
            else store_Get env MetaBlockUnit key (world sp')
                 = store_Get env MetaBlockUnit key (world sp))
  ∧ (∀ key, headersNonces view (world sp') !! key
            = headersNonces view (world sp) !! key
            ∨ ∃ hash metaBlock,
                hash ∈ Header.MetaBlockHashes header
                ∧ storedMetaBlock env (world sp) hash = Some metaBlock
                ∧ key = (MetaBlock.Nonce metaBlock, MetachainShardId)
                ∧ headersNonces view (world sp') !! key = Some hash)
  ∧ (∀ hash metaBlock,
       hash ∈ Header.MetaBlockHashes header →
       storedMetaBlock env (world sp) hash = Some metaBlock →
       ∃ hash' metaBlock',
         hash' ∈ Header.MetaBlockHashes header
         ∧ storedMetaBlock env (world sp) hash' = Some metaBlock'
         ∧ MetaBlock.Nonce metaBlock' = MetaBlock.Nonce metaBlock
         ∧ headersNonces view (world sp')
             !! (MetaBlock.Nonce metaBlock, MetachainShardId) = Some hash')
  ∧ notarizedHdrs view (world sp') = removelast (notarizedHdrs view (world sp))
  ∧ ∀ m b, isMiniBlockProcessed m b sp'
           = (isMiniBlockProcessed m b sp
              || bool_decide (m ∈ Header.MetaBlockHashes header)
                 && storedMiniBlock env (world sp) m b)
             && negb (bool_decide
                        (is_Some (hdr_MapMiniBlockHashesToShards env header !! b))).
Proof.
  intros Hc Hrestore. unfold RestoreBlockIntoPools in Hrestore.
  simpl in Hrestore. unfold onWorld, doWorld in Hrestore.
  cbn [world setWorld] in Hrestore.
  destruct (dc_removeLastNotarized _ _ Hc (world sp)) as [(A1 & A2 & A3) A4].
  set (w0 := removeLastNotarized env (world sp)) in *.
  destruct (dc_txc_RestoreBlockDataFromStorage _ _ Hc body w0)
    as [(B1 & B2 & B3) B4].
  destruct (txc_RestoreBlockDataFromStorage env body w0) as [[n [err|]] w1];
    [done|].
  simpl in B1, B2, B3, B4.
  unfold restoreMetaBlockIntoPool in Hrestore.
  destruct (negb (hasMetaBlocksPool env _)); [done|].
  destruct (negb (hasHeadersNoncesPool env _)); [done|].
  injection Hrestore as <-.
  destruct (restoreMetaBlocks_data (setWorld w1 (setWorld w0 sp))
              (Header.MetaBlockHashes header) Hc)
    as (IP & IS & I1 & I2 & IN & IL).
  cbn [world setWorld] in IP, IS, I1, I2, IN, IL.
  set (sp1 := foldl (λ sp hash, restoreMetaBlock env hash sp)
                (setWorld w1 (setWorld w0 sp))
                (Header.MetaBlockHashes header)) in *.
  clearbody sp1.
  destruct (removeProcessedMiniBlocks_fold
              (map_to_list (hdr_MapMiniBlockHashesToShards env header)) sp1)
    as (F1 & _ & F3).
  simpl in F1, F3.
  set (sp2 := foldl _ sp1 _) in *. clearbody sp2.
  unfold samePool, sameMetaBlockUnit, sameNonces, sameNotarized in *.
  assert (∀ hash, storedMetaBlock env w1 hash
                  = storedMetaBlock env (world sp) hash) as Hst.
  { intros hash. unfold storedMetaBlock. by rewrite B2, A2. }
  assert (∀ hash b, storedMiniBlock env w1 hash b
                    = storedMiniBlock env (world sp) hash b) as Hsm.
  { intros hash b. unfold storedMiniBlock. by rewrite Hst. }
  rewrite F1. split_and!.
  - intros hash. by rewrite IP, Hst, B1, A1.
  - intros key. specialize (IS key). by rewrite Hst, B2, A2 in IS.
  - intros key. specialize (I1 key). rewrite B3, A3 in I1.
    destruct I1 as [?|(h & m & ? & Hs & ? & ?)]; [by left|right].
    exists h, m. by rewrite <- Hst.
  - intros hash m Hin Hs. rewrite <- Hst in Hs.
    destruct (I2 hash m Hin Hs) as (h' & m' & ? & Hs' & ? & ?).
    exists h', m'. by rewrite <- Hst.
  - by rewrite IN, B4.
  - intros m b. rewrite F3, IL, !isMiniBlockProcessed_setWorld, Hsm.
    f_equal. f_equal.
    apply bool_decide_ext. rewrite list_elem_of_fmap. split.
    + intros ([b' z] & -> & Hin%elem_of_map_to_list). eauto.
    + intros [z Hz]. exists (b, z). split; [done|].
      by apply elem_of_map_to_list.
Qed.

End RestoreDataFacts.

Section CommitDataFacts.

Context {W : Type} (env : Collaborators W) (view : DataView W).

Lemma committedData_start processed (w0 w : W) :
  samePool env w0 w → sameMetaBlockUnit env w0 w →
  committedData env view (headersNonces view w) processed w0 w.
Proof. intros Hp Hs. split; [left; by split|]. intros key. by left. Qed.

Lemma movedToStore_same processed (w w' : W) (hash : Hash) :
  metaBlocks_Peek env hash w' = metaBlocks_Peek env hash w →
  store_Get env MetaBlockUnit hash w' = store_Get env MetaBlockUnit hash w →
  movedToStore env processed w hash → movedToStore env processed w' hash.
Proof.
  intros Hp Hs (hdr & buff & ? & ? & ? & ? & ?).
  exists hdr, buff. split_and!; try done; congruence.
Qed.

Lemma committedData_samePools index processed (w0 w w' : W) :
  samePools env view w w' →
  committedData env view index processed w0 w →
  committedData env view index processed w0 w'.
Proof.
  intros (A1 & A2 & A3) [C1 C2].
  unfold samePool, sameMetaBlockUnit, sameNonces in *. split.
  - intros hash. destruct (C1 hash) as [[U1 U2]|Hm].
    + left. split; congruence.
    + right. by apply (movedToStore_same _ w).
  - intros key. rewrite A3.
    destruct (C2 key) as [?|(Hn & hdr & buff & ? & ? & ? & Hm)];
      [by left|right].
    split; [done|]. exists hdr, buff. split_and!; try done.
    by apply (movedToStore_same _ w).
Qed.

Lemma committedData_sameData index processed (w0 w w' : W) :
  sameData env view w w' →
  committedData env view index processed w0 w →
  committedData env view index processed w0 w'.
Proof. intros [H _]. by apply committedData_samePools. Qed.

(** A [Put] into another unit of the store than the metablock unit. *)
Lemma store_Put_samePools unit key value (w : W) :
  dataContract env view → unit ≠ MetaBlockUnit →
  samePools env view w (store_Put env unit key value w).2.
Proof.
  intros Hc Hne.
  destruct (dc_store_Put _ _ Hc unit key value w) as (P1 & P2 & P3 & P4 & _).
  split_and!; try done. intros key'. apply P4. by left.
Qed.

Lemma storeMiniBlocks_samePools (body : Body) :
  dataContract env view →
  ∀ sp : shardProcessor W,
    samePools env view (world sp) (world (storeMiniBlocks env body sp).2).
Proof.
  intros Hc. induction body as [|mb rest IH]; intros sp; simpl;
    [apply samePools_refl|].
  destruct (MarshalMiniBlock env mb) as [err|buff]; [apply samePools_refl|].
  unfold onWorld.
  pose proof (store_Put_samePools MiniBlockUnit (Compute env buff) buff
                (world sp) Hc ltac:(done)) as Hp.
  destruct (store_Put env MiniBlockUnit _ _ _) as [e w1]. simpl in Hp.
  eapply samePools_trans; [exact Hp|]. apply (IH (setWorld w1 sp)).
Qed.

(** The loop of [removeProcessedMetaBlocksFromPool], on the data. *)
Lemma removeProcessedMetaBlocksLoop_data index processed (w0 : W)
      (lastNotarized : HeaderHandler) (rest : list HeaderHandler) :
  dataContract env view →
  (∀ hdr, hdr ∈ rest → hdr ∈ processed) →
  ∀ sp : shardProcessor W,
    committedData env view index processed w0 (world sp) →
    committedData env view index processed w0
      (world (removeProcessedMetaBlocksLoop env lastNotarized rest sp)).
Proof.
  intros Hc. induction rest as [|hdr rest IH]; intros Hrest sp Hcd; simpl;
    [done|].
  assert (∀ h, h ∈ rest → h ∈ processed) as Hrest'
    by (intros h Hh; apply Hrest; by right).
  assert (hdr ∈ processed) as Hhdr by (apply Hrest; by left).
  destruct (GetNonce lastNotarized <? GetNonce hdr); [by apply IH|].
  destruct (MarshalHeader env hdr) as [err|buff] eqn:Hmarshal; [by apply IH|].
  set (hash := Compute env buff).
  set (nonceKey := ToByteSlice env (GetNonce hdr)).
  unfold onWorld at 1.
  pose proof (store_Put_samePools MetaHdrNonceHashDataUnit nonceKey hash
                (world sp) Hc ltac:(done)) as Hp1.
  destruct (store_Put env MetaHdrNonceHashDataUnit nonceKey hash (world sp))
    as [e1 w1].
  simpl in Hp1.
  assert (committedData env view index processed w0 w1) as Hcd1
    by (by apply (committedData_samePools _ _ _ (world sp))).
  destruct e1 as [e1|]; [by apply IH|].
  unfold onWorld. cbn [world setWorld].
  destruct (dc_store_Put _ _ Hc MetaBlockUnit hash buff w1)
    as (P1 & P2 & P3 & P4 & P5).
  destruct (store_Put env MetaBlockUnit hash buff w1) as [e2 w2].
  simpl in P1, P2, P3, P4, P5. specialize (P5 eq_refl).
  destruct e2 as [e2|].
  { apply IH; [done|]. cbn [world setWorld].
    apply (committedData_samePools _ _ _ w1); [|done].
    split_and!; try done. intros key.
    destruct (decide (key = hash)) as [->|Hne]; [done|].
    apply P4. by right. }
  apply IH; [done|].
  unfold removeAllProcessedMiniBlocks, doWorld.
  cbn [world setWorld setProcessedMiniBlocks].
  set (w3 := metaBlocks_Remove env hash w2).
  set (w4 := headersNonces_Remove env (GetNonce hdr) MetachainShardId w3).
  destruct (dc_metaBlocks_Remove _ _ Hc hash w2) as (R1 & R2 & R3 & R4 & _).
  fold w3 in R1, R2, R3, R4.
  destruct (dc_headersNonces_Remove _ _ Hc (GetNonce hdr) MetachainShardId w3)
    as (N1 & N2 & N3 & _).
  fold w4 in N1, N2, N3.
  unfold samePool, sameMetaBlockUnit, sameNonces in *.
  destruct Hcd1 as [C1 C2].
  assert (movedToStore env processed w4 hash) as Hmoved.
  { exists hdr, buff. split_and!; try done.
    - by rewrite N2.
    - by rewrite N3, R3. }
  assert (∀ h, movedToStore env processed w1 h →
               movedToStore env processed w4 h) as Hpersist.
  { intros h Hm. destruct (decide (h = hash)) as [->|Hne]; [done|].
    apply (movedToStore_same _ w1); [| |done].
    - by rewrite N2, R2, P1.
    - rewrite N3, R3. apply P4. by right. }
  split.
  - intros h. destruct (decide (h = hash)) as [->|Hne]; [by right|].
    destruct (C1 h) as [[U1 U2]|Hm]; [left|right; by apply Hpersist].
    split.
    + by rewrite N2, R2, P1.
    + rewrite N3, R3, P4 by (by right). done.
  - intros key. rewrite N1, R4, P2.
    destruct (decide (key = (GetNonce hdr, MetachainShardId))) as [->|Hk].
    + right. rewrite lookup_delete_eq. split; [done|].
      exists hdr, buff. by split_and!.
    + rewrite lookup_delete_ne by done.
      destruct (C2 key) as [?|(Hn & hdr' & buff' & ? & ? & ? & Hm)];
        [by left|right].
      split; [done|]. exists hdr', buff'. split_and!; try done.
      by apply Hpersist.
Qed.

Lemma removeProcessedMetaBlocksFromPool_data index processed (w0 : W)
      (processedMetaHdrs : list HeaderHandler) (sp : shardProcessor W) :
  dataContract env view →
  (∀ hdr, hdr ∈ processedMetaHdrs → hdr ∈ processed) →
  committedData env view index processed w0 (world sp) →
  committedData env view index processed w0
    (world (removeProcessedMetaBlocksFromPool env processedMetaHdrs sp).2).
Proof.
  intros Hc Hsub Hcd. unfold removeProcessedMetaBlocksFromPool.
  destruct (getLastNotarizedHdr env MetachainShardId (world sp)) as [err|l];
    [done|].
  by apply removeProcessedMetaBlocksLoop_data.
Qed.

Lemma CommitBlock_finish_data index processed (w0 : W) header body headerHash
      processedMetaHdrs finalHeaders finalHeadersHashes (sp : shardProcessor W) :
  dataContract env view →
  (∀ hdr, hdr ∈ processedMetaHdrs → hdr ∈ processed) →
  committedData env view index processed w0 (world sp) →
  committedData env view index processed w0
    (world (CommitBlock_finish env header body headerHash processedMetaHdrs
              finalHeaders finalHeadersHashes sp).2).
Proof.
  intros Hc Hsub Hcd. unfold CommitBlock_finish.
  unfold onWorld at 1.
  pose proof (dc_acc_Commit _ _ Hc (world sp)) as H1.
  destruct (acc_Commit env (world sp)) as [e1 w1]. simpl in H1.
  assert (committedData env view index processed w0 w1) as Hcd1
    by (by apply (committedData_sameData _ _ _ (world sp))).
  destruct e1 as [e1|]; [done|].
  unfold onWorld at 1. cbn [world setWorld].
  pose proof (dc_txc_RemoveBlockDataFromPool _ _ Hc body w1) as H2.
  destruct (txc_RemoveBlockDataFromPool env body w1) as [e2 w2]. simpl in H2.
  assert (committedData env view index processed w0 w2) as Hcd2
    by (by apply (committedData_sameData _ _ _ w1)).
  set (sp2 := setWorld w2 (setWorld w1 sp)).
  assert (committedData env view index processed w0 (world sp2)) as Hcd2'
    by done.
  clearbody sp2.
  pose proof (removeProcessedMetaBlocksFromPool_data index processed w0
                processedMetaHdrs sp2 Hc Hsub Hcd2') as Hcd3.
  destruct (removeProcessedMetaBlocksFromPool env processedMetaHdrs sp2)
    as [e3 sp3].
  simpl in Hcd3. unfold onWorld, doWorld.
  pose proof (dc_fd_AddHeader _ _ Hc header headerHash finalHeaders
                finalHeadersHashes (world sp3)) as H4.
  destruct (fd_AddHeader env header headerHash finalHeaders finalHeadersHashes
              (world sp3)) as [e4 w4].
  simpl in H4. cbn [world setWorld].
  assert (committedData env view index processed w0 w4) as Hcd4
    by (by apply (committedData_sameData _ _ _ (world sp3))).
  set (n := uint32 _).
  pose proof (dc_removeNotarizedHdrsBehindPreviousFinal _ _ Hc n w4) as H5.
  set (w5 := removeNotarizedHdrsBehindPreviousFinal env n w4) in *.
  assert (committedData env view index processed w0 w5) as Hcd5
    by (by apply (committedData_samePools _ _ _ w4)).
  clearbody w5.
  pose proof (dc_chain_SetCurrentBlockBody _ _ Hc body w5) as H6.
  destruct (chain_SetCurrentBlockBody env body w5) as [e6 w6]. simpl in H6.
  assert (committedData env view index processed w0 w6) as Hcd6
    by (by apply (committedData_sameData _ _ _ w5)).
  destruct e6 as [e6|]; [done|]. cbn [world setWorld].
  pose proof (dc_chain_SetCurrentBlockHeader _ _ Hc header w6) as H7.
  destruct (chain_SetCurrentBlockHeader env header w6) as [e7 w7].
  simpl in H7.
  assert (committedData env view index processed w0 w7) as Hcd7
    by (by apply (committedData_sameData _ _ _ w6)).
  destruct e7 as [e7|]; [done|]. cbn [world setWorld snd].
  apply (committedData_sameData _ _ _
           (chain_SetCurrentBlockHeaderHash env headerHash w7));
    [apply (dc_bst_Succeed _ _ Hc)|].
  apply (committedData_sameData _ _ _ w7);
    [apply (dc_chain_SetCurrentBlockHeaderHash _ _ Hc)|done].
Qed.

Lemma getProcessedMetaBlocksFromHeader_inr (header : Header.t)
      (sp sp' : shardProcessor W) (processedMetaHdrs : list HeaderHandler) :
  getProcessedMetaBlocksFromHeader env header sp = (inr processedMetaHdrs, sp') →
  world sp' = world sp
  ∧ ∀ hdr, hdr ∈ processedMetaHdrs →
           ∃ hash metaBlock,
             hdr = HdrMeta metaBlock
             ∧ hdrHashAndInfo (hdrsForCurrBlock sp) !! hash
               = Some (mkHdrInfo true (HdrMeta metaBlock)).
Proof.
  unfold getProcessedMetaBlocksFromHeader.
  set (mbh0 := list_to_map _).
  pose proof (getProcessedMetaBlocksFromMiniBlockHashes_sound env mbh0 sp) as Hs.
  destruct (getProcessedMetaBlocksFromMiniBlockHashes env mbh0 sp)
    as [err|[processedMetaBlocks processed]]; [done|].
  destruct Hs as (_ & _ & Hs).
  destruct (recordProcessedMiniBlocks_ledger env processed
              (map_to_list (hdrHashAndInfo (hdrsForCurrBlock sp))) sp)
    as (H1 & _).
  simpl in H1.
  destruct (recordProcessedMiniBlocks env processed _ sp) as [[e|] sp1];
    [done|].
  intros [= <- <-]. split; [done|].
  intros hdr Hin. destruct (Hs hdr Hin) as (k & m & ? & ? & _). eauto.
Qed.

(** A successful [CommitBlock], on the data. *)
Lemma CommitBlock_data (chainHandler : ChainHandler) (header : Header.t)
      (bodyHandler : BodyHandler) (sp sp' : shardProcessor W) :
  dataContract env view →
  CommitBlock env chainHandler (HdrShard header) bodyHandler sp = (None, sp') →
  ∃ processed buff,
    MarshalHeader env (HdrShard header) = inr buff
    ∧ (∀ hdr, hdr ∈ processed →
              ∃ hash metaBlock,
                hdr = HdrMeta metaBlock
                ∧ hdrHashAndInfo (hdrsForCurrBlock sp) !! hash
                  = Some (mkHdrInfo true (HdrMeta metaBlock)))
    ∧ committedData env view
        (<[(Header.Nonce header, Header.ShardId header) := Compute env buff]>
           (headersNonces view (world sp)))
        processed (world sp) (world sp').
Proof.
  intros Hc. unfold CommitBlock.
  destruct (CommitBlock_body env chainHandler (HdrShard header) bodyHandler sp)
    as [[e|] sp0] eqn:Hbody; [done|].
  simpl. intros [= <-]. revert Hbody.
  unfold CommitBlock_body.
  destruct (checkForNils env _ _ _); [done|].
  destruct (checkBlockValidity env _ _ _ _); [done|].
  destruct (MarshalHeader env (HdrShard header)) as [err|buff]; [done|].
  set (headerHash := Compute env buff).
  set (index := <[(Header.Nonce header, Header.ShardId header) := headerHash]>
                  (headersNonces view (world sp))).
  unfold onWorld at 1.
  pose proof (store_Put_samePools
                (ShardHdrNonceHashDataUnit (Header.ShardId header))
                (ToByteSlice env (Header.Nonce header)) headerHash (world sp)
                Hc ltac:(done)) as H1.
  destruct (store_Put env (ShardHdrNonceHashDataUnit _) _ _ (world sp))
    as [e1 w1].
  simpl in H1. unfold onWorld at 1. cbn [world setWorld].
  pose proof (store_Put_samePools BlockHeaderUnit headerHash buff w1
                Hc ltac:(done)) as H2.
  destruct (store_Put env BlockHeaderUnit headerHash buff w1) as [e2 w2].
  simpl in H2. cbn [world setWorld].
  destruct (negb (hasHeadersNoncesPool env w2)); [done|].
  unfold doWorld. cbn [world setWorld GetNonce GetShardID].
  set (w3 := headersNonces_Merge env (Header.Nonce header)
               (Header.ShardId header) headerHash w2).
  assert (∀ processed,
            committedData env view index processed (world sp) w3) as Hcd3.
  { intros processed.
    destruct (samePools_trans env view _ _ _ H1 H2) as (A1 & A2 & A3).
    destruct (dc_headersNonces_Merge _ _ Hc (Header.Nonce header)
                (Header.ShardId header) headerHash w2) as (M1 & M2 & M3 & _).
    fold w3 in M1, M2, M3.
    assert (index = headersNonces view w3) as ->.
    { unfold index. rewrite M1. by rewrite A3. }
    apply committedData_start.
    - intros h. by rewrite M2, A1.
    - intros k. by rewrite M3, A2. }
  clearbody w3.
  destruct bodyHandler as [|body|]; try done.
  unfold onWorld at 1. cbn [world setWorld].
  pose proof (dc_txc_SaveBlockDataToStorage _ _ Hc body w3) as H4.
  destruct (txc_SaveBlockDataToStorage env body w3) as [[e|] w4]; [done|].
  simpl in H4.
  set (sp4 := setWorld w4 _).
  assert (hdrsForCurrBlock sp4 = hdrsForCurrBlock sp) as Ht4 by done.
  assert (world sp4 = w4) as Hw4 by done.
  clearbody sp4.
  pose proof (storeMiniBlocks_samePools body Hc sp4) as H5.
  pose proof (storeMiniBlocks_onlyWorld env body sp4) as H5'.
  destruct (storeMiniBlocks env body sp4) as [[e|] sp5]; [done|].
  simpl in H5, H5'.
  assert (hdrsForCurrBlock sp5 = hdrsForCurrBlock sp) as Ht5.
  { apply onlyWorldDiffers_sameTable in H5' as [-> _]. done. }
  destruct (getProcessedMetaBlocksFromHeader env header sp5)
    as [[e|processedMetaHdrs] sp6] eqn:Hprocessed; [done|].
  apply getProcessedMetaBlocksFromHeader_inr in Hprocessed as [Hw6 Hin6].
  rewrite Ht5 in Hin6.
  destruct (getHighestHdrForOwnShardFromMetachain env processedMetaHdrs sp6)
    as [e|[finalHeaders finalHeadersHashes]]; [done|].
  set (processed := sortByKey GetNonce processedMetaHdrs).
  unfold onWorld.
  pose proof (dc_saveLastNotarizedHeader _ _ Hc MetachainShardId processed
                (world sp6)) as H7.
  destruct (saveLastNotarizedHeader env MetachainShardId processed (world sp6))
    as [[e|] w7]; [done|].
  simpl in H7. cbn [world setWorld].
  destruct (getLastNotarizedHdr env MetachainShardId w7); [done|].
  intros Hfinish. exists processed, buff. split; [done|]. split.
  { intros hdr Hhdr. apply Hin6. unfold processed in Hhdr.
    by rewrite sortByKey_elem_of in Hhdr. }
  pose proof (CommitBlock_finish_data index processed (world sp) header body
                headerHash processed finalHeaders finalHeadersHashes
                (setWorld w7 sp6) Hc ltac:(done)) as Hfin.
  rewrite Hfinish in Hfin. apply Hfin. cbn [world setWorld].
  apply (committedData_samePools _ _ _ (world sp6)); [done|].
  rewrite Hw6.
  apply (committedData_samePools _ _ _ (world sp4)); [done|].
  rewrite Hw4.
  apply (committedData_sameData _ _ _ w3); [done|]. apply Hcd3.
Qed.

End CommitDataFacts.

Section RoundTripFacts.

Context {W : Type} (env : Collaborators W) (view : DataView W).

(** A metablock that the commit has completed is one of the table. *)
Lemma processed_in_table (header : Header.t) (sp : shardProcessor W)
      (processed : list HeaderHandler) (hdr : HeaderHandler) (buff : string) :
  tracksPool env view header sp →
  (∀ hdr, hdr ∈ processed →
          ∃ hash metaBlock,
            hdr = HdrMeta metaBlock
            ∧ hdrHashAndInfo (hdrsForCurrBlock sp) !! hash
              = Some (mkHdrInfo true (HdrMeta metaBlock))) →
  hdr ∈ processed →
  MarshalHeader env hdr = inr buff →
  ∃ metaBlock,
    hdr = HdrMeta metaBlock
    ∧ hdrHashAndInfo (hdrsForCurrBlock sp) !! Compute env buff
      = Some (mkHdrInfo true (HdrMeta metaBlock))
    ∧ UnmarshalMetaBlock env buff = inr metaBlock.
Proof.
  intros Htracks Hp Hin Hmarshal.
  destruct (Hp hdr Hin) as (k & m & -> & Hk).
  destruct (Htracks k m Hk) as ((buff0 & Hb0 & Hc0 & Hu0) & _).
  assert (buff0 = buff) as -> by congruence.
  exists m. by rewrite Hc0.
Qed.

Lemma movedToStore_tracked (header : Header.t) (sp : shardProcessor W)
      (processed : list HeaderHandler) (w1 : W) (hash : Hash) :
  tracksPool env view header sp →
  (∀ hdr, hdr ∈ processed →
          ∃ hash metaBlock,
            hdr = HdrMeta metaBlock
            ∧ hdrHashAndInfo (hdrsForCurrBlock sp) !! hash
              = Some (mkHdrInfo true (HdrMeta metaBlock))) →
  movedToStore env processed w1 hash →
  ∃ metaBlock,
    storedMetaBlock env w1 hash = Some metaBlock
    ∧ hash ∈ Header.MetaBlockHashes header
    ∧ metaBlocks_Peek env hash (world sp) = Some (HdrMeta metaBlock)
    ∧ headersNonces view (world sp)
        !! (MetaBlock.Nonce metaBlock, MetachainShardId) = Some hash.
Proof.
  intros Htracks Hp (hdr & buff & Hin & Hmarshal & <- & Hpeek & Hget).
  destruct (processed_in_table header sp processed hdr buff Htracks Hp Hin
              Hmarshal) as (m & -> & Hk & Hu).
  destruct (Htracks _ m Hk) as (_ & ? & ? & ?).
  exists m. split_and!; try done.
  unfold storedMetaBlock. by rewrite Hget, Hu.
Qed.


End RoundTripFacts.

(** The table after the validation of the block of the scenario. *)
Lemma refProcessed_table :
  hdrHashAndInfo (hdrsForCurrBlock refProcessed)
  = <["meta10" := mkHdrInfo true (HdrMeta refM10)]>
      (<["meta11" := mkHdrInfo false (HdrMeta refM11)]> ∅).
Proof. vm_compute. reflexivity. Qed.

(** The validated block of the scenario is committed in a state that tracks
    the pool, with an empty store. *)
Lemma refProcessed_tracksPool :
  tracksPool refCollaborators refView refHeader refProcessed.
Proof.
  intros hash m. rewrite refProcessed_table.
  destruct (decide (hash = "meta10")) as [->|Hne].
  - rewrite lookup_insert_eq. intros [= <-]. split_and!.
    + exists "meta10". vm_compute. done.
    + vm_compute. reflexivity.
    + vm_compute. reflexivity.
    + apply list_elem_of_In. vm_compute. auto.
  - rewrite lookup_insert_ne by done.
    destruct (decide (hash = "meta11")) as [->|Hne'].
    + rewrite lookup_insert_eq. discriminate.
    + rewrite lookup_insert_ne by done. by rewrite lookup_empty.
Qed.

Lemma refProcessed_notInStore :
  notInStore refCollaborators refHeader refProcessed.
Proof.
  intros hash Hin. apply list_elem_of_singleton in Hin as ->.
  vm_compute. eauto.
Qed.


(** When the commit trims the notarized slice, the restore does not bring
    the trimmed header back: the block is validated, committed and
    restored without error, and the slice has lost metablock 4. *)
Example restore_after_trimming_commit :
  (ProcessBlock refCollaborators Chain (HdrShard refHeader) (BodyShard refBody)
     (Some (remainingAlways 0)) refProcessorLong).1 = None
  ∧ (CommitBlock refCollaborators Chain (HdrShard refHeader) (BodyShard refBody)
       refProcessedLong).1 = None
  ∧ (RestoreBlockIntoPools refCollaborators (HdrShard refHeader)
       (BodyShard refBody) refCommittedLong).1 = None
  ∧ rw_notarized (world refProcessedLong)
    = refOlderNotarized ++ [HdrMeta refM9]
  ∧ rw_notarized (world refCommittedLong)
    = drop 1 refOlderNotarized ++ [HdrMeta refM9; HdrMeta refM10]
  ∧ rw_notarized (world refRestoredLong)
    = drop 1 refOlderNotarized ++ [HdrMeta refM9].
Proof. vm_compute. repeat split. Qed.

(** The premises of the round trip are needed.  A block whose header does
    not reference the metablock that the table marks as used: the commit
    moves the metablock to the store and the restore leaves it there. *)
Example restore_of_unreferenced_metablock :
  let committed :=
    CommitBlock refCollaborators Chain (HdrShard refUnreferencedHeader)
      (BodyShard refBody) refProcessed in
  let restored :=
    RestoreBlockIntoPools refCollaborators (HdrShard refUnreferencedHeader)
      (BodyShard refBody) committed.2 in
  committed.1 = None ∧ restored.1 = None
  ∧ metaBlocks_Peek refCollaborators "meta10" (world refProcessed)
    = Some (HdrMeta refM10)
  ∧ metaBlocks_Peek refCollaborators "meta10" (world restored.2) = None.
Proof. vm_compute. repeat split. Qed.

(** A block that references a metablock which is in the store already:
    the restore puts into the pool a metablock that was not there before
    the commit. *)
Example restore_of_stored_metablock :
  let committed :=
    CommitBlock refCollaborators Chain (HdrShard refStaleHeader)
      (BodyShard []) refProcessorStale in
  let restored :=
    RestoreBlockIntoPools refCollaborators (HdrShard refStaleHeader)
      (BodyShard []) committed.2 in
  committed.1 = None ∧ restored.1 = None
  ∧ metaBlocks_Peek refCollaborators "meta9" (world refProcessorStale) = None
  ∧ metaBlocks_Peek refCollaborators "meta9" (world restored.2)
    = Some (HdrMeta refM9).
Proof. vm_compute. repeat split. Qed.
